(** * pgwatch3: the relational metric sink and the schema bootstrapper

  A shallow embedding of [sinks/postgres.go] (the writer, its batcher pass
  [write], the partition manager and the copy loop) and of
  [db/bootstrap.go] ([executeSchemaScripts]).

  Conventions.
  - Everything outside the process (the metric store behind the pool and
    the wall clock) is a state of an arbitrary type [W]; the pool's methods
    are functions on [W] that return the driver's answer.  Every call that
    reaches the pool is also appended to a call log, so that statements
    such as "no copy is issued" can be written down.
  - A Go map that is walked with [range] is an association list; the order
    of the list is the order in which [range] visits the entries.  Go
    leaves that order unspecified, and theorems about functions that take
    such a map hold for every list, hence for every order.
  - A send on the unbuffered channel [lastError] suspends the batcher
    goroutine until a receiver takes the value; a pass of the batcher is a
    resumable computation ([Res]) that stops there with the rest of the
    pass as a continuation.  A failed type assertion is a panic.
  - Logger calls are left out: they touch no state the sink reads back. *)

From Stdlib Require Import ZArith List String Ascii Bool Lia.
From Stdlib Require Import Floats.SpecFloat DecimalString.
From Stdlib Require Import Permutation.
Import ListNotations.

Local Open Scope string_scope.
Local Open Scope Z_scope.
Local Open Scope list_scope.

Set Implicit Arguments.

(* ------------------------------------------------------------------ *)
(** ** Go values used by the sink *)

(** [time.Time], as the instant it denotes: nanoseconds since the Unix
    epoch.  The zero [Time] is January 1, year 1, 00:00:00 UTC. *)
Definition time_Time := Z.

Definition zeroTime : time_Time := -62135596800 * 1000000000.

Definition IsZero (t : time_Time) : bool := t =? zeroTime.
Definition Before (t u : time_Time) : bool := t <? u.
Definition After (t u : time_Time) : bool := u <? t.
Definition Equal (t u : time_Time) : bool := t =? u.

(** [time.Unix(0, nsec)] *)
Definition time_Unix0 (nsec : Z) : time_Time := nsec.

(** The dynamic values a measurement row carries ([any]).  The payload of
  [AInt64] and [AInt32] stands for a value of that width; the sink does no
  arithmetic on it. *)
Inductive any : Type :=
| ANil
| ABool (b : bool)
| AInt32 (n : Z)
| AInt64 (n : Z)
| AFloat64 (f : spec_float)
| AString (s : string).

(** [v == nil] and [v == ""] on an interface value *)
Definition isNil (v : any) : bool :=
  match v with ANil => true | _ => false end.

Definition isEmptyString (v : any) : bool :=
  match v with AString s => String.eqb s "" | _ => false end.

(** [map[string]V] *)
Definition gomap (V : Type) := list (string * V).

Fixpoint mapGet {V} (m : gomap V) (k : string) : option V :=
  match m with
  | [] => None
  | (k', v) :: m' => if String.eqb k' k then Some v else mapGet m' k
  end.

(** [m[k] = v]: overwrite the entry when the key is there, add it
    otherwise *)
Fixpoint mapSet {V} (m : gomap V) (k : string) (v : V) : gomap V :=
  match m with
  | [] => [(k, v)]
  | (k', v') :: m' =>
      if String.eqb k' k then (k, v) :: m' else (k', v') :: mapSet m' k v
  end.

Definition len {A} (l : list A) : Z := Z.of_nat (List.length l).

(** [strings.HasPrefix], [strings.HasSuffix], [strings.Contains] *)
Definition strings_HasPrefix (s p : string) : bool := String.prefix p s.

Definition strings_HasSuffix (s suffix : string) : bool :=
  let n := String.length s in
  let m := String.length suffix in
  (m <=? n)%nat && String.eqb (String.substring (n - m) m s) suffix.

Fixpoint strings_Contains (s substr : string) : bool :=
  String.prefix substr s ||
  match s with
  | EmptyString => false
  | String _ s' => strings_Contains s' substr
  end.

(** [s[n:]] for [n <= len(s)] *)
Definition sliceFrom (n : nat) (s : string) : string :=
  String.substring n (String.length s - n) s.

(** [atomic.AddUint64(&c, 1)] *)
Definition uint64_max : Z := 2 ^ 64.
Definition AddUint64 (c delta : Z) : Z := (c + delta) mod uint64_max.

(* ------------------------------------------------------------------ *)
(** ** Errors *)

#[warnings="-register-all"]
Inductive error : Type :=
| DriverError (msg : string)
  (** an error handed back by the pool; [msg] is its [Error()] text *)
| ZeroBoundsError (metric : string) (StartTime EndTime : time_Time)
  (** [fmt.Errorf("zero StartTime/EndTime in partitioning request: [%s:%v]", metric, pb)] *)
| JoinError (errs : list error)
  (** [errors.Join] of the non-nil errors *).

Fixpoint nonNil (errs : list (option error)) : list error :=
  match errs with
  | [] => []
  | None :: r => nonNil r
  | Some e :: r => e :: nonNil r
  end.

(** [errors.Join(errs...)]: nil when every argument is nil *)
Definition errors_Join (errs : list (option error)) : option error :=
  match nonNil errs with
  | [] => None
  | l => Some (JoinError l)
  end.

(* ------------------------------------------------------------------ *)
(** ** The pool interface ([db.PgxIface], [db.PgxPoolIface]) *)

Record ExistingPartitionInfo : Type := mkPartInfo {
  StartTime : time_Time;
  EndTime : time_Time
}.

(** A row handed to [CopyFrom]: [{m.Time, m.DBName, string(jsonBytes), getTagData()}] *)
Record CopyRow : Type := mkCopyRow {
  col_time : time_Time;
  col_dbname : string;
  col_data : string;
  col_tag_data : option string
}.

Inductive Arg : Type :=
| ArgString (s : string)
| ArgTime (t : time_Time).

Inductive Call : Type :=
| CallExec (sql : string) (args : list Arg)
| CallQueryRow (sql : string) (args : list Arg)
| CallQuery (sql : string) (args : list Arg)
| CallCopyFrom (table : list string) (columns : list string) (rows : list CopyRow)
| CallClose.

(** What the driver answers: a value, or an error with its text. *)
Inductive reply (A : Type) : Type :=
| Ok (a : A)
| Err (msg : string).
Arguments Err {A} msg.

(** The methods the sink and the bootstrapper call, one field per method and
  destination type of [Scan]. *)
Record PgxPoolIface (W : Type) : Type := {
  Exec : string -> list Arg -> W -> W * option string;
  QueryRow_Scan_bool : string -> list Arg -> W -> W * reply bool;
  QueryRow_Scan_partInfo : string -> list Arg -> W -> W * reply ExistingPartitionInfo;
  QueryRow_Scan_time : string -> list Arg -> W -> W * reply time_Time;
  Query_CollectOneRow : string -> list Arg -> W -> W * reply ExistingPartitionInfo;
  CopyFrom : list string -> list string -> list CopyRow -> W -> W * option string;
  Close : W -> W
}.

(** A connection in use: the outside world and the log of calls made. *)
Record Conn (W : Type) : Type := mkConn {
  world : W;
  calls : list Call
}.

Definition asError (r : option string) : option error :=
  match r with
  | None => None
  | Some msg => Some (DriverError msg)
  end.

Section Pool.
Context {W : Type} (pool : PgxPoolIface W).

Definition conn_Exec (sql : string) (args : list Arg) (c : Conn W)
  : Conn W * option error :=
  let (w, r) := Exec pool sql args (world c) in
  (mkConn w (calls c ++ [CallExec sql args]), asError r).

Definition conn_QueryRow_bool (sql : string) (args : list Arg) (c : Conn W)
  : Conn W * reply bool :=
  let (w, r) := QueryRow_Scan_bool pool sql args (world c) in
  (mkConn w (calls c ++ [CallQueryRow sql args]), r).

Definition conn_QueryRow_partInfo (sql : string) (args : list Arg) (c : Conn W)
  : Conn W * reply ExistingPartitionInfo :=
  let (w, r) := QueryRow_Scan_partInfo pool sql args (world c) in
  (mkConn w (calls c ++ [CallQueryRow sql args]), r).

Definition conn_QueryRow_time (sql : string) (args : list Arg) (c : Conn W)
  : Conn W * reply time_Time :=
  let (w, r) := QueryRow_Scan_time pool sql args (world c) in
  (mkConn w (calls c ++ [CallQueryRow sql args]), r).

Definition conn_Query_CollectOneRow (sql : string) (args : list Arg) (c : Conn W)
  : Conn W * reply ExistingPartitionInfo :=
  let (w, r) := Query_CollectOneRow pool sql args (world c) in
  (mkConn w (calls c ++ [CallQuery sql args]), r).

Definition conn_CopyFrom (table columns : list string) (rows : list CopyRow)
    (c : Conn W) : Conn W * option string :=
  let (w, r) := CopyFrom pool table columns rows (world c) in
  (mkConn w (calls c ++ [CallCopyFrom table columns rows]), r).

Definition conn_Close (c : Conn W) : Conn W :=
  mkConn (Close pool (world c)) (calls c ++ [CallClose]).

End Pool.

(** A script executed as one statement without arguments. *)
Definition scriptCall (sql : string) : Call := CallExec sql [].

(* ------------------------------------------------------------------ *)
(** ** db/bootstrap.go *)

Module db.
Section Bootstrap.
Context {W : Type} (pool : PgxPoolIface W).

Definition sqlSchemaExists : string :=
  "SELECT EXISTS(SELECT 1 FROM pg_namespace WHERE nspname = $1)".

(** The loop of [executeSchemaScripts]: [for _, sql := range sqls]. *)
Fixpoint execScripts (sqls : list string) (c : Conn W) : Conn W * option error :=
  match sqls with
  | [] => (c, None)
  | sql :: rest =>
      let (c1, err) := conn_Exec pool sql [] c in
      match err with
      | Some e => (c1, Some e)
      | None => execScripts rest c1
      end
  end.

Definition executeSchemaScripts (schema : string) (sqls : list string)
    (c : Conn W) : Conn W * option error :=
  let (c1, r) := conn_QueryRow_bool pool sqlSchemaExists [ArgString schema] c in
  match r with
  | Err msg => (c1, Some (DriverError msg))
  | Ok true => (c1, None)
  | Ok false => execScripts sqls c1
  end.

(** The script texts ([sqlMetricAdminSchema] and the others) are embedded
  from SQL files; the two lists are parameters here. *)
Definition ExecuteConfigSchemaScripts (configSchemaSQLs : list string) :=
  executeSchemaScripts "pgwatch3" configSchemaSQLs.

Definition ExecuteMetricSchemaScripts (metricSchemaSQLs : list string) :=
  executeSchemaScripts "admin" metricSchemaSQLs.

(** The scripts of a list all run without error, taking the connection
  from [c] to [c']. *)
Inductive allSucceed : list string -> Conn W -> Conn W -> Prop :=
| allSucceed_nil : forall c, allSucceed [] c c
| allSucceed_cons : forall sql rest c c1 c2,
    conn_Exec pool sql [] c = (c1, None) ->
    allSucceed rest c1 c2 ->
    allSucceed (sql :: rest) c c2.

(** [InitAndTestMetricStoreConnection].  [acquire] stands for
  [retry.Do(ctx, backoff, ...)] around [GetPostgresDBConnection] and [Ping],
  the bounded-retry acquisition of the pool by the retry and pgx libraries.
  With an error from it the returned pool is nil. *)
Definition InitAndTestMetricStoreConnection
  (acquire : string -> W -> W * option string)
  (metricSchemaSQLs : list string) (connStr : string) (w : W)
  : (W * error) + (Conn W * option error) :=
  let (w1, r) := acquire connStr w in
  match r with
  | Some msg => inl (w1, DriverError msg)
  | None => inr (ExecuteMetricSchemaScripts metricSchemaSQLs (mkConn w1 []))
  end.

End Bootstrap.
End db.

(* ------------------------------------------------------------------ *)
(** ** metrics.MeasurementMessage

  The fields the sink reads.  A nil map or slice is the empty list.  The
  custom tags go through [fmt.Sprintf("%v", v)] like the tags of a row, so
  their values are kept as [any]. *)

Module metrics.

Record MeasurementMessage : Type := mkMessage {
  DBName : string;
  MetricName : string;
  Data : list (gomap any);
  CustomTags : gomap any
}.

End metrics.

(* ------------------------------------------------------------------ *)
(** ** sinks/postgres.go *)

Module sinks.

Definition cacheLimit : Z := 512.

Inductive DbStorageSchemaType : Type :=
| DbStorageSchemaPostgres
| DbStorageSchemaTimescale.

Record MeasurementMessagePostgres : Type := mkEntry {
  Time : time_Time;
  DBName : string;
  Metric : string;
  Data : gomap any;
  TagData : gomap any
}.

Definition epochColumnName : string := "epoch_ns".
Definition tagPrefix : string := "tag_".

(** The writer.  [Ctx_Err] is [pgw.Ctx.Err()].  [input] is the content of
  the buffered channel, oldest batch first.  [lastError] is the unbuffered
  channel: [Some e] while a sender is suspended in [pgw.lastError <- e],
  [None] otherwise. *)
Record PostgresWriter (W : Type) : Type := mkWriter {
  Ctx_Err : option error;
  SinkDb : Conn W;
  MetricSchema : DbStorageSchemaType;
  input : list (list metrics.MeasurementMessage);
  lastError : option error
}.

(** The package-level variables, with the two [uint64] counters the sink
  bumps through [atomic.AddUint64]. *)
Record Globals : Type := mkGlobals {
  forceRecreatePGMetricPartitions : bool;
  partitionMapMetric : gomap ExistingPartitionInfo;
  partitionMapMetricDbname : gomap (gomap ExistingPartitionInfo);
  datastoreWriteFailuresCounter : Z;
  totalMetricsDroppedCounter : Z
}.

Record State (W : Type) : Type := mkState {
  pgw : PostgresWriter W;
  vars : Globals
}.

(** The locals of [write] that outlive the first loop. *)
Record Batch : Type := mkBatch {
  metricsToStorePerMetric : gomap (list MeasurementMessagePostgres);
  rowsBatched : Z;
  totalRows : Z;
  pgPartBounds : gomap ExistingPartitionInfo;
  pgPartBoundsDbName : gomap (gomap ExistingPartitionInfo)
}.

Definition emptyBatch : Batch := mkBatch [] 0 0 [] [].

(** How a pass of the batcher goroutine ends: it returns, it panics, or it
  is suspended in a send on [lastError]; [k] is the rest of the pass, run
  from the state in which a receiver has taken the value. *)
Inductive Res (S : Type) : Type :=
| Done (s : S)
| Panicked (reason : string)
| Parked (s : S) (e : error) (k : S -> Res S).
Arguments Panicked {S} reason.

(** A value, or a panic of the goroutine. *)
Inductive panics (A : Type) : Type :=
| Normal (a : A)
| Panic (reason : string).
Arguments Panic {A} reason.

(** What the environment provides besides the pool. *)
Record Env (W : Type) : Type := mkEnv {
  pool : PgxPoolIface W;
  time_Now : W -> W * time_Time;
  json_Marshal : gomap any -> reply string;
  Sprintf_v : any -> string;
  acquire : string -> W -> W * option string;
  metricSchemaSQLs : list string
}.

Section Updates.
Context {W : Type}.

Definition with_SinkDb (c : Conn W) (s : State W) : State W :=
  let p := pgw s in
  mkState (mkWriter (Ctx_Err p) c (MetricSchema p) (input p) (lastError p)) (vars s).

Definition with_MetricSchema (t : DbStorageSchemaType) (s : State W) : State W :=
  let p := pgw s in
  mkState (mkWriter (Ctx_Err p) (SinkDb p) t (input p) (lastError p)) (vars s).

Definition with_input (q : list (list metrics.MeasurementMessage)) (s : State W)
  : State W :=
  let p := pgw s in
  mkState (mkWriter (Ctx_Err p) (SinkDb p) (MetricSchema p) q (lastError p)) (vars s).

Definition with_lastError (e : option error) (s : State W) : State W :=
  let p := pgw s in
  mkState (mkWriter (Ctx_Err p) (SinkDb p) (MetricSchema p) (input p) e) (vars s).

Definition with_vars (g : Globals) (s : State W) : State W :=
  mkState (pgw s) g.

Definition with_force (b : bool) (s : State W) : State W :=
  let g := vars s in
  with_vars (mkGlobals b (partitionMapMetric g) (partitionMapMetricDbname g)
               (datastoreWriteFailuresCounter g) (totalMetricsDroppedCounter g)) s.

Definition with_partitionMapMetric (m : gomap ExistingPartitionInfo) (s : State W)
  : State W :=
  let g := vars s in
  with_vars (mkGlobals (forceRecreatePGMetricPartitions g) m
               (partitionMapMetricDbname g)
               (datastoreWriteFailuresCounter g) (totalMetricsDroppedCounter g)) s.

Definition with_partitionMapMetricDbname (m : gomap (gomap ExistingPartitionInfo))
  (s : State W) : State W :=
  let g := vars s in
  with_vars (mkGlobals (forceRecreatePGMetricPartitions g) (partitionMapMetric g) m
               (datastoreWriteFailuresCounter g) (totalMetricsDroppedCounter g)) s.

(** [atomic.AddUint64(&datastoreWriteFailuresCounter, 1)] *)
Definition incWriteFailures (s : State W) : State W :=
  let g := vars s in
  with_vars (mkGlobals (forceRecreatePGMetricPartitions g) (partitionMapMetric g)
               (partitionMapMetricDbname g)
               (AddUint64 (datastoreWriteFailuresCounter g) 1)
               (totalMetricsDroppedCounter g)) s.

(** [atomic.AddUint64(&totalMetricsDroppedCounter, 1)] *)
Definition incMetricsDropped (s : State W) : State W :=
  let g := vars s in
  with_vars (mkGlobals (forceRecreatePGMetricPartitions g) (partitionMapMetric g)
               (partitionMapMetricDbname g)
               (datastoreWriteFailuresCounter g)
               (AddUint64 (totalMetricsDroppedCounter g) 1)) s.

End Updates.

Section Writer.
Context {W : Type} (env : Env W).

(** *** Calls on [pgw.SinkDb] *)

Definition sink_Exec (sql : string) (args : list Arg) (s : State W)
  : State W * option error :=
  let (c, r) := conn_Exec (pool env) sql args (SinkDb (pgw s)) in
  (with_SinkDb c s, r).

Definition sink_QueryRow_bool (sql : string) (args : list Arg) (s : State W)
  : State W * reply bool :=
  let (c, r) := conn_QueryRow_bool (pool env) sql args (SinkDb (pgw s)) in
  (with_SinkDb c s, r).

Definition sink_QueryRow_partInfo (sql : string) (args : list Arg) (s : State W)
  : State W * reply ExistingPartitionInfo :=
  let (c, r) := conn_QueryRow_partInfo (pool env) sql args (SinkDb (pgw s)) in
  (with_SinkDb c s, r).

Definition sink_QueryRow_time (sql : string) (args : list Arg) (s : State W)
  : State W * reply time_Time :=
  let (c, r) := conn_QueryRow_time (pool env) sql args (SinkDb (pgw s)) in
  (with_SinkDb c s, r).

Definition sink_Query_CollectOneRow (sql : string) (args : list Arg) (s : State W)
  : State W * reply ExistingPartitionInfo :=
  let (c, r) := conn_Query_CollectOneRow (pool env) sql args (SinkDb (pgw s)) in
  (with_SinkDb c s, r).

Definition sink_CopyFrom (table columns : list string) (rows : list CopyRow)
  (s : State W) : State W * option string :=
  let (c, r) := conn_CopyFrom (pool env) table columns rows (SinkDb (pgw s)) in
  (with_SinkDb c s, r).

(** [time.Now()] *)
Definition now (s : State W) : State W * time_Time :=
  let c := SinkDb (pgw s) in
  let (w, t) := time_Now env (world c) in
  (with_SinkDb (mkConn w (calls c)) s, t).

(** *** Construction *)

Definition sqlSchemaType : string :=
  "SELECT schema_type = 'timescale' FROM admin.storage_schema_type".

Definition ReadMetricSchemaType (s : State W) : State W * option error :=
  let s0 := with_MetricSchema DbStorageSchemaPostgres s in
  let (s1, r) := sink_QueryRow_bool sqlSchemaType [] s0 in
  match r with
  | Ok true => (with_MetricSchema DbStorageSchemaTimescale s1, None)
  | Ok false => (s1, None)
  | Err msg => (s1, Some (DriverError msg))
  end.

Definition EnsureMetricDummy (metric : string) (s : State W)
  : State W * option error :=
  sink_Exec "select admin.ensure_dummy_metrics_table($1)" [ArgString metric] s.

Definition builtinMetricNames : list string :=
  ["sproc_changes"; "table_changes"; "index_changes"; "privilege_changes";
   "object_changes"; "configuration_changes"].

(** The loop of [EnsureBuiltinMetricDummies]:
  [err = errors.Join(err, pgw.EnsureMetricDummy(name))]. *)
Fixpoint ensureDummies (names : list string) (err : option error) (s : State W)
  : State W * option error :=
  match names with
  | [] => (s, err)
  | name :: rest =>
      let (s1, e) := EnsureMetricDummy name s in
      ensureDummies rest (errors_Join [err; e]) s1
  end.

Definition EnsureBuiltinMetricDummies (s : State W) : State W * option error :=
  ensureDummies builtinMetricNames None s.

(** The goroutines [NewPostgresWriter] starts. *)
Inductive Task : Type :=
| OldPostgresMetricsDeleter
| UniqueDbnamesListingMaintainer
| poll.

(** What [NewPostgresWriter] hands back: [(pgw, err)] with a nil pool, with
  a pool and an error, or the running writer with its goroutines. *)
Inductive NewResult : Type :=
| NoPool (w : W) (err : error)
| Failed (s : State W) (err : error)
| Started (s : State W) (tasks : list Task).

Definition NewPostgresWriter (ctxErr : option error) (connstr : string)
  (g : Globals) (w : W) : NewResult :=
  match db.InitAndTestMetricStoreConnection (pool env) (acquire env)
          (metricSchemaSQLs env) connstr w with
  | inl (w1, err) => NoPool w1 err
  | inr (c, Some err) =>
      Failed (mkState (mkWriter ctxErr c DbStorageSchemaPostgres [] None) g) err
  | inr (c, None) =>
      let s := mkState (mkWriter ctxErr c DbStorageSchemaPostgres [] None) g in
      let (s1, err) := ReadMetricSchemaType s in
      match err with
      | Some e => Failed (with_SinkDb (conn_Close (pool env) (SinkDb (pgw s1))) s1) e
      | None =>
          let (s2, err2) := EnsureBuiltinMetricDummies s1 in
          match err2 with
          | Some e => Failed s2 e
          | None =>
              Started s2 [OldPostgresMetricsDeleter; UniqueDbnamesListingMaintainer; poll]
          end
      end
  end.

(** *** The entry point [Write]

  The first [select] either puts the batch on [input] or gives up after
  [highLoadTimeout].  With room in the buffer the send is ready at once.
  With a full buffer the outcome is the batcher's doing:
  [batcherReceives] says whether it takes the oldest batch off the channel
  before the timeout. *)
Definition enqueue (batcherReceives : bool) (msgs : list metrics.MeasurementMessage)
  (s : State W) : State W :=
  let q := input (pgw s) in
  if len q <? cacheLimit then with_input (q ++ [msgs]) s
  else if batcherReceives then with_input (tl q ++ [msgs]) s
  else s.

Definition Write (batcherReceives : bool) (msgs : list metrics.MeasurementMessage)
  (s : State W) : State W * option error :=
  match Ctx_Err (pgw s) with
  | Some _ => (s, None)
  | None =>
      let s1 := enqueue batcherReceives msgs s in
      match lastError (pgw s1) with
      | Some err => (with_lastError None s1, Some err)
      | None => (s1, None)
      end
  end.

(** [pgw.lastError <- err] on the unbuffered channel.  The only receive on
  [lastError] is the one in [Write], inside a [select] with a [default]: no
  receiver ever waits for a sender.  So the send always suspends the
  goroutine, with the value on offer; [k] runs once a call of [Write] has
  taken it. *)
Definition send (err : error) (s : State W) (k : State W -> Res (State W))
  : Res (State W) :=
  Parked (with_lastError (Some err) s) err k.

(** The pass goes on once the receive in [Write] has taken the value. *)
Definition resume (r : Res (State W)) : Res (State W) :=
  match r with
  | Parked s _ k => k (with_lastError None s)
  | _ => r
  end.

(** *** [write]: the first loop, from measurement rows to entries *)

Definition typeName (v : any) : string :=
  match v with
  | ANil => "nil"
  | ABool _ => "bool"
  | AInt32 _ => "int32"
  | AInt64 _ => "int64"
  | AFloat64 _ => "float64"
  | AString _ => "string"
  end.

(** [v.(int64)], the unchecked assertion *)
Definition assertInt64 (v : any) : panics Z :=
  match v with
  | AInt64 n => Normal n
  | _ =>
      Panic ("interface conversion: interface {} is " ++ typeName v
               ++ ", not int64")%string
  end.

Record RowScan : Type := mkRowScan {
  epochNs : Z;
  tags : gomap any;
  fields : gomap any
}.

(** [for k, v := range msg.CustomTags { tags[k] = fmt.Sprintf("%v", v) }] *)
Fixpoint copyCustomTags (customTags : gomap any) (tags : gomap any) : gomap any :=
  match customTags with
  | [] => tags
  | (k, v) :: rest =>
      copyCustomTags rest (mapSet tags k (AString (Sprintf_v env v)))
  end.

(** [for k, v := range dataRow { ... }] *)
Fixpoint scanRow (dataRow : gomap any) (r : RowScan) : panics RowScan :=
  match dataRow with
  | [] => Normal r
  | (k, v) :: rest =>
      if isNil v || isEmptyString v then scanRow rest r
      else if String.eqb k epochColumnName then
        match assertInt64 v with
        | Panic why => Panic why
        | Normal n => scanRow rest (mkRowScan n (tags r) (fields r))
        end
      else if strings_HasPrefix k tagPrefix then
        scanRow rest
          (mkRowScan (epochNs r)
             (mapSet (tags r) (sliceFrom 4 k) (AString (Sprintf_v env v)))
             (fields r))
      else
        scanRow rest (mkRowScan (epochNs r) (tags r) (mapSet (fields r) k v))
  end.

(** The min/max update of one bounds entry:
  [bounds, ok := m[key]] and the two [if !ok || (ok && ...)] blocks. *)
Definition widen (m : gomap ExistingPartitionInfo) (key : string)
  (epochTime : time_Time) : gomap ExistingPartitionInfo :=
  let ok := match mapGet m key with Some _ => true | None => false end in
  let bounds :=
    match mapGet m key with
    | Some b => b
    | None => mkPartInfo zeroTime zeroTime
    end in
  let (bounds1, m1) :=
    if negb ok || (ok && Before epochTime (StartTime bounds)) then
      let b := mkPartInfo epochTime (EndTime bounds) in (b, mapSet m key b)
    else (bounds, m) in
  let (bounds2, m2) :=
    if negb ok || (ok && After epochTime (EndTime bounds1)) then
      let b := mkPartInfo (StartTime bounds1) epochTime in (b, mapSet m1 key b)
    else (bounds1, m1) in
  m2.

(** The same on [pgPartBoundsDbName[metric][dbname]], the inner map being
  made on first use. *)
Definition widenDbName (m : gomap (gomap ExistingPartitionInfo))
  (metric dbname : string) (epochTime : time_Time)
  : gomap (gomap ExistingPartitionInfo) :=
  let m0 := match mapGet m metric with Some _ => m | None => mapSet m metric [] end in
  let inner := match mapGet m0 metric with Some i => i | None => [] end in
  mapSet m0 metric (widen inner dbname epochTime).

(** The body of [for _, dataRow := range msg.Data]. *)
Definition processRow (msg : metrics.MeasurementMessage) (dataRow : gomap any)
  (sb : State W * Batch) : panics (State W * Batch) :=
  let (s, b) := sb in
  let tags0 := copyCustomTags (metrics.CustomTags msg) [] in
  match scanRow dataRow (mkRowScan 0 tags0 []) with
  | Panic why => Panic why
  | Normal r =>
      let (s1, epochTime) :=
        if epochNs r =? 0 then now s else (s, time_Unix0 (epochNs r)) in
      let name := metrics.MetricName msg in
      let metricsArr :=
        match mapGet (metricsToStorePerMetric b) name with
        | Some a => a
        | None => []
        end in
      let entry :=
        mkEntry epochTime (metrics.DBName msg) name (fields r) (tags r) in
      let store :=
        mapSet (metricsToStorePerMetric b) name (metricsArr ++ [entry]) in
      match MetricSchema (pgw s) with
      | DbStorageSchemaTimescale =>
          Normal (s1, mkBatch store (rowsBatched b + 1) (totalRows b + 1)
                        (widen (pgPartBounds b) name epochTime)
                        (pgPartBoundsDbName b))
      | DbStorageSchemaPostgres =>
          Normal (s1, mkBatch store (rowsBatched b + 1) (totalRows b + 1)
                        (pgPartBounds b)
                        (widenDbName (pgPartBoundsDbName b) name
                           (metrics.DBName msg) epochTime))
      end
  end.

Fixpoint processRows (msg : metrics.MeasurementMessage) (rows : list (gomap any))
  (sb : State W * Batch) : panics (State W * Batch) :=
  match rows with
  | [] => Normal sb
  | dataRow :: rest =>
      match processRow msg dataRow sb with
      | Panic why => Panic why
      | Normal sb1 => processRows msg rest sb1
      end
  end.

(** [for _, msg := range msgs], with the [continue] on a message without
  rows. *)
Fixpoint processMsgs (msgs : list metrics.MeasurementMessage)
  (sb : State W * Batch) : panics (State W * Batch) :=
  match msgs with
  | [] => Normal sb
  | msg :: rest =>
      match metrics.Data msg with
      | [] => processMsgs rest sb
      | rows =>
          match processRows msg rows sb with
          | Panic why => Panic why
          | Normal sb1 => processMsgs rest sb1
          end
      end
  end.

(** *** The partition manager *)

Definition zeroPartInfo : ExistingPartitionInfo := mkPartInfo zeroTime zeroTime.

Definition sqlEnsureDbnameTime : string :=
  "select * from admin.ensure_partition_metric_dbname_time($1, $2, $3)".

(** [partitionMapMetricDbname[metric][dbname]] with its [ok] *)
Definition cachedDbname (s : State W) (metric dbname : string)
  : option ExistingPartitionInfo :=
  match mapGet (partitionMapMetricDbname (vars s)) metric with
  | Some inner => mapGet inner dbname
  | None => None
  end.

(** [partitionMapMetricDbname[metric][dbname] = partInfo] *)
Definition cacheDbname (metric dbname : string) (partInfo : ExistingPartitionInfo)
  (s : State W) : State W :=
  let m := partitionMapMetricDbname (vars s) in
  let inner := match mapGet m metric with Some i => i | None => [] end in
  with_partitionMapMetricDbname (mapSet m metric (mapSet inner dbname partInfo)) s.

(** The first [if] of the inner loop of [EnsureMetricDbnameTime]: the
  entry as known after it, or the error returned. *)
Definition ensureDbnameStart (metric dbname : string) (pb : ExistingPartitionInfo)
  (force : bool) (s : State W) : State W * (ExistingPartitionInfo + error) :=
  let ok := match cachedDbname s metric dbname with Some _ => true | None => false end in
  let partInfo :=
    match cachedDbname s metric dbname with
    | Some i => i
    | None => zeroPartInfo
    end in
  if negb ok || (ok && Before (StartTime pb) (StartTime partInfo)) || force then
    let (s1, r) :=
      sink_Query_CollectOneRow sqlEnsureDbnameTime
        [ArgString metric; ArgString dbname; ArgTime (StartTime pb)] s in
    match r with
    | Err msg => (s1, inr (DriverError msg))
    | Ok info => (cacheDbname metric dbname info s1, inl info)
    end
  else (s, inl partInfo).

(** The second [if] of that loop. *)
Definition ensureDbnameEnd (metric dbname : string) (pb : ExistingPartitionInfo)
  (force : bool) (partInfo : ExistingPartitionInfo) (s : State W)
  : State W * option error :=
  if After (EndTime pb) (EndTime partInfo) || Equal (EndTime pb) (EndTime partInfo)
     || force then
    let (s1, r) :=
      sink_Query_CollectOneRow sqlEnsureDbnameTime
        [ArgString metric; ArgString dbname; ArgTime (StartTime pb)] s in
    match r with
    | Err msg => (s1, Some (DriverError msg))
    | Ok info => (cacheDbname metric dbname info s1, None)
    end
  else (s, None).

(** The body of [for dbname, pb := range dbnameTimestampMap]. *)
Definition ensureDbnameEntry (metric dbname : string) (pb : ExistingPartitionInfo)
  (force : bool) (s : State W) : State W * option error :=
  if IsZero (StartTime pb) || IsZero (EndTime pb) then
    (s, Some (ZeroBoundsError metric (StartTime pb) (EndTime pb)))
  else
    match ensureDbnameStart metric dbname pb force s with
    | (s1, inr e) => (s1, Some e)
    | (s1, inl partInfo) => ensureDbnameEnd metric dbname pb force partInfo s1
    end.

Fixpoint ensureDbnames (metric : string) (dbnameTimestampMap : gomap ExistingPartitionInfo)
  (force : bool) (s : State W) : State W * option error :=
  match dbnameTimestampMap with
  | [] => (s, None)
  | (dbname, pb) :: rest =>
      match ensureDbnameEntry metric dbname pb force s with
      | (s1, Some e) => (s1, Some e)
      | (s1, None) => ensureDbnames metric rest force s1
      end
  end.

Fixpoint EnsureMetricDbnameTime
  (metricDbnamePartBounds : gomap (gomap ExistingPartitionInfo)) (force : bool)
  (s : State W) : State W * option error :=
  match metricDbnamePartBounds with
  | [] => (s, None)
  | (metric, dbnameTimestampMap) :: rest =>
      let s0 :=
        match mapGet (partitionMapMetricDbname (vars s)) metric with
        | Some _ => s
        | None =>
            with_partitionMapMetricDbname
              (mapSet (partitionMapMetricDbname (vars s)) metric []) s
        end in
      match ensureDbnames metric dbnameTimestampMap force s0 with
      | (s1, Some e) => (s1, Some e)
      | (s1, None) => EnsureMetricDbnameTime rest force s1
      end
  end.

Definition sqlEnsureMetricTime : string :=
  "select * from admin.ensure_partition_metric_time($1, $2)".

(** The body of the loop of [EnsureMetricTime]. *)
Definition ensureTimeEntry (metric : string) (pb : ExistingPartitionInfo)
  (force : bool) (s : State W) : State W * option error :=
  if negb (strings_HasSuffix metric "_realtime") then (s, None)
  else if IsZero (StartTime pb) || IsZero (EndTime pb) then
    (s, Some (ZeroBoundsError metric (StartTime pb) (EndTime pb)))
  else
    let cached := mapGet (partitionMapMetric (vars s)) metric in
    let ok := match cached with Some _ => true | None => false end in
    let partInfo := match cached with Some i => i | None => zeroPartInfo end in
    let '(s1, r1) :=
      if negb ok || (ok && Before (StartTime pb) (StartTime partInfo)) || force then
        let (s', r) :=
          sink_QueryRow_partInfo sqlEnsureMetricTime
            [ArgString metric; ArgTime (StartTime pb)] s in
        match r with
        | Err msg => (s', inr (DriverError msg))
        | Ok info =>
            (with_partitionMapMetric
               (mapSet (partitionMapMetric (vars s')) metric info) s', inl info)
        end
      else (s, inl partInfo) in
    match r1 with
    | inr e => (s1, Some e)
    | inl partInfo1 =>
        if After (EndTime pb) (EndTime partInfo1) || force then
          let (s2, r) :=
            sink_QueryRow_time sqlEnsureMetricTime
              [ArgString metric; ArgTime (EndTime pb)] s1 in
          match r with
          | Err msg => (s2, Some (DriverError msg))
          | Ok t =>
              (with_partitionMapMetric
                 (mapSet (partitionMapMetric (vars s2)) metric
                    (mkPartInfo (StartTime partInfo1) t)) s2, None)
          end
        else (s1, None)
    end.

Fixpoint EnsureMetricTime (pgPartBounds : gomap ExistingPartitionInfo) (force : bool)
  (s : State W) : State W * option error :=
  match pgPartBounds with
  | [] => (s, None)
  | (metric, pb) :: rest =>
      match ensureTimeEntry metric pb force s with
      | (s1, Some e) => (s1, Some e)
      | (s1, None) => EnsureMetricTime rest force s1
      end
  end.

Definition sqlEnsureTimescale : string :=
  "select * from admin.ensure_partition_timescale($1)".

(** The first loop of [EnsureMetricTimescale]. *)
Fixpoint ensureTimescaleTables (pgPartBounds : gomap ExistingPartitionInfo)
  (s : State W) : State W * option error :=
  match pgPartBounds with
  | [] => (s, None)
  | (metric, _) :: rest =>
      if strings_HasSuffix metric "_realtime" then ensureTimescaleTables rest s
      else
        match mapGet (partitionMapMetric (vars s)) metric with
        | Some _ => ensureTimescaleTables rest s
        | None =>
            let (s1, err) := sink_Exec sqlEnsureTimescale [ArgString metric] s in
            match err with
            | Some e => (s1, Some e)
            | None =>
                ensureTimescaleTables rest
                  (with_partitionMapMetric
                     (mapSet (partitionMapMetric (vars s1)) metric zeroPartInfo) s1)
            end
        end
  end.

Definition EnsureMetricTimescale (pgPartBounds : gomap ExistingPartitionInfo)
  (force : bool) (s : State W) : State W * option error :=
  match ensureTimescaleTables pgPartBounds s with
  | (s1, Some e) => (s1, Some e)
  | (s1, None) => EnsureMetricTime pgPartBounds force s1
  end.

(** *** [write]: the copy loop *)

Definition targetColumns : list string := ["time"; "dbname"; "data"; "tag_data"].

(** The closure [getTagData] *)
Definition getTagData (m : MeasurementMessagePostgres) (s : State W)
  : State W * option string :=
  if 0 <? len (TagData m) then
    match json_Marshal env (TagData m) with
    | Err _ => (incWriteFailures s, None)
    | Ok jsonBytesTags => (s, Some jsonBytesTags)
    end
  else (s, None).

(** The body of [for _, m := range metrics]. *)
Definition copyOne (metricName : string) (m : MeasurementMessagePostgres)
  (s : State W) : State W :=
  match json_Marshal env (Data m) with
  | Err _ => incMetricsDropped s
  | Ok jsonBytes =>
      let (s1, tagData) := getTagData m s in
      let rows := [mkCopyRow (Time m) (DBName m) jsonBytes tagData] in
      let (s2, r) := sink_CopyFrom [metricName] targetColumns rows s1 in
      match r with
      | None => s2
      | Some msg =>
          with_force (strings_Contains msg "no partition") (incWriteFailures s2)
      end
  end.

Fixpoint copyRows (metricName : string) (ms : list MeasurementMessagePostgres)
  (s : State W) : State W :=
  match ms with
  | [] => s
  | m :: rest => copyRows metricName rest (copyOne metricName m s)
  end.

(** [for metricName, metrics := range metricsToStorePerMetric] *)
Fixpoint copyMetrics (store : gomap (list MeasurementMessagePostgres))
  (s : State W) : State W :=
  match store with
  | [] => s
  | (metricName, ms) :: rest => copyMetrics rest (copyRows metricName ms s)
  end.

(** *** [write]: from the partition-ensure step to the end *)

Definition ensureStep (b : Batch) (s : State W) : State W * option error :=
  let force := forceRecreatePGMetricPartitions (vars s) in
  match MetricSchema (pgw s) with
  | DbStorageSchemaPostgres => EnsureMetricDbnameTime (pgPartBoundsDbName b) force s
  | DbStorageSchemaTimescale => EnsureMetricTimescale (pgPartBounds b) force s
  end.

(** The state in which the copy loop starts when the ensure step went
  through the flag reset (and, with an error, the counter). *)
Definition afterEnsure (err : option error) (s : State W) : State W :=
  let s1 :=
    if forceRecreatePGMetricPartitions (vars s) then with_force false s else s in
  match err with
  | Some _ => incWriteFailures s1
  | None => s1
  end.

Definition flush (b : Batch) (s : State W) : Res (State W) :=
  let (s1, err) := ensureStep b s in
  let s2 := afterEnsure err s1 in
  match err with
  | Some e =>
      send e s2 (fun s3 =>
        send e (copyMetrics (metricsToStorePerMetric b) s3) (fun s4 => Done s4))
  | None => Done (copyMetrics (metricsToStorePerMetric b) s2)
  end.

Definition write (msgs : list metrics.MeasurementMessage) (s : State W)
  : Res (State W) :=
  match msgs with
  | [] => Done s
  | _ =>
      match processMsgs msgs (s, emptyBatch) with
      | Panic why => Panicked why
      | Normal (s1, b) => flush b s1
      end
  end.

(** *** [SyncMetric] and the listing table *)

Definition sqlAddDBUniqueMetric : string :=
  "insert into admin.all_distinct_dbname_metrics
			select $1, $2
			where not exists (
				select * from admin.all_distinct_dbname_metrics where dbname = $1 and metric = $2
			)".

Definition AddDBUniqueMetricToListingTable (dbUnique metric : string)
  (s : State W) : State W * option error :=
  sink_Exec sqlAddDBUniqueMetric [ArgString dbUnique; ArgString metric] s.

(** The two arguments of [errors.Join] are evaluated left to right. *)
Definition SyncMetric (dbUnique metricName op : string) (s : State W)
  : State W * option error :=
  if String.eqb op "add" then
    let (s1, e1) := AddDBUniqueMetricToListingTable dbUnique metricName s in
    let (s2, e2) := EnsureMetricDummy metricName s1 in
    (s2, errors_Join [e1; e2])
  else (s, None).

(** *** [EnsureMetric], the variant without time *)

Definition sqlEnsureMetric : string :=
  "select * from admin.ensure_partition_metric($1)".

Fixpoint EnsureMetric (pgPartBounds : gomap ExistingPartitionInfo) (force : bool)
  (s : State W) : State W * option error :=
  match pgPartBounds with
  | [] => (s, None)
  | (metric, _) :: rest =>
      let ok :=
        match mapGet (partitionMapMetric (vars s)) metric with
        | Some _ => true
        | None => false
        end in
      if negb ok || force then
        let (s1, err) := sink_Exec sqlEnsureMetric [ArgString metric] s in
        match err with
        | Some e => (s1, Some e)
        | None =>
            EnsureMetric rest force
              (with_partitionMapMetric
                 (mapSet (partitionMapMetric (vars s1)) metric zeroPartInfo) s1)
        end
      else EnsureMetric rest force s
  end.

(** *** The batcher loop [poll]

  Which case the inner [select] takes is the environment's choice. *)
Inductive Ready : Type :=
| InputReady
| TickReady
| DoneReady.

(** One turn of the loop: [poll] returns, or it goes on with the buffer
  [cache'] once the pass [r] of [write] is over.  [handed] is the buffer
  the turn handed to [write], if it called it. *)
Inductive Turn : Type :=
| Returns
| Continues (handed : option (list metrics.MeasurementMessage))
    (r : Res (State W)) (cache' : list metrics.MeasurementMessage).

(** The body of the [for] of [poll].  The outer [select] returns when the
  context is done.  [InputReady] takes the oldest batch off [input]; with an
  empty channel that case is not ready and the turn changes nothing. *)
Definition pollTurn (ready : Ready) (cache : list metrics.MeasurementMessage)
  (s : State W) : Turn :=
  match Ctx_Err (pgw s) with
  | Some _ => Returns
  | None =>
      match ready with
      | DoneReady => Returns
      | TickReady => Continues (Some cache) (write cache s) []
      | InputReady =>
          match input (pgw s) with
          | [] => Continues None (Done s) cache
          | entry :: q =>
              let s1 := with_input q s in
              let cache1 := cache ++ entry in
              if len cache1 <? cacheLimit then Continues None (Done s1) cache1
              else Continues (Some cache1) (write cache1 s1) []
          end
      end
  end.

(** How a run of turns ends: out of choices, [poll] returned, or a pass of
  [write] did not return. *)
Inductive RunEnd : Type :=
| Waiting (cache : list metrics.MeasurementMessage) (s : State W)
| Returned (cache : list metrics.MeasurementMessage) (s : State W)
| Stopped (r : Res (State W)).

Definition noteHanded (handed : option (list metrics.MeasurementMessage))
  (written : list (list metrics.MeasurementMessage))
  : list (list metrics.MeasurementMessage) :=
  match handed with
  | Some buffer => written ++ [buffer]
  | None => written
  end.

(** A run of [poll] over the given choices, for as long as the passes of
  [write] return.  [written] collects the buffers handed to [write], oldest
  first. *)
Fixpoint pollRun (readys : list Ready) (cache : list metrics.MeasurementMessage)
  (s : State W) (written : list (list metrics.MeasurementMessage))
  : RunEnd * list (list metrics.MeasurementMessage) :=
  match readys with
  | [] => (Waiting cache s, written)
  | ready :: rest =>
      match pollTurn ready cache s with
      | Returns => (Returned cache s, written)
      | Continues handed (Done s1) cache' =>
          pollRun rest cache' s1 (noteHanded handed written)
      | Continues handed r _ => (Stopped r, noteHanded handed written)
      end
  end.

End Writer.

(** *** Vocabulary for the statements *)

(** The state a pass returns with, if it returns. *)
Definition returned {S : Type} (r : Res S) : option S :=
  match r with
  | Done s => Some s
  | _ => None
  end.

(** The state in which a pass is suspended on [lastError], with the value
  on offer. *)
Definition parked {S : Type} (r : Res S) : option (S * error) :=
  match r with
  | Parked s e _ => Some (s, e)
  | _ => None
  end.

(** [P] holds wherever the pass stops, provided it holds of the state the
  pass is resumed from. *)
Inductive ResAll {S : Type} (P : S -> Prop) : Res S -> Prop :=
| ResAll_Done : forall s, P s -> ResAll P (Done s)
| ResAll_Panicked : forall reason, ResAll P (Panicked reason)
| ResAll_Parked : forall s e k,
    P s -> (forall s', P s' -> ResAll P (k s')) -> ResAll P (Parked s e k).

(** A field that [write] does not store: its value is nil or the empty
  string. *)
Definition nullOrEmpty (kv : string * any) : bool :=
  isNil (snd kv) || isEmptyString (snd kv).

Definition hasZeroBound (pb : ExistingPartitionInfo) : bool :=
  IsZero (StartTime pb) || IsZero (EndTime pb).

(** The bounds of a flush hold a zero timestamp where the partition manager
  of the given mode looks at them. *)
Inductive zeroBoundIn (b : Batch) : DbStorageSchemaType -> Prop :=
| zeroBound_plain : forall metric dbnameTimestampMap dbname pb,
    In (metric, dbnameTimestampMap) (pgPartBoundsDbName b) ->
    In (dbname, pb) dbnameTimestampMap ->
    hasZeroBound pb = true ->
    zeroBoundIn b DbStorageSchemaPostgres
| zeroBound_realtime : forall metric pb,
    In (metric, pb) (pgPartBounds b) ->
    strings_HasSuffix metric "_realtime" = true ->
    hasZeroBound pb = true ->
    zeroBoundIn b DbStorageSchemaTimescale.

Definition callsOf {W : Type} (s : State W) : list Call := calls (SinkDb (pgw s)).

Definition schemaOf {W : Type} (s : State W) : DbStorageSchemaType :=
  MetricSchema (pgw s).

(** The error [NewPostgresWriter] returns, nil when the writer is started. *)
Definition constructionError {W : Type} (r : @NewResult W) : option error :=
  match r with
  | NoPool _ err => Some err
  | Failed _ err => Some err
  | Started _ _ => None
  end.

(** What a finished pass leaves behind: the flag, the failure counter and
  the calls made. *)
Definition outcome {W : Type} (r : Res (State W))
  : option (bool * Z * list Call) :=
  match r with
  | Done s =>
      Some (forceRecreatePGMetricPartitions (vars s),
            datastoreWriteFailuresCounter (vars s), callsOf s)
  | _ => None
  end.

(** The number of rows a batch carries, and the number of entries held for
  the copy loop. *)
Fixpoint rowCount (msgs : list metrics.MeasurementMessage) : Z :=
  match msgs with
  | [] => 0
  | msg :: rest => len (metrics.Data msg) + rowCount rest
  end.

Fixpoint entryCount (store : gomap (list MeasurementMessagePostgres)) : Z :=
  match store with
  | [] => 0
  | (_, ms) :: rest => len ms + entryCount rest
  end.

(** The value of an [epoch_ns] field can go through [v.(int64)], or the
  field is skipped before it gets there. *)
Definition epochFieldOk (kv : string * any) : bool :=
  negb (String.eqb (fst kv) epochColumnName) ||
  match snd kv with
  | ANil => true
  | AInt64 _ => true
  | AString s => String.eqb s ""
  | _ => false
  end.

Definition epochsOk (msgs : list metrics.MeasurementMessage) : bool :=
  forallb (fun msg => forallb (forallb epochFieldOk) (metrics.Data msg)) msgs.

Definition isStringValue (kv : string * any) : bool :=
  match snd kv with
  | AString _ => true
  | _ => false
  end.

(** A field that belongs in the payload of a stored row: it has a value, and
  its name is neither the epoch column nor a tag column. *)
Definition payloadField (kv : string * any) : bool :=
  negb (nullOrEmpty kv) &&
  negb (String.eqb (fst kv) epochColumnName) &&
  negb (strings_HasPrefix (fst kv) tagPrefix).



(** The part of the writer that only [Write], [poll] and the constructor
  touch: the context, the storage mode and the channel. *)
Definition frameOf {W : Type} (s : State W)
  : option error * DbStorageSchemaType * list (list metrics.MeasurementMessage) :=
  (Ctx_Err (pgw s), MetricSchema (pgw s), input (pgw s)).

(** The partition caches. *)
Definition cachesOf {W : Type} (s : State W)
  : gomap ExistingPartitionInfo * gomap (gomap ExistingPartitionInfo) :=
  (partitionMapMetric (vars s), partitionMapMetricDbname (vars s)).

(** The flag and the two counters. *)
Definition gaugesOf {W : Type} (s : State W) : bool * Z * Z :=
  (forceRecreatePGMetricPartitions (vars s),
   datastoreWriteFailuresCounter (vars s),
   totalMetricsDroppedCounter (vars s)).

Section CopySpec.
Context {W : Type} (env : Env W).

(** The [tag_data] column of a row. *)
Definition tagColumn (m : MeasurementMessagePostgres) : option string :=
  if 0 <? len (TagData m) then
    match json_Marshal env (TagData m) with
    | Ok jsonBytesTags => Some jsonBytesTags
    | Err _ => None
    end
  else None.

(** The copy calls due for the rows of a metric: one per row whose payload
  marshals, in the order of the rows. *)
Fixpoint copyCalls (metricName : string) (ms : list MeasurementMessagePostgres)
  : list Call :=
  match ms with
  | [] => []
  | m :: rest =>
      match json_Marshal env (Data m) with
      | Ok jsonBytes =>
          CallCopyFrom [metricName] targetColumns
            [mkCopyRow (Time m) (DBName m) jsonBytes (tagColumn m)]
          :: copyCalls metricName rest
      | Err _ => copyCalls metricName rest
      end
  end.

(** The number of rows whose payload does not marshal. *)
Fixpoint unmarshalable (ms : list MeasurementMessagePostgres) : Z :=
  match ms with
  | [] => 0
  | m :: rest =>
      match json_Marshal env (Data m) with
      | Ok _ => unmarshalable rest
      | Err _ => 1 + unmarshalable rest
      end
  end.

End CopySpec.

Definition dummyCall (metric : string) : Call :=
  CallExec "select admin.ensure_dummy_metrics_table($1)" [ArgString metric].

Definition ensureMetricCall (p : string * ExistingPartitionInfo) : Call :=
  CallExec sqlEnsureMetric [ArgString (fst p)].

Definition isClose (c : Call) : bool :=
  match c with
  | CallClose => true
  | _ => false
  end.

(** The messages on their way to [write]: in the buffer of [poll], then on
  the channel. *)
Definition inFlight {W : Type} (cache : list metrics.MeasurementMessage)
  (s : State W) : list metrics.MeasurementMessage :=
  cache ++ List.concat (input (pgw s)).

(** The state in which a pass stands once its copy loop is over: the state
  it returned with, or, for a pass that was suspended in the send of the
  ensure error, the state in which it is suspended again once a receiver
  has taken that error. *)
Definition afterCopy {W : Type} (r : Res (State W)) : option (State W) :=
  match r with
  | Done s => Some s
  | Panicked _ => None
  | Parked _ _ _ =>
      match resume r with
      | Parked s _ _ => Some s
      | _ => None
      end
  end.


(** The tag a custom tag of a message gives to each of its rows. *)
Definition customTag {W : Type} (env : Env W) (kv : string * any) : string * any :=
  (fst kv, AString (Sprintf_v env (snd kv))).


(** *** multiwriter.go *)

(** The interface [Writer], on a world [W] that holds whatever the sinks
  write to. *)
Record Writer (W : Type) : Type := mkWriterIface {
  Writer_SyncMetric : string -> string -> string -> W -> W * option error;
  Writer_Write : list metrics.MeasurementMessage -> W -> W * option error
}.

(** [MultiWriter]; the mutex guards [AddWriter] only. *)
Record MultiWriter (W : Type) : Type := mkMultiWriter {
  writers : list (Writer W)
}.

(** The options [NewMultiWriter] reads. *)
Record MetricOptions : Type := mkMetricOptions {
  JSONStorageFile : list string;
  PGMetricStoreConnStr : list string;
  PrometheusListenAddr : string
}.

(** The constructors of the three kinds of sink, as [NewMultiWriter] sees
  them: a writer or an error. *)
Record SinkConstructors (W : Type) : Type := mkSinkConstructors {
  NewJSONWriter : string -> W -> W * (Writer W + error);
  NewPostgresWriterAsWriter : string -> W -> W * (Writer W + error);
  NewPrometheusWriter : W -> W * (Writer W + error)
}.

(** What [NewMultiWriter] returns with a nil [MultiWriter]: the error of a
  constructor, or [errors.New("no storages specified for metrics")]. *)
Inductive NewMultiWriterError : Type :=
| ConstructorError (err : error)
| NoStoragesSpecified.

(** The number of sinks the options ask for. *)
Definition sinksConfigured (opts : MetricOptions) : nat :=
  (List.length (JSONStorageFile opts) + List.length (PGMetricStoreConnStr opts)
   + if String.eqb (PrometheusListenAddr opts) "" then 0 else 1)%nat.

Section Multi.
Context {W : Type} (new : SinkConstructors W).

Definition AddWriter (w : Writer W) (mw : MultiWriter W) : MultiWriter W :=
  mkMultiWriter (writers mw ++ [w]).

(** The loops of [NewMultiWriter] over the JSON files and over the
  connection strings. *)
Fixpoint addEach (make : string -> W -> W * (Writer W + error))
  (names : list string) (mw : MultiWriter W) (w : W)
  : W * (MultiWriter W + error) :=
  match names with
  | [] => (w, inl mw)
  | name :: rest =>
      match make name w with
      | (w1, inr err) => (w1, inr err)
      | (w1, inl wr) => addEach make rest (AddWriter wr mw) w1
      end
  end.

Definition NewMultiWriter (opts : MetricOptions) (w : W)
  : W * (MultiWriter W + NewMultiWriterError) :=
  match addEach (NewJSONWriter new) (JSONStorageFile opts) (mkMultiWriter []) w with
  | (w1, inr err) => (w1, inr (ConstructorError err))
  | (w1, inl mw1) =>
      match addEach (NewPostgresWriterAsWriter new) (PGMetricStoreConnStr opts)
              mw1 w1 with
      | (w2, inr err) => (w2, inr (ConstructorError err))
      | (w2, inl mw2) =>
          let '(w3, r) :=
            if negb (String.eqb (PrometheusListenAddr opts) "") then
              match NewPrometheusWriter new w2 with
              | (w', inr err) => (w', inr err)
              | (w', inl promw) => (w', inl (AddWriter promw mw2))
              end
            else (w2, inl mw2) in
          match r with
          | inr err => (w3, inr (ConstructorError err))
          | inl mw3 =>
              match writers mw3 with
              | [] => (w3, inr NoStoragesSpecified)
              | _ => (w3, inl mw3)
              end
          end
      end
  end.

(** The loop of [SyncMetrics]:
  [err = errors.Join(err, w.SyncMetric(dbUnique, metricName, op))]. *)
Fixpoint syncEach (ws : list (Writer W)) (dbUnique metricName op : string)
  (err : option error) (w : W) : W * option error :=
  match ws with
  | [] => (w, err)
  | wr :: rest =>
      let (w1, e) := Writer_SyncMetric wr dbUnique metricName op w in
      syncEach rest dbUnique metricName op (errors_Join [err; e]) w1
  end.

Definition SyncMetrics (mw : MultiWriter W) (dbUnique metricName op : string)
  (w : W) : W * option error :=
  syncEach (writers mw) dbUnique metricName op None w.

(** The inner loop of [WriteMetrics], for one message off the channel: every
  writer gets it; an error is logged and the loop goes on.  The errors are
  given back here in place of the log. *)
Fixpoint writeEach (ws : list (Writer W)) (msg : list metrics.MeasurementMessage)
  (w : W) : W * list error :=
  match ws with
  | [] => (w, [])
  | wr :: rest =>
      let (w1, e) := Writer_Write wr msg w in
      let (w2, errs) := writeEach rest msg w1 in
      (w2, match e with Some err => err :: errs | None => errs end)
  end.

End Multi.

End sinks.

(* ------------------------------------------------------------------ *)
(** ** sinks/postgres.go: the retention worker

  [OldPostgresMetricsDeleter] with [DropOldTimePartitions] and
  [GetOldTimePartitions].  The worker passes integers and booleans to the
  pool and sleeps between calls; its calls and its pauses are logged as
  events of their own.  Durations are in seconds.  [ctxDoneWithin d] is the
  [select] between [<-pgw.Ctx.Done()] and [<-time.After(d)]: true when the
  context is done first. *)

Module retention.

Inductive RetentionArg : Type :=
| ArgInt (n : Z)
| ArgBool (b : bool).

Inductive Event : Type :=
| EvQueryRow (sql : string) (args : list RetentionArg)
| EvQuery (sql : string) (args : list RetentionArg)
| EvExec (sql : string)
| EvSleep (seconds : Z)
| EvSelect (seconds : Z).

Record Env (W : Type) : Type := mkEnv {
  QueryRow_Scan_int : string -> list RetentionArg -> W -> W * reply Z;
  Query_CollectRows : string -> list RetentionArg -> W -> W * reply (list string);
  Exec : string -> W -> W * option string;
  Identifier_Sanitize : string -> string;
  time_Sleep : Z -> W -> W;
  ctxDoneWithin : Z -> W -> W * bool
}.

(** How the worker stands after a while: it has returned, or it is still in
  its loop. *)
Inductive Standing : Type :=
| HasReturned
| StillLooping.

Section Worker.
Context {W : Type} (env : Env W).

(** The outside world and the events so far. *)
Definition Run : Type := W * list Event.

Definition sleep (seconds : Z) (r : Run) : Run :=
  (time_Sleep env seconds (fst r), snd r ++ [EvSleep seconds]).

Definition selectDone (seconds : Z) (r : Run) : Run * bool :=
  let (w, done) := ctxDoneWithin env seconds (fst r) in
  ((w, snd r ++ [EvSelect seconds]), done).

Definition sqlOldPart : string := "select admin.drop_old_time_partitions($1, $2)".

Definition DropOldTimePartitions (metricAgeDaysThreshold : Z) (r : Run)
  : Run * reply Z :=
  let args := [ArgInt metricAgeDaysThreshold; ArgBool false] in
  let (w, res) := QueryRow_Scan_int env sqlOldPart args (fst r) in
  ((w, snd r ++ [EvQueryRow sqlOldPart args]), res).

Definition sqlGetOldParts : string := "select admin.get_old_time_partitions($1)".

Definition GetOldTimePartitions (metricAgeDaysThreshold : Z) (r : Run)
  : Run * reply (list string) :=
  let args := [ArgInt metricAgeDaysThreshold] in
  let (w, res) := Query_CollectRows env sqlGetOldParts args (fst r) in
  ((w, snd r ++ [EvQuery sqlGetOldParts args]), res).

Definition sqlDropTable (toDrop : string) : string :=
  ("DROP TABLE IF EXISTS " ++ Identifier_Sanitize env toDrop)%string.

(** [for _, toDrop := range partsToDrop] *)
Fixpoint dropEach (partsToDrop : list string) (r : Run) : Run :=
  match partsToDrop with
  | [] => r
  | toDrop :: rest =>
      let (w, err) := Exec env (sqlDropTable toDrop) (fst r) in
      let r1 : Run := (w, snd r ++ [EvExec (sqlDropTable toDrop)]) in
      match err with
      | Some _ => dropEach rest (sleep 300 r1)
      | None => dropEach rest (sleep 5 r1)
      end
  end.

(** The body of the [for] up to the final [select]: [true] when it ends in
  a [continue]. *)
Definition cycle (schema : sinks.DbStorageSchemaType) (metricAgeDaysThreshold : Z)
  (r : Run) : Run * bool :=
  match schema with
  | sinks.DbStorageSchemaTimescale =>
      let (r1, res) := DropOldTimePartitions metricAgeDaysThreshold r in
      match res with
      | Err _ => (r1, true)
      | Ok _ => (r1, false)
      end
  | sinks.DbStorageSchemaPostgres =>
      let (r1, res) := GetOldTimePartitions metricAgeDaysThreshold r in
      match res with
      | Err _ => (sleep 300 r1, true)
      | Ok partsToDrop => (dropEach partsToDrop r1, false)
      end
  end.

(** The [for] of the worker, for at most [turns] turns. *)
Fixpoint loop (turns : nat) (schema : sinks.DbStorageSchemaType)
  (metricAgeDaysThreshold : Z) (r : Run) : Run * Standing :=
  match turns with
  | O => (r, StillLooping)
  | S turns' =>
      let (r1, again) := cycle schema metricAgeDaysThreshold r in
      if again then loop turns' schema metricAgeDaysThreshold r1
      else
        let (r2, done) := selectDone (12 * 3600) r1 in
        if done then (r2, HasReturned)
        else loop turns' schema metricAgeDaysThreshold r2
  end.

Definition OldPostgresMetricsDeleter (turns : nat)
  (schema : sinks.DbStorageSchemaType) (PGRetentionDays : Z) (r : Run)
  : Run * Standing :=
  if PGRetentionDays <=? 0 then (r, HasReturned)
  else
    let (r1, done) := selectDone 3600 r in
    if done then (r1, HasReturned)
    else loop turns schema PGRetentionDays r1.

End Worker.

Definition isSelect (e : Event) : bool :=
  match e with
  | EvSelect _ => true
  | _ => false
  end.

Definition isExec (e : Event) : bool :=
  match e with
  | EvExec _ => true
  | _ => false
  end.

(** What the worker logs for one partition: the drop, then the pause. *)
Definition dropAndPause {W : Type} (env : Env W) (p : string * Z) : list Event :=
  [EvExec (sqlDropTable env (fst p)); EvSleep (snd p)].

(** What one turn of the loop logs while the first call of the turn
  fails. *)
Definition failingTurn (schema : sinks.DbStorageSchemaType) (days : Z)
  : list Event :=
  match schema with
  | sinks.DbStorageSchemaTimescale =>
      [EvQueryRow sqlOldPart [ArgInt days; ArgBool false]]
  | sinks.DbStorageSchemaPostgres =>
      [EvQuery sqlGetOldParts [ArgInt days]; EvSleep 300]
  end.

End retention.

(* ------------------------------------------------------------------ *)
(** ** sinks/postgres.go: the maintainer of the listing table

  [UniqueDbnamesListingMaintainer].  Its calls take strings and arrays of
  strings and are logged as events of their own, with its pauses.
  [mapRange] is the order in which the runtime ranges over
  [foundDbnamesMap]. *)

Module maintainer.

Inductive ListingArg : Type :=
| ArgStrings (l : list string)
| ArgString (s : string).

Inductive Event : Type :=
| EvSelect (seconds : Z)
| EvQueryRow (sql : string)
| EvQuery (sql : string)
| EvExec (sql : string) (args : list ListingArg)
| EvSleep (seconds : Z).

Record Env (W : Type) : Type := mkEnv {
  QueryRow_Scan_bool : string -> W -> W * reply bool;
  Query_CollectRows : string -> W -> W * reply (list string);
  Exec : string -> list ListingArg -> W -> W * option string;
  mapRange : gomap bool -> list string;
  time_Sleep : Z -> W -> W;
  ctxDoneWithin : Z -> W -> W * bool
}.

(** [strings.Replace(s, old, new, 1)] *)
Fixpoint strings_Replace1 (s old new : string) : string :=
  if String.prefix old s then (new ++ sliceFrom (String.length old) s)%string
  else
    match s with
    | EmptyString => EmptyString
    | String c s' => String c (strings_Replace1 s' old new)
    end.

Definition sqlGetAdvisoryLock : string :=
  "SELECT pg_try_advisory_lock(1571543679778230000) AS have_lock".

Definition sqlTopLevelMetrics : string :=
  "SELECT table_name FROM admin.get_top_level_metric_tables()".

(** [fmt.Sprintf(sqlDistinct, tableName, tableName)] *)
Definition sqlDistinct (tableName : string) : string :=
  ("
	WITH RECURSIVE t(dbname) AS (
		SELECT MIN(dbname) AS dbname FROM " ++ tableName ++ "
		UNION
		SELECT (SELECT MIN(dbname) FROM " ++ tableName ++ " WHERE dbname > t.dbname) FROM t )
	SELECT dbname FROM t WHERE dbname NOTNULL ORDER BY 1")%string.

Definition sqlDelete : string :=
  "DELETE FROM admin.all_distinct_dbname_metrics WHERE NOT dbname = ANY($1) and metric = $2 RETURNING *".

Definition sqlDeleteAll : string :=
  "DELETE FROM admin.all_distinct_dbname_metrics WHERE metric = $1 RETURNING *".

Definition sqlAdd : string :=
  "
		INSERT INTO admin.all_distinct_dbname_metrics SELECT u, $2 FROM (select unnest($1::text[]) as u) x
		WHERE NOT EXISTS (select * from admin.all_distinct_dbname_metrics where dbname = u and metric = $2)
		RETURNING *".

Section Worker.
Context {W : Type} (env : Env W).

Definition Run : Type := W * list Event.

Definition sleep (seconds : Z) (r : Run) : Run :=
  (time_Sleep env seconds (fst r), snd r ++ [EvSleep seconds]).

Definition selectDone (seconds : Z) (r : Run) : Run * bool :=
  let (w, done) := ctxDoneWithin env seconds (fst r) in
  ((w, snd r ++ [EvSelect seconds]), done).

Definition queryRow (sql : string) (r : Run) : Run * reply bool :=
  let (w, res) := QueryRow_Scan_bool env sql (fst r) in
  ((w, snd r ++ [EvQueryRow sql]), res).

(** [rows, _ := Query(...)] followed by [pgx.CollectRows(rows, ...)] *)
Definition query (sql : string) (r : Run) : Run * reply (list string) :=
  let (w, res) := Query_CollectRows env sql (fst r) in
  ((w, snd r ++ [EvQuery sql]), res).

Definition exec (sql : string) (args : list ListingArg) (r : Run)
  : Run * option string :=
  let (w, err) := Exec env sql args (fst r) in
  ((w, snd r ++ [EvExec sql args]), err).

(** [foundDbnamesMap[drDbname] = true] for every [drDbname] of [ret] *)
Definition foundDbnames (ret : list string) : gomap bool :=
  fold_left (fun m drDbname => mapSet m drDbname true) ret [].

(** The body of the loop over the tables: [true] when it ends in
  [break]. *)
Definition refreshTable (tableName : string) (r : Run) : Run * bool :=
  let metricName := strings_Replace1 tableName "public." EmptyString in
  let (r1, res) := query (sqlDistinct tableName) r in
  match res with
  | Err _ => (r1, true)
  | Ok ret =>
      let foundDbnamesArr := mapRange env (foundDbnames ret) in
      if len foundDbnamesArr =? 0 then
        (fst (exec sqlDeleteAll [ArgString metricName] r1), false)
      else
        let (r2, _) :=
          exec sqlDelete [ArgStrings foundDbnamesArr; ArgString metricName] r1 in
        let (r3, _) :=
          exec sqlAdd [ArgStrings foundDbnamesArr; ArgString metricName] r2 in
        (sleep 60 r3, false)
  end.

(** [for _, tableName := range allDistinctMetricTables] *)
Fixpoint refreshTables (tables : list string) (r : Run) : Run :=
  match tables with
  | [] => r
  | tableName :: rest =>
      let (r1, broke) := refreshTable tableName r in
      if broke then r1 else refreshTables rest r1
  end.

(** One turn of the outer [for]: [true] when the worker returns. *)
Definition turn (r : Run) : Run * bool :=
  let (r0, done) := selectDone (24 * 3600) r in
  if done then (r0, true)
  else
    let (r1, lock) := queryRow sqlGetAdvisoryLock r0 in
    match lock with
    | Err _ => (r1, false)
    | Ok false => (r1, false)
    | Ok true =>
        let (r2, res) := query sqlTopLevelMetrics r1 in
        match res with
        | Err _ => (r2, false)
        | Ok allDistinctMetricTables =>
            (refreshTables allDistinctMetricTables r2, false)
        end
    end.

Fixpoint UniqueDbnamesListingMaintainer (turns : nat) (r : Run)
  : Run * retention.Standing :=
  match turns with
  | O => (r, retention.StillLooping)
  | S turns' =>
      let (r1, returned) := turn r in
      if returned then (r1, retention.HasReturned)
      else UniqueDbnamesListingMaintainer turns' r1
  end.

End Worker.

(** The events that read or change the tables of the metrics database. *)
Definition touchesTables (e : Event) : bool :=
  match e with
  | EvQuery _ => true
  | EvExec _ _ => true
  | _ => false
  end.

(** What a refresh of one table logs, given the names found in it. *)
Definition refreshLog (tableName : string) (ret foundDbnamesArr : list string)
  : list Event :=
  let metricName := strings_Replace1 tableName "public." EmptyString in
  match ret with
  | [] => [EvQuery (sqlDistinct tableName);
           EvExec sqlDeleteAll [ArgString metricName]]
  | _ :: _ =>
      [EvQuery (sqlDistinct tableName);
       EvExec sqlDelete [ArgStrings foundDbnamesArr; ArgString metricName];
       EvExec sqlAdd [ArgStrings foundDbnamesArr; ArgString metricName];
       EvSleep 60]
  end.

End maintainer.

(* ------------------------------------------------------------------ *)
(** ** A scripted pool, in the manner of pgxmock

  The world is a list of expected calls with the answer to give, and a
  clock.  A call that is not the next expected one is answered with an
  error, as pgxmock does. *)

Module pgxmock.

Inductive Expect : Type :=
| ExpectExec (err : option string)
| ExpectQueryRow_bool (r : reply bool)
| ExpectQueryRow_partInfo (r : reply ExistingPartitionInfo)
| ExpectQueryRow_time (r : reply time_Time)
| ExpectQuery (r : reply ExistingPartitionInfo)
| ExpectCopyFrom (err : option string)
| ExpectClose.

Record World : Type := mkWorld {
  expectations : list Expect;
  clock : time_Time
}.

Definition unexpected : string := "call was not expected".

Definition next (w : World) : World :=
  mkWorld (tl (expectations w)) (clock w).

Definition Exec (sql : string) (args : list Arg) (w : World)
  : World * option string :=
  match expectations w with
  | ExpectExec err :: _ => (next w, err)
  | _ => (w, Some unexpected)
  end.

Definition QueryRow_Scan_bool (sql : string) (args : list Arg) (w : World)
  : World * reply bool :=
  match expectations w with
  | ExpectQueryRow_bool r :: _ => (next w, r)
  | _ => (w, Err unexpected)
  end.

Definition QueryRow_Scan_partInfo (sql : string) (args : list Arg) (w : World)
  : World * reply ExistingPartitionInfo :=
  match expectations w with
  | ExpectQueryRow_partInfo r :: _ => (next w, r)
  | _ => (w, Err unexpected)
  end.

Definition QueryRow_Scan_time (sql : string) (args : list Arg) (w : World)
  : World * reply time_Time :=
  match expectations w with
  | ExpectQueryRow_time r :: _ => (next w, r)
  | _ => (w, Err unexpected)
  end.

Definition Query_CollectOneRow (sql : string) (args : list Arg) (w : World)
  : World * reply ExistingPartitionInfo :=
  match expectations w with
  | ExpectQuery r :: _ => (next w, r)
  | _ => (w, Err unexpected)
  end.

Definition CopyFrom (table columns : list string) (rows : list CopyRow) (w : World)
  : World * option string :=
  match expectations w with
  | ExpectCopyFrom err :: _ => (next w, err)
  | _ => (w, Some unexpected)
  end.

Definition Close (w : World) : World :=
  match expectations w with
  | ExpectClose :: _ => next w
  | _ => w
  end.

Definition pool : PgxPoolIface World :=
  Build_PgxPoolIface Exec QueryRow_Scan_bool QueryRow_Scan_partInfo
    QueryRow_Scan_time Query_CollectOneRow CopyFrom Close.

(** The clock gives its reading and moves on by a nanosecond. *)
Definition time_Now (w : World) : World * time_Time :=
  (mkWorld (expectations w) (clock w + 1), clock w).

Definition decimal (n : Z) : string := NilZero.string_of_int (Z.to_int n).

Definition quoted (s : string) : string :=
  let q := String (ascii_of_nat 34) EmptyString in (q ++ s ++ q)%string.

(** A stand-in for [fmt.Sprintf("%v", v)]. *)
Definition Sprintf_v (v : any) : string :=
  match v with
  | ANil => "<nil>"
  | ABool true => "true"
  | ABool false => "false"
  | AInt32 n => decimal n
  | AInt64 n => decimal n
  | AFloat64 S754_nan => "NaN"
  | AFloat64 (S754_infinity false) => "+Inf"
  | AFloat64 (S754_infinity true) => "-Inf"
  | AFloat64 (S754_zero _) => "0"
  | AFloat64 (S754_finite sg m e) =>
      ((if sg then "-" else "") ++ decimal (Zpos m) ++ "p" ++ decimal e)%string
  | AString s => s
  end.

(** A stand-in for [json.Marshal] on a [map[string]any]: it refuses NaN and
  the infinities, as [encoding/json] does, and writes the entries in the
  order of the list, without escaping. *)
Definition jsonValue (v : any) : reply string :=
  match v with
  | ANil => Ok "null"
  | AString s => Ok (quoted s)
  | AFloat64 S754_nan => Err "json: unsupported value: NaN"
  | AFloat64 (S754_infinity false) => Err "json: unsupported value: +Inf"
  | AFloat64 (S754_infinity true) => Err "json: unsupported value: -Inf"
  | _ => Ok (Sprintf_v v)
  end.

Fixpoint jsonEntries (m : gomap any) : reply (list string) :=
  match m with
  | [] => Ok []
  | (k, v) :: rest =>
      match jsonValue v, jsonEntries rest with
      | Ok j, Ok js => Ok ((quoted k ++ ":" ++ j)%string :: js)
      | Err msg, _ => Err msg
      | _, Err msg => Err msg
      end
  end.

Definition json_Marshal (m : gomap any) : reply string :=
  match jsonEntries m with
  | Ok js => Ok ("{" ++ String.concat "," js ++ "}")%string
  | Err msg => Err msg
  end.

Definition acquire (connstr : string) (w : World) : World * option string :=
  (w, None).

Definition env (metricSchemaSQLs : list string) : sinks.Env World :=
  sinks.mkEnv pool time_Now json_Marshal Sprintf_v acquire metricSchemaSQLs.

Definition conn (expect : list Expect) : Conn World :=
  mkConn (mkWorld expect 1700000000000000000) [].

End pgxmock.

(* ------------------------------------------------------------------ *)
(** ** Concrete inputs *)

Module Examples.
Import sinks.

Definition g0 : Globals := mkGlobals false [] [] 0 0.

Definition E : Env pgxmock.World := pgxmock.env ["s1"; "s2"; "s3"].

(** A writer in plain mode on a scripted pool. *)
Definition writer (ctxErr : option error) (schema : DbStorageSchemaType)
  (expect : list pgxmock.Expect) : State pgxmock.World :=
  mkState (mkWriter ctxErr (pgxmock.conn expect) schema [] None) g0.

Definition batch1 : list metrics.MeasurementMessage :=
  [metrics.mkMessage "t1" "db_stats"
     [[("epoch_ns", AInt64 1700000000000000000); ("numbackends", AInt64 10);
       ("tag_host", AString "h")]] []].

(** A partition that covers the clock of the scripted pool. *)
Definition covering : ExistingPartitionInfo :=
  mkPartInfo 1699920000000000000 1700524800000000000.

(** One row whose fields are all null or empty. *)
Definition batchNulls : list metrics.MeasurementMessage :=
  [metrics.mkMessage "t1" "wal" [[("a", ANil); ("b", AString "")]] []].

(** One row whose [epoch_ns] is the empty string. *)
Definition batchEmptyEpoch : list metrics.MeasurementMessage :=
  [metrics.mkMessage "t1" "wal" [[("epoch_ns", AString ""); ("lsn", AInt64 7)]] []].

(** One row whose [epoch_ns] is a non-empty string. *)
Definition batchStringEpoch : list metrics.MeasurementMessage :=
  [metrics.mkMessage "t1" "wal"
     [[("epoch_ns", AString "1700000000000000000"); ("lsn", AInt64 7)]] []].

(** An entry whose payload holds a NaN, and one whose tags do. *)
Definition entryNaN : sinks.MeasurementMessagePostgres :=
  sinks.mkEntry 1700000000000000000 "t1" "wal"
    [("ratio", AFloat64 S754_nan)] [("host", AString "h")].

Definition entryTagNaN : sinks.MeasurementMessagePostgres :=
  sinks.mkEntry 1700000000000000000 "t1" "wal"
    [("lsn", AInt64 7)] [("host", AFloat64 S754_nan)].


(** Bounds with a zero start, as a caller of the partition manager can
  hand them in. *)
Definition batchZeroStart : Batch :=
  mkBatch [] 0 0 []
    [("wal", [("t1", mkPartInfo zeroTime 1700000000000000000)])].

(** Two rows of one metric and tenant. *)
Definition batchTwoRows : list metrics.MeasurementMessage :=
  [metrics.mkMessage "t1" "wal"
     [[("epoch_ns", AInt64 1700000000000000000); ("lsn", AInt64 7)];
      [("epoch_ns", AInt64 1700000000000000001); ("lsn", AInt64 8)]] []].


(** A message with a custom tag whose second row has only null and empty
  fields, after a message with an ordinary row. *)
Definition batchNullsTagged : list metrics.MeasurementMessage :=
  [metrics.mkMessage "t1" "db_stats"
     [[("epoch_ns", AInt64 1700000000000000000); ("numbackends", AInt64 10)]] [];
   metrics.mkMessage "t1" "wal"
     [[("epoch_ns", AInt64 1700000000000000000); ("lsn", AInt64 7)];
      [("a", ANil); ("b", AString "")]]
     [("env", AString "prod")]].

(** A row whose payload holds a NaN, before an ordinary row. *)
Definition batchNaN : list metrics.MeasurementMessage :=
  [metrics.mkMessage "t1" "wal"
     [[("epoch_ns", AInt64 1700000000000000000); ("ratio", AFloat64 S754_nan)];
      [("epoch_ns", AInt64 1700000000000000001); ("lsn", AInt64 8)]] []].

(** The entries of [batchNaN]. *)
Definition entryRatioNaN : sinks.MeasurementMessagePostgres :=
  sinks.mkEntry 1700000000000000000 "t1" "wal" [("ratio", AFloat64 S754_nan)] [].

Definition entryLsn8 : sinks.MeasurementMessagePostgres :=
  sinks.mkEntry 1700000000000000001 "t1" "wal" [("lsn", AInt64 8)] [].

(** A batch as a caller of [flush] can hand it in, with an entry whose tags
  do not marshal before one whose tags do; no bounds, so the partition
  manager has nothing to ensure. *)
Definition batchTagNaN : Batch :=
  mkBatch [("wal", [entryTagNaN; entryLsn8])] 2 2 [] [].

(** What the first loop of [write] makes of [batchNaN] in plain mode. *)
Definition batchNaNParsed : Batch :=
  mkBatch [("wal", [entryRatioNaN; entryLsn8])] 2 2 []
    [("wal", [("t1", mkPartInfo 1700000000000000000 1700000000000000001)])].

Definition noPartition : string :=
  "ERROR: no partition of relation wal found for row (SQLSTATE 23514)".

Definition otherFailure : string :=
  "write failed: connection reset by peer".

Definition copyOf (t : time_Time) (data : string) : Call :=
  CallCopyFrom ["wal"] targetColumns [mkCopyRow t "t1" data None].

Definition ensureOf (t : time_Time) : Call :=
  CallQuery sqlEnsureDbnameTime [ArgString "wal"; ArgString "t1"; ArgTime t].

Definition lsn (n : string) : string :=
  ("{" ++ pgxmock.quoted "lsn" ++ ":" ++ n ++ "}")%string.

(** A writer with given package variables. *)
Definition writerWith (schema : DbStorageSchemaType) (g : Globals)
  (expect : list pgxmock.Expect) : State pgxmock.World :=
  mkState (mkWriter None (pgxmock.conn expect) schema [] None) g.

(** The cache holds a partition of ("wal", "t1") that covers the clock. *)
Definition coveredGlobals : Globals :=
  mkGlobals false [] [("wal", [("t1", covering)])] 0 0.

(** The cache holds a partition of the metric [wal_realtime]. *)
Definition realtimeGlobals : Globals :=
  mkGlobals false [("wal_realtime", covering)] [] 0 0.

Definition instant : ExistingPartitionInfo :=
  mkPartInfo 1700000000000000000 1700000000000000000.

(** Two sinks that record the messages they get in a shared list; the
  first fails on every call. *)
Definition failingSink : Writer (list string) :=
  mkWriterIface
    (fun _ metricName _ w => (w ++ ["json:" ++ metricName]%string,
                              Some (DriverError "disk full")))
    (fun _ w => (w ++ ["json"], Some (DriverError "disk full"))).

Definition healthySink : Writer (list string) :=
  mkWriterIface
    (fun _ metricName _ w => (w ++ ["pg:" ++ metricName]%string, None))
    (fun _ w => (w ++ ["pg"], None)).

Definition sinkConstructors : SinkConstructors (list string) :=
  mkSinkConstructors
    (fun f w => (w ++ [f], inl failingSink))
    (fun connstr w => (w ++ [connstr], inl healthySink))
    (fun w => (w ++ ["prometheus"], inl healthySink)).

(** A metrics database for the retention worker: the world counts the calls
  made; the listing holds two old partitions, the drop of the first one
  fails, and the context is done at the second [select]. *)
Definition quote : string := String (ascii_of_nat 34) EmptyString.

Definition retentionEnv : retention.Env nat :=
  retention.mkEnv
    (fun _ _ w => (S w, Ok 2))
    (fun _ _ w => (S w, Ok ["metric_a_y2020w01"; "metric_b_y2020w01"]))
    (fun sql w =>
       (S w,
        if String.eqb sql
             ("DROP TABLE IF EXISTS " ++ quote ++ "metric_a_y2020w01" ++ quote)
        then Some "table is locked" else None))
    (fun p => (quote ++ p ++ quote)%string)
    (fun _ w => w)
    (fun d w => (S w, negb (d =? 3600))).

(** A metrics database without the admin functions: both calls of the
  worker fail. *)
Definition brokenEnv : retention.Env nat :=
  retention.mkEnv
    (fun _ _ w => (S w, Err "function does not exist"))
    (fun _ _ w => (S w, Err "function does not exist"))
    (fun _ w => (S w, None))
    (fun p => (quote ++ p ++ quote)%string)
    (fun _ w => w)
    (fun _ w => (S w, false)).

(** A metrics database for the maintainer: the lock is granted, deletions
  fail, and the runtime ranges over a map from its last entry to its
  first. *)
Definition maintainerEnv : maintainer.Env nat :=
  maintainer.mkEnv
    (fun _ w => (S w, Ok true))
    (fun sql w =>
       (S w,
        if String.eqb sql (maintainer.sqlDistinct "public.broken")
        then Err "relation does not exist"
        else Ok ["db2"; "db1"; "db2"]))
    (fun sql _ w =>
       (S w, if String.eqb sql maintainer.sqlDelete
             then Some "deadlock detected" else None))
    (fun m => rev (map fst m))
    (fun _ w => w)
    (fun _ w => (S w, false)).

(** Another instance holds the advisory lock. *)
Definition lockedOutEnv : maintainer.Env nat :=
  maintainer.mkEnv
    (fun _ w => (S w, if Nat.even w then Ok false else Err "connection lost"))
    (fun _ w => (S w, Ok ["public.cpu"]))
    (fun _ _ w => (S w, None))
    (fun m => map fst m)
    (fun _ w => w)
    (fun _ w => (S w, false)).

End Examples.

Unset Implicit Arguments.

(* ------------------------------------------------------------------ *)
(** ** Schema bootstrap *)

Section BootstrapFacts.
Context {W : Type} (pool : PgxPoolIface W).

Lemma conn_Exec_calls : forall sql args (c c1 : Conn W) r,
  conn_Exec pool sql args c = (c1, r) ->
  calls c1 = calls c ++ [CallExec sql args].
Proof.
  intros sql args c c1 r H. unfold conn_Exec in H.
  destruct (Exec pool sql args (world c)) as [w o].
  inversion H; subst; reflexivity.
Qed.

Lemma execScripts_all : forall sqls (c c2 : Conn W),
  db.allSucceed pool sqls c c2 ->
  db.execScripts pool sqls c = (c2, None) /\
  calls c2 = calls c ++ map (fun q => CallExec q []) sqls.
Proof.
  intros sqls c c2 H. induction H as [c | sql rest c c1 c2 Hx _ [IHr IHc]].
  - simpl. rewrite app_nil_r. split; reflexivity.
  - simpl. rewrite Hx. split; [exact IHr |].
    rewrite IHc, (conn_Exec_calls _ _ _ _ _ Hx), <- app_assoc. reflexivity.
Qed.

Lemma execScripts_first_failure : forall done sql rest (c c2 c3 : Conn W) e,
  db.allSucceed pool done c c2 ->
  conn_Exec pool sql [] c2 = (c3, Some e) ->
  db.execScripts pool (done ++ sql :: rest) c = (c3, Some e) /\
  calls c3 = calls c ++ map (fun q => CallExec q []) (done ++ [sql]).
Proof.
  intros done sql rest c c2 c3 e H. revert c3.
  induction H as [c | sql0 rest0 c c1 c2 Hx _ IH]; intros c3 Hf.
  - simpl. rewrite Hf. split; [reflexivity |].
    apply (conn_Exec_calls _ _ _ _ _ Hf).
  - simpl. rewrite Hx. destruct (IH c3 Hf) as [IHr IHc]. split; [exact IHr |].
    rewrite IHc, (conn_Exec_calls _ _ _ _ _ Hx), <- app_assoc. reflexivity.
Qed.

(** C9: schema bootstrap does nothing when the catalog lookup finds the
  schema: [executeSchemaScripts] returns success with the connection as the
  lookup left it, the lookup being the only call.  When the schema is absent
  the scripts are executed in the order of the list; if all succeed the
  result is success, and the first script that fails ends the run: its error
  is returned and no later script is executed. *)
Theorem executeSchemaScripts_noop_or_ordered :
  forall (schema : string) (sqls : list string) (c c1 : Conn W) (present : bool),
    conn_QueryRow_bool pool db.sqlSchemaExists [ArgString schema] c
      = (c1, Ok present) ->
    calls c1 = calls c ++ [CallQueryRow db.sqlSchemaExists [ArgString schema]] /\
    (present = true ->
       db.executeSchemaScripts pool schema sqls c = (c1, None)) /\
    (present = false ->
       (forall c2,
          db.allSucceed pool sqls c1 c2 ->
          db.executeSchemaScripts pool schema sqls c = (c2, None) /\
          calls c2 = calls c1 ++ map (fun q => CallExec q []) sqls) /\
       (forall done sql rest c2 c3 e,
          sqls = done ++ sql :: rest ->
          db.allSucceed pool done c1 c2 ->
          conn_Exec pool sql [] c2 = (c3, Some e) ->
          db.executeSchemaScripts pool schema sqls c = (c3, Some e) /\
          calls c3 = calls c1 ++ map (fun q => CallExec q []) (done ++ [sql]))).
Proof.
  intros schema sqls c c1 present Hq.
  split.
  - unfold conn_QueryRow_bool in Hq.
    destruct (QueryRow_Scan_bool pool _ _ (world c)) as [w r].
    inversion Hq; subst; reflexivity.
  - unfold db.executeSchemaScripts. rewrite Hq. split.
    + intros ->. reflexivity.
    + intros ->. split.
      * intros c2 Hall. apply execScripts_all. exact Hall.
      * intros done sql rest c2 c3 e -> Hall Hf.
        eapply execScripts_first_failure; eassumption.
Qed.

End BootstrapFacts.

(** On the scripted pool: with the schema present nothing but the lookup
  is called; with the schema absent the second of three scripts fails and
  the third is not run. *)
Lemma executeSchemaScripts_noop_or_ordered_witness :
  let present := pgxmock.conn [pgxmock.ExpectQueryRow_bool (Ok true)] in
  let absent := pgxmock.conn [pgxmock.ExpectQueryRow_bool (Ok false);
                              pgxmock.ExpectExec None;
                              pgxmock.ExpectExec (Some "syntax error")] in
  let run := db.executeSchemaScripts pgxmock.pool "admin" ["s1"; "s2"; "s3"] in
  (snd (run present) = None /\
   calls (fst (run present))
     = [CallQueryRow db.sqlSchemaExists [ArgString "admin"]]) /\
  (snd (run absent) = Some (DriverError "syntax error") /\
   calls (fst (run absent))
     = [CallQueryRow db.sqlSchemaExists [ArgString "admin"];
        CallExec "s1" []; CallExec "s2" []]).
Proof.
  intros present absent run. split.
  - destruct (executeSchemaScripts_noop_or_ordered pgxmock.pool "admin"
                ["s1"; "s2"; "s3"] present _ true eq_refl)
      as (Hcalls & Hpresent & _).
    subst run. cbv beta. rewrite (Hpresent eq_refl).
    split; [reflexivity | exact Hcalls].
  - destruct (executeSchemaScripts_noop_or_ordered pgxmock.pool "admin"
                ["s1"; "s2"; "s3"] absent _ false eq_refl)
      as (_ & _ & Habsent).
    destruct (Habsent eq_refl) as [_ Hfail].
    edestruct Hfail with (done := ["s1"]) (sql := "s2") (rest := ["s3"])
      as [Hres Hcalls].
    + reflexivity.
    + eapply db.allSucceed_cons; [reflexivity | apply db.allSucceed_nil].
    + reflexivity.
    + subst run. cbv beta. rewrite Hres. split; [reflexivity | exact Hcalls].
Defined.

(* ------------------------------------------------------------------ *)
(** ** The entry point *)

(** C7: a call of [Write] on a writer whose context is cancelled returns nil
  at once and leaves the writer as it was: the batch is not put on the
  ingestion channel. *)
Theorem Write_cancelled_returns_nil :
  forall (W : Type) (batcherReceives : bool)
         (msgs : list metrics.MeasurementMessage) (s : sinks.State W),
    sinks.Ctx_Err (sinks.pgw s) <> None ->
    sinks.Write batcherReceives msgs s = (s, None) /\
    sinks.input (sinks.pgw (fst (sinks.Write batcherReceives msgs s)))
      = sinks.input (sinks.pgw s).
Proof.
  intros W br msgs s Hc. unfold sinks.Write.
  destruct (sinks.Ctx_Err (sinks.pgw s)) as [e |].
  - split; reflexivity.
  - contradiction.
Qed.

Lemma Write_cancelled_returns_nil_witness :
  let s := Examples.writer (Some (DriverError "context canceled"))
             sinks.DbStorageSchemaPostgres [] in
  sinks.Write true Examples.batch1 s = (s, None) /\
  sinks.input (sinks.pgw (fst (sinks.Write true Examples.batch1 s))) = [].
Proof.
  intro s.
  apply (Write_cancelled_returns_nil pgxmock.World true Examples.batch1 s).
  simpl. discriminate.
Defined.

(* ------------------------------------------------------------------ *)
(** ** The first loop of [write] *)

Section ParseFacts.
Import sinks.
Context {W : Type} (env : Env W).

Lemma scanRow_nulls : forall dataRow r,
  forallb nullOrEmpty dataRow = true ->
  scanRow env dataRow r = Normal r.
Proof.
  induction dataRow as [| [k v] rest IH]; intros r H; simpl in *.
  - reflexivity.
  - apply andb_true_iff in H. destruct H as [Hv Hrest].
    unfold nullOrEmpty in Hv. simpl in Hv. rewrite Hv. apply IH. exact Hrest.
Qed.

Lemma assertInt64_panics : forall v,
  (forall n, v <> AInt64 n) -> exists why, assertInt64 v = Panic why.
Proof.
  intros v Hv. destruct v; simpl; try (eexists; reflexivity).
  exfalso. apply (Hv n). reflexivity.
Qed.

Lemma scanRow_panics : forall dataRow r v,
  In (epochColumnName, v) dataRow ->
  isNil v = false -> isEmptyString v = false -> (forall n, v <> AInt64 n) ->
  exists why, scanRow env dataRow r = Panic why.
Proof.
  induction dataRow as [| [k v0] rest IH]; intros r v Hin Hnil Hemp Hint.
  - destruct Hin.
  - destruct Hin as [Hhd | Htl].
    + inversion Hhd; subst k v0. simpl. rewrite Hnil, Hemp. simpl.
      destruct (assertInt64_panics v Hint) as [why Hp]. rewrite Hp.
      exists why. reflexivity.
    + simpl. destruct (isNil v0 || isEmptyString v0).
      * eapply IH; eassumption.
      * destruct (String.eqb k epochColumnName).
        -- destruct (assertInt64 v0) as [n | why].
           ++ eapply IH; eassumption.
           ++ exists why. reflexivity.
        -- destruct (strings_HasPrefix k tagPrefix); eapply IH; eassumption.
Qed.

Lemma processRow_panics : forall msg dataRow sb v,
  In (epochColumnName, v) dataRow ->
  isNil v = false -> isEmptyString v = false -> (forall n, v <> AInt64 n) ->
  exists why, processRow env msg dataRow sb = Panic why.
Proof.
  intros msg dataRow [s b] v Hin Hnil Hemp Hint. unfold processRow.
  destruct (scanRow_panics dataRow
              (mkRowScan 0 (copyCustomTags env (metrics.CustomTags msg) []) [])
              v Hin Hnil Hemp Hint) as [why Hp].
  rewrite Hp. exists why. reflexivity.
Qed.

Lemma processRows_panics : forall msg rows sb dataRow v,
  In dataRow rows -> In (epochColumnName, v) dataRow ->
  isNil v = false -> isEmptyString v = false -> (forall n, v <> AInt64 n) ->
  exists why, processRows env msg rows sb = Panic why.
Proof.
  induction rows as [| row rest IH]; intros sb dataRow v Hrow Hin Hnil Hemp Hint.
  - destruct Hrow.
  - simpl. destruct Hrow as [Hhd | Htl].
    + subst row.
      destruct (processRow_panics msg dataRow sb v Hin Hnil Hemp Hint)
        as [why Hp].
      rewrite Hp. exists why. reflexivity.
    + destruct (processRow env msg row sb) as [sb1 | why].
      * eapply IH; eassumption.
      * exists why. reflexivity.
Qed.

Lemma processMsgs_cons : forall m rest sb,
  processMsgs env (m :: rest) sb =
  match metrics.Data m with
  | [] => processMsgs env rest sb
  | _ :: _ =>
      match processRows env m (metrics.Data m) sb with
      | Panic why => Panic why
      | Normal sb1 => processMsgs env rest sb1
      end
  end.
Proof.
  intros m rest sb. simpl. destruct (metrics.Data m); reflexivity.
Qed.

Lemma processMsgs_panics : forall msgs sb msg dataRow v,
  In msg msgs -> In dataRow (metrics.Data msg) ->
  In (epochColumnName, v) dataRow ->
  isNil v = false -> isEmptyString v = false -> (forall n, v <> AInt64 n) ->
  exists why, processMsgs env msgs sb = Panic why.
Proof.
  induction msgs as [| m rest IH];
    intros sb msg dataRow v Hmsg Hrow Hin Hnil Hemp Hint.
  - destruct Hmsg.
  - rewrite processMsgs_cons. destruct Hmsg as [Hhd | Htl].
    + subst m.
      destruct (processRows_panics msg (metrics.Data msg) sb dataRow v Hrow Hin
                  Hnil Hemp Hint) as [why Hp].
      rewrite Hp. destruct (metrics.Data msg).
      * destruct Hrow.
      * exists why. reflexivity.
    + destruct (metrics.Data m) as [| row rows].
      * eapply IH; eassumption.
      * destruct (processRows env m (row :: rows) sb) as [sb1 | why].
        -- eapply IH; eassumption.
        -- exists why. reflexivity.
Qed.

(** C10 (as amended): a batch with a row whose [epoch_ns] field is neither
  nil, nor the empty string, nor an [int64] makes the pass of [write] panic
  in the unchecked assertion [v.(int64)]: the pass neither returns nor is
  the row dropped. *)
Theorem write_panics_on_non_int64_epoch :
  forall (msgs : list metrics.MeasurementMessage) (s : State W)
         (msg : metrics.MeasurementMessage) (dataRow : gomap any) (v : any),
    In msg msgs ->
    In dataRow (metrics.Data msg) ->
    In (epochColumnName, v) dataRow ->
    isNil v = false ->
    isEmptyString v = false ->
    (forall n, v <> AInt64 n) ->
    exists why, write env msgs s = Panicked why.
Proof.
  intros msgs s msg dataRow v Hmsg Hrow Hin Hnil Hemp Hint.
  destruct (processMsgs_panics msgs (s, emptyBatch) msg dataRow v Hmsg Hrow Hin
              Hnil Hemp Hint) as [why Hp].
  unfold write. destruct msgs as [| m rest].
  - destruct Hmsg.
  - rewrite Hp. exists why. reflexivity.
Qed.

End ParseFacts.

Lemma write_panics_on_non_int64_epoch_witness :
  exists why,
    sinks.write Examples.E Examples.batchStringEpoch
      (Examples.writer None sinks.DbStorageSchemaPostgres []) = sinks.Panicked why.
Proof.
  eapply (write_panics_on_non_int64_epoch Examples.E
            Examples.batchStringEpoch _ _ _ (AString "1700000000000000000")).
  - left. reflexivity.
  - left. reflexivity.
  - left. reflexivity.
  - reflexivity.
  - reflexivity.
  - intros n H. discriminate H.
Defined.

(** C10, the claim as stated fails: an [epoch_ns] that is the empty string
  is present, is not nil and is not a 64-bit integer, and the pass does not
  panic; the field is skipped and the row is copied with the server time. *)
Lemma empty_string_epoch_does_not_panic :
  let v := AString "" in
  In (sinks.epochColumnName, v)
     (hd [] (metrics.Data (hd (metrics.mkMessage "" "" [] []) Examples.batchEmptyEpoch))) /\
  isNil v = false /\
  (forall n, v <> AInt64 n) /\
  option_map sinks.callsOf
    (sinks.returned
       (sinks.write Examples.E Examples.batchEmptyEpoch
          (Examples.writer None sinks.DbStorageSchemaPostgres
             [pgxmock.ExpectQuery (Ok Examples.covering);
              pgxmock.ExpectCopyFrom None])))
  = Some [CallQuery sinks.sqlEnsureDbnameTime
            [ArgString "wal"; ArgString "t1"; ArgTime 1700000000000000000];
          CallCopyFrom ["wal"] sinks.targetColumns
            [mkCopyRow 1700000000000000000 "t1" ("{" ++ pgxmock.quoted "lsn" ++ ":7}")%string None]].
Proof.
  intro v. split; [left; reflexivity |].
  split; [reflexivity |].
  split; [intros n H; discriminate H |].
  vm_compute. reflexivity.
Qed.

(* ------------------------------------------------------------------ *)
(** ** The copy loop *)

Section CopyFacts.
Import sinks.
Context {W : Type} (env : Env W).

Lemma sink_CopyFrom_effect : forall table columns rows (s : State W),
  callsOf (fst (sink_CopyFrom env table columns rows s))
    = callsOf s ++ [CallCopyFrom table columns rows] /\
  vars (fst (sink_CopyFrom env table columns rows s)) = vars s /\
  snd (sink_CopyFrom env table columns rows s)
    = snd (CopyFrom (pool env) table columns rows (world (SinkDb (pgw s)))).
Proof.
  intros table columns rows s. unfold sink_CopyFrom, conn_CopyFrom, callsOf.
  destruct (CopyFrom (pool env) table columns rows (world (SinkDb (pgw s))))
    as [w r].
  simpl. repeat split.
Qed.

Lemma getTagData_calls : forall m (s : State W),
  callsOf (fst (getTagData env m s)) = callsOf s.
Proof.
  intros m s. unfold getTagData.
  destruct (0 <? len (TagData m)); [| reflexivity].
  destruct (json_Marshal env (TagData m)); reflexivity.
Qed.

Lemma getTagData_failure : forall m (s : State W) msg,
  0 < len (TagData m) ->
  json_Marshal env (TagData m) = Err msg ->
  getTagData env m s = (incWriteFailures s, None).
Proof.
  intros m s msg Hlen Hm. unfold getTagData.
  apply Z.ltb_lt in Hlen. rewrite Hlen, Hm. reflexivity.
Qed.

Lemma copyOne_calls_ok : forall metricName m (s : State W) jsonBytes,
  json_Marshal env (Data m) = Ok jsonBytes ->
  callsOf (copyOne env metricName m s)
    = callsOf s ++
      [CallCopyFrom [metricName] targetColumns
         [mkCopyRow (Time m) (DBName m) jsonBytes (snd (getTagData env m s))]].
Proof.
  intros metricName m s jsonBytes Hj. unfold copyOne. rewrite Hj.
  pose proof (getTagData_calls m s) as Ht.
  destruct (getTagData env m s) as [s1 tagData]. simpl in Ht |- *.
  pose proof (sink_CopyFrom_effect [metricName] targetColumns
                [mkCopyRow (Time m) (DBName m) jsonBytes tagData] s1)
    as (Hc & _ & _).
  destruct (sink_CopyFrom env [metricName] targetColumns
              [mkCopyRow (Time m) (DBName m) jsonBytes tagData] s1) as [s2 r].
  simpl in Hc. rewrite <- Ht, <- Hc. destruct r; reflexivity.
Qed.

End CopyFacts.

(** C3, the claim as stated fails: a batch whose only row has a null and an
  empty-string field is parsed into one entry and copied, with [data] the
  empty JSON object. *)
Lemma all_null_row_is_copied :
  forallb sinks.nullOrEmpty
    (hd [] (metrics.Data (hd (metrics.mkMessage "" "" [] []) Examples.batchNulls)))
    = true /\
  option_map sinks.callsOf
    (sinks.returned
       (sinks.write Examples.E Examples.batchNulls
          (Examples.writer None sinks.DbStorageSchemaPostgres
             [pgxmock.ExpectQuery (Ok Examples.covering);
              pgxmock.ExpectCopyFrom None])))
  = Some [CallQuery sinks.sqlEnsureDbnameTime
            [ArgString "wal"; ArgString "t1"; ArgTime 1700000000000000000];
          CallCopyFrom ["wal"] sinks.targetColumns
            [mkCopyRow 1700000000000000000 "t1" "{}" None]].
Proof.
  split; vm_compute; reflexivity.
Qed.

(* ------------------------------------------------------------------ *)
(** ** The partition manager *)

Section PartitionFacts.
Import sinks.
Context {W : Type} (env : Env W).

Lemma mapGet_mapSet_same : forall (V : Type) (m : gomap V) k v,
  mapGet (mapSet m k v) k = Some v.
Proof.
  induction m as [| [k' v'] m IH]; intros k v; simpl.
  - rewrite String.eqb_refl. reflexivity.
  - destruct (String.eqb k' k) eqn:Hk; simpl.
    + rewrite String.eqb_refl. reflexivity.
    + rewrite Hk. apply IH.
Qed.


Lemma sink_Query_CollectOneRow_effect : forall sql args (s : State W),
  callsOf (fst (sink_Query_CollectOneRow env sql args s))
    = callsOf s ++ [CallQuery sql args] /\
  snd (sink_Query_CollectOneRow env sql args s)
    = snd (Query_CollectOneRow (pool env) sql args (world (SinkDb (pgw s)))).
Proof.
  intros sql args s.
  unfold sink_Query_CollectOneRow, conn_Query_CollectOneRow, callsOf.
  destruct (Query_CollectOneRow (pool env) sql args (world (SinkDb (pgw s))))
    as [w r].
  simpl. split; reflexivity.
Qed.



Lemma ensureDbnameEntry_zero : forall metric dbname pb force (s : State W),
  hasZeroBound pb = true ->
  ensureDbnameEntry env metric dbname pb force s
    = (s, Some (ZeroBoundsError metric (StartTime pb) (EndTime pb))).
Proof.
  intros metric dbname pb force s Hz. unfold ensureDbnameEntry.
  unfold hasZeroBound in Hz. rewrite Hz. reflexivity.
Qed.

Lemma ensureDbnames_zero : forall metric l force (s : State W) dbname pb,
  In (dbname, pb) l -> hasZeroBound pb = true ->
  exists e, snd (ensureDbnames env metric l force s) = Some e.
Proof.
  induction l as [| [d p] rest IH]; intros force s dbname pb Hin Hz.
  - destruct Hin.
  - simpl. destruct Hin as [Hhd | Htl].
    + inversion Hhd; subst d p.
      rewrite (ensureDbnameEntry_zero metric dbname pb force s Hz).
      eexists. reflexivity.
    + destruct (ensureDbnameEntry env metric d p force s) as [s1 [e |]].
      * exists e. reflexivity.
      * eapply IH; eassumption.
Qed.

Lemma EnsureMetricDbnameTime_zero : forall bounds force (s : State W)
    metric inner dbname pb,
  In (metric, inner) bounds -> In (dbname, pb) inner -> hasZeroBound pb = true ->
  exists e, snd (EnsureMetricDbnameTime env bounds force s) = Some e.
Proof.
  induction bounds as [| [m i] rest IH];
    intros force s metric inner dbname pb Hm Hin Hz.
  - destruct Hm.
  - simpl. destruct Hm as [Hhd | Htl].
    + inversion Hhd; subst m i.
      match goal with
      | |- context [ensureDbnames env metric inner force ?s0] =>
          destruct (ensureDbnames_zero metric inner force s0 dbname pb Hin Hz)
            as [e He];
          destruct (ensureDbnames env metric inner force s0) as [s1 r]
      end.
      simpl in He. subst r. exists e. reflexivity.
    + match goal with
      | |- context [ensureDbnames env m i force ?s0] =>
          destruct (ensureDbnames env m i force s0) as [s1 [e |]]
      end.
      * exists e. reflexivity.
      * eapply IH; eassumption.
Qed.

Lemma ensureTimeEntry_zero : forall metric pb force (s : State W),
  strings_HasSuffix metric "_realtime" = true ->
  hasZeroBound pb = true ->
  ensureTimeEntry env metric pb force s
    = (s, Some (ZeroBoundsError metric (StartTime pb) (EndTime pb))).
Proof.
  intros metric pb force s Hs Hz. unfold ensureTimeEntry.
  unfold hasZeroBound in Hz. rewrite Hs, Hz. reflexivity.
Qed.

Lemma EnsureMetricTime_zero : forall bounds force (s : State W) metric pb,
  In (metric, pb) bounds ->
  strings_HasSuffix metric "_realtime" = true ->
  hasZeroBound pb = true ->
  exists e, snd (EnsureMetricTime env bounds force s) = Some e.
Proof.
  induction bounds as [| [m p] rest IH]; intros force s metric pb Hin Hs Hz.
  - destruct Hin.
  - simpl. destruct Hin as [Hhd | Htl].
    + inversion Hhd; subst m p.
      rewrite (ensureTimeEntry_zero metric pb force s Hs Hz).
      eexists. reflexivity.
    + destruct (ensureTimeEntry env m p force s) as [s1 [e |]].
      * exists e. reflexivity.
      * eapply IH; eassumption.
Qed.

Lemma ensureStep_zero : forall (b : Batch) (s : State W),
  zeroBoundIn b (MetricSchema (pgw s)) ->
  exists e, snd (ensureStep env b s) = Some e.
Proof.
  intros b s Hz. unfold ensureStep.
  inversion Hz as [metric inner dbname pb Hm Hin Hzero Hschema
                  | metric pb Hin Hs Hzero Hschema].
  - eapply EnsureMetricDbnameTime_zero; eassumption.
  - unfold EnsureMetricTimescale.
    destruct (ensureTimescaleTables env (pgPartBounds b) s) as [s1 [e |]].
    + exists e. reflexivity.
    + eapply EnsureMetricTime_zero; eassumption.
Qed.

(** With an error from the ensure step the pass stops in the first send. *)
Lemma flush_ensure_error : forall (b : Batch) (s s1 : State W) e,
  ensureStep env b s = (s1, Some e) ->
  flush env b s =
  Parked (with_lastError (Some e) (afterEnsure (Some e) s1)) e
    (fun s3 =>
       Parked (with_lastError (Some e)
                 (copyMetrics env (metricsToStorePerMetric b) s3)) e
         (fun s4 => Done s4)).
Proof.
  intros b s s1 e H. unfold flush. rewrite H. reflexivity.
Qed.

Lemma afterEnsure_error : forall (s : State W) e,
  datastoreWriteFailuresCounter (vars (afterEnsure (Some e) s))
    = AddUint64 (datastoreWriteFailuresCounter (vars s)) 1 /\
  forceRecreatePGMetricPartitions (vars (afterEnsure (Some e) s)) = false /\
  callsOf (afterEnsure (Some e) s) = callsOf s.
Proof.
  intros s e. unfold afterEnsure.
  destruct (forceRecreatePGMetricPartitions (vars s)) eqn:Hf; simpl;
    repeat split; try reflexivity; exact Hf.
Qed.

(** C6: when the bounds of a flush hold a zero start or end (for a (metric,
  tenant) pair in plain mode, for a [_realtime] metric in time-series
  mode), the ensure step of the flush returns an error, the failure counter
  goes up by one and the error is put on offer on [lastError]; at the entry
  itself the manager returns the zero-bounds error with the state, and so
  the call log, as it found them: the store procedure is not called for
  it. *)
Theorem zero_bounds_fail_the_flush :
  forall (b : Batch) (s : State W),
    zeroBoundIn b (MetricSchema (pgw s)) ->
    (exists s1 e k,
       ensureStep env b s = (s1, Some e) /\
       flush env b s
         = Parked (with_lastError (Some e) (afterEnsure (Some e) s1)) e k /\
       datastoreWriteFailuresCounter (vars (afterEnsure (Some e) s1))
         = AddUint64 (datastoreWriteFailuresCounter (vars s1)) 1) /\
    (forall metric dbname pb force (s' : State W),
       hasZeroBound pb = true ->
       ensureDbnameEntry env metric dbname pb force s'
         = (s', Some (ZeroBoundsError metric (StartTime pb) (EndTime pb)))) /\
    (forall metric pb force (s' : State W),
       strings_HasSuffix metric "_realtime" = true ->
       hasZeroBound pb = true ->
       ensureTimeEntry env metric pb force s'
         = (s', Some (ZeroBoundsError metric (StartTime pb) (EndTime pb)))).
Proof.
  intros b s Hz. split; [| split].
  - destruct (ensureStep_zero b s Hz) as [e He].
    destruct (ensureStep env b s) as [s1 r] eqn:Hstep. simpl in He. subst r.
    exists s1, e. eexists. split; [reflexivity |]. split.
    + apply flush_ensure_error. exact Hstep.
    + apply afterEnsure_error.
  - intros; apply ensureDbnameEntry_zero; assumption.
  - intros; apply ensureTimeEntry_zero; assumption.
Qed.

(** C2 (as amended): when the ensure step of a flush returns an error, the
  failure counter goes up by one and the error is sent on [lastError] with
  a plain send on the unbuffered channel: the pass is suspended there, with
  the error on offer and before any copy, until a receiver takes it.  The
  error is not dropped: the next call of [Write] on a live writer returns
  it.  Once it is taken the pass runs the copy loop and sends the same error
  again. *)
Theorem ensure_error_parks_the_batcher :
  forall (msgs : list metrics.MeasurementMessage) (s s1 s2 : State W)
         (b : Batch) (e : error),
    msgs <> [] ->
    processMsgs env msgs (s, emptyBatch) = Normal (s1, b) ->
    ensureStep env b s1 = (s2, Some e) ->
    let s3 := afterEnsure (Some e) s2 in
    datastoreWriteFailuresCounter (vars s3)
      = AddUint64 (datastoreWriteFailuresCounter (vars s2)) 1 /\
    callsOf s3 = callsOf s2 /\
    (exists k,
       write env msgs s = Parked (with_lastError (Some e) s3) e k /\
       forall s4,
         k s4 = Parked (with_lastError (Some e)
                          (copyMetrics env (metricsToStorePerMetric b) s4)) e
                  (fun s5 => Done s5)) /\
    (forall batcherReceives msgs',
       Ctx_Err (pgw s3) = None ->
       snd (Write batcherReceives msgs' (with_lastError (Some e) s3)) = Some e).
Proof.
  intros msgs s s1 s2 b e Hne Hparse Hstep s3.
  destruct (afterEnsure_error s2 e) as (Hcount & _ & Hcalls).
  split; [exact Hcount |]. split; [exact Hcalls |]. split.
  - eexists. split.
    + unfold write. destruct msgs as [| m rest]; [contradiction |].
      rewrite Hparse. apply flush_ensure_error. exact Hstep.
    + intros s4. reflexivity.
  - intros br msgs' Hctx. clearbody s3. unfold Write, enqueue. simpl.
    rewrite Hctx.
    destruct (len (input (pgw s3)) <? cacheLimit); [| destruct br]; reflexivity.
Qed.

End PartitionFacts.

Lemma zero_bounds_fail_the_flush_witness :
  let s := Examples.writer None sinks.DbStorageSchemaPostgres
             [pgxmock.ExpectQuery (Ok Examples.covering)] in
  exists s1 k,
    sinks.flush Examples.E Examples.batchZeroStart s
      = sinks.Parked s1
          (ZeroBoundsError "wal" zeroTime 1700000000000000000) k /\
    sinks.callsOf s1 = [] /\
    sinks.datastoreWriteFailuresCounter (sinks.vars s1) = 1.
Proof.
  intro s.
  assert (Hz : sinks.zeroBoundIn Examples.batchZeroStart
                 (sinks.MetricSchema (sinks.pgw s))).
  { eapply sinks.zeroBound_plain with
      (metric := "wal") (dbname := "t1")
      (pb := mkPartInfo zeroTime 1700000000000000000).
    - left. reflexivity.
    - left. reflexivity.
    - reflexivity. }
  destruct (zero_bounds_fail_the_flush Examples.E Examples.batchZeroStart s Hz)
    as [(s1 & e & k & Hstep & Hflush & Hcount) _].
  vm_compute in Hstep. inversion Hstep; subst s1 e.
  eexists. exists k. split; [exact Hflush |]. split; reflexivity.
Defined.

Lemma ensure_error_parks_the_batcher_witness :
  let s := Examples.writer None sinks.DbStorageSchemaPostgres
             [pgxmock.ExpectQuery (Err "connection refused");
              pgxmock.ExpectCopyFrom None] in
  exists s3 k,
    sinks.write Examples.E Examples.batch1 s
      = sinks.Parked
          (sinks.with_lastError (Some (DriverError "connection refused")) s3)
          (DriverError "connection refused") k /\
    sinks.datastoreWriteFailuresCounter (sinks.vars s3) = 1 /\
    sinks.callsOf s3 = [CallQuery sinks.sqlEnsureDbnameTime
                          [ArgString "db_stats"; ArgString "t1";
                           ArgTime 1700000000000000000]].
Proof.
  intro s.
  destruct (ensure_error_parks_the_batcher Examples.E Examples.batch1 s
              _ _ _ _ ltac:(discriminate) eq_refl eq_refl)
    as (Hcount & Hcalls & (k & Hwrite & _) & _).
  eexists. exists k. split; [exact Hwrite |]. split; [exact Hcount | exact Hcalls].
Defined.

(** C2, the claim as stated fails: the ensure step fails while nobody is
  receiving on [lastError]; the pass does not return and makes no copy,
  although the pool would accept one: it is suspended in the send, with the
  error on offer. *)
Lemma ensure_error_send_blocks :
  let r := sinks.write Examples.E Examples.batch1
             (Examples.writer None sinks.DbStorageSchemaPostgres
                [pgxmock.ExpectQuery (Err "connection refused");
                 pgxmock.ExpectCopyFrom None]) in
  sinks.returned r = None /\
  option_map
    (fun p => (sinks.callsOf (fst p), sinks.lastError (sinks.pgw (fst p)), snd p))
    (sinks.parked r)
  = Some ([CallQuery sinks.sqlEnsureDbnameTime
             [ArgString "db_stats"; ArgString "t1"; ArgTime 1700000000000000000]],
          Some (DriverError "connection refused"),
          DriverError "connection refused").
Proof.
  split; vm_compute; reflexivity.
Qed.

(* ------------------------------------------------------------------ *)
(** ** The force-recreate flag *)

(** C1, the code at the failing input: two rows of one metric are copied in
  one flush.  The first copy fails with a "no partition" error, the second
  with another error: the flag is false when the flush ends, and the next
  flush copies without any call of the partition manager.  With the two
  errors in the other order the flag is true when the flush ends. *)
Theorem later_copy_error_revokes_force_recreate :
  let first :=
    sinks.write Examples.E Examples.batchTwoRows
      (Examples.writer None sinks.DbStorageSchemaPostgres
         [pgxmock.ExpectQuery (Ok Examples.covering);
          pgxmock.ExpectCopyFrom (Some Examples.noPartition);
          pgxmock.ExpectCopyFrom (Some Examples.otherFailure);
          pgxmock.ExpectCopyFrom None;
          pgxmock.ExpectCopyFrom None]) in
  let swapped :=
    sinks.write Examples.E Examples.batchTwoRows
      (Examples.writer None sinks.DbStorageSchemaPostgres
         [pgxmock.ExpectQuery (Ok Examples.covering);
          pgxmock.ExpectCopyFrom (Some Examples.otherFailure);
          pgxmock.ExpectCopyFrom (Some Examples.noPartition)]) in
  let copies :=
    [Examples.copyOf 1700000000000000000 (Examples.lsn "7");
     Examples.copyOf 1700000000000000001 (Examples.lsn "8")] in
  strings_Contains Examples.noPartition "no partition" = true /\
  strings_Contains Examples.otherFailure "no partition" = false /\
  sinks.outcome first
    = Some (false, 2, Examples.ensureOf 1700000000000000000 :: copies) /\
  match sinks.returned first with
  | Some s1 =>
      sinks.outcome (sinks.write Examples.E Examples.batchTwoRows s1)
        = Some (false, 2,
                (Examples.ensureOf 1700000000000000000 :: copies) ++ copies)
  | None => False
  end /\
  sinks.outcome swapped
    = Some (true, 2, Examples.ensureOf 1700000000000000000 :: copies).
Proof.
  repeat split; vm_compute; reflexivity.
Qed.

(** The flag after a row whose copy fails is decided by that failure
  alone, whatever it was before. *)
Lemma copyOne_failure_sets_flag :
  forall (W : Type) (env : sinks.Env W) (metricName : string)
         (m : sinks.MeasurementMessagePostgres) (s : sinks.State W)
         (jsonBytes msg : string),
    sinks.json_Marshal env (sinks.Data m) = Ok jsonBytes ->
    snd (sinks.sink_CopyFrom env [metricName] sinks.targetColumns
           [mkCopyRow (sinks.Time m) (sinks.DBName m) jsonBytes
              (snd (sinks.getTagData env m s))]
           (fst (sinks.getTagData env m s))) = Some msg ->
    sinks.forceRecreatePGMetricPartitions
      (sinks.vars (sinks.copyOne env metricName m s))
    = strings_Contains msg "no partition".
Proof.
  intros W env metricName m s jsonBytes msg Hj Hcopy. unfold sinks.copyOne.
  rewrite Hj. destruct (sinks.getTagData env m s) as [s1 tagData].
  simpl in Hcopy |- *.
  destruct (sinks.sink_CopyFrom env [metricName] sinks.targetColumns
              [mkCopyRow (sinks.Time m) (sinks.DBName m) jsonBytes tagData] s1)
    as [s2 r].
  simpl in Hcopy. subst r. reflexivity.
Qed.

(** What the code does keep of the recovery: a flush that starts with the
  flag set hands it to the partition manager as [force], a forced entry is
  asked for again whatever the cache says, and the copy loop starts with the
  flag reset. *)
Lemma ensureStep_passes_flag :
  forall (W : Type) (env : sinks.Env W) (b : sinks.Batch) (s : sinks.State W),
    sinks.forceRecreatePGMetricPartitions (sinks.vars s) = true ->
    sinks.ensureStep env b s =
    match sinks.MetricSchema (sinks.pgw s) with
    | sinks.DbStorageSchemaPostgres =>
        sinks.EnsureMetricDbnameTime env (sinks.pgPartBoundsDbName b) true s
    | sinks.DbStorageSchemaTimescale =>
        sinks.EnsureMetricTimescale env (sinks.pgPartBounds b) true s
    end.
Proof.
  intros W env b s Hf. unfold sinks.ensureStep. rewrite Hf. reflexivity.
Qed.

Lemma ensureDbnameStart_forced :
  forall (W : Type) (env : sinks.Env W) (metric dbname : string)
         (pb : ExistingPartitionInfo) (s : sinks.State W),
    sinks.callsOf (fst (sinks.ensureDbnameStart env metric dbname pb true s))
    = sinks.callsOf s ++
      [CallQuery sinks.sqlEnsureDbnameTime
         [ArgString metric; ArgString dbname; ArgTime (StartTime pb)]].
Proof.
  intros W env metric dbname pb s. unfold sinks.ensureDbnameStart.
  rewrite orb_true_r.
  pose proof (sink_Query_CollectOneRow_effect env sinks.sqlEnsureDbnameTime
                [ArgString metric; ArgString dbname; ArgTime (StartTime pb)] s)
    as [Hc _].
  destruct (sinks.sink_Query_CollectOneRow env sinks.sqlEnsureDbnameTime
              [ArgString metric; ArgString dbname; ArgTime (StartTime pb)] s)
    as [s1 [info | msg]]; exact Hc.
Qed.

Lemma afterEnsure_clears_force :
  forall (W : Type) (err : option error) (s : sinks.State W),
    sinks.forceRecreatePGMetricPartitions (sinks.vars (sinks.afterEnsure err s))
      = false.
Proof.
  intros W err s. unfold sinks.afterEnsure.
  destruct (sinks.forceRecreatePGMetricPartitions (sinks.vars s)) eqn:Hf;
    destruct err; simpl; try reflexivity; exact Hf.
Qed.

(* ------------------------------------------------------------------ *)
(** ** The storage mode *)

Section SchemaFacts.
Import sinks.
Context {W : Type} (env : Env W).

(** Split on an innermost scrutinee of the goal. *)
Ltac break_step :=
  match goal with
  | |- context [match ?x with _ => _ end] =>
      lazymatch x with
      | context [match _ with _ => _ end] => fail
      | _ => destruct x
      end
  end.

Ltac schema_unfold :=
  unfold schemaOf, sink_Exec, sink_QueryRow_bool, sink_QueryRow_partInfo,
    sink_QueryRow_time, sink_Query_CollectOneRow, sink_CopyFrom,
    conn_Exec, conn_QueryRow_bool, conn_QueryRow_partInfo, conn_QueryRow_time,
    conn_Query_CollectOneRow, conn_CopyFrom, now.

Lemma schema_now : forall s, schemaOf (fst (now env s)) = schemaOf s.
Proof.
  intros s. unfold schemaOf, now.
  destruct (time_Now env (world (SinkDb (pgw s)))) as [w t]. reflexivity.
Qed.

Lemma schema_processRow : forall msg dataRow s b s1 b1,
  processRow env msg dataRow (s, b) = Normal (s1, b1) -> schemaOf s1 = schemaOf s.
Proof.
  intros msg dataRow s b s1 b1 H. unfold processRow in H.
  destruct (scanRow env dataRow _) as [r | why]; [| discriminate H].
  pose proof (schema_now s) as Hn.
  destruct (epochNs r =? 0).
  - destruct (now env s) as [s' t]. simpl in Hn.
    destruct (MetricSchema (pgw s)); inversion H; subst; exact Hn.
  - destruct (MetricSchema (pgw s)); inversion H; subst; reflexivity.
Qed.

Lemma schema_processRows : forall msg rows s b s1 b1,
  processRows env msg rows (s, b) = Normal (s1, b1) -> schemaOf s1 = schemaOf s.
Proof.
  induction rows as [| row rest IH]; intros s b s1 b1 H.
  - inversion H; subst. reflexivity.
  - cbn [processRows] in H.
    destruct (processRow env msg row (s, b)) as [[s' b'] | why] eqn:Hr;
      [| discriminate H].
    rewrite (IH _ _ _ _ H). eapply schema_processRow. exact Hr.
Qed.

Lemma schema_processMsgs : forall msgs s b s1 b1,
  processMsgs env msgs (s, b) = Normal (s1, b1) -> schemaOf s1 = schemaOf s.
Proof.
  induction msgs as [| m rest IH]; intros s b s1 b1 H.
  - inversion H; subst. reflexivity.
  - rewrite processMsgs_cons in H. destruct (metrics.Data m) as [| row rows].
    + eapply IH. exact H.
    + destruct (processRows env m (row :: rows) (s, b)) as [[s' b'] | why] eqn:Hr;
        [| discriminate H].
      rewrite (IH _ _ _ _ H). eapply schema_processRows. exact Hr.
Qed.

Lemma schema_ensureDbnameEntry : forall metric dbname pb force s,
  schemaOf (fst (ensureDbnameEntry env metric dbname pb force s)) = schemaOf s.
Proof.
  intros. unfold ensureDbnameEntry, ensureDbnameStart, ensureDbnameEnd.
  schema_unfold. repeat (break_step; simpl); reflexivity.
Qed.

Lemma schema_ensureDbnames : forall metric l force s,
  schemaOf (fst (ensureDbnames env metric l force s)) = schemaOf s.
Proof.
  induction l as [| [d p] rest IH]; intros force s; simpl.
  - reflexivity.
  - pose proof (schema_ensureDbnameEntry metric d p force s) as He.
    destruct (ensureDbnameEntry env metric d p force s) as [s1 [e |]];
      simpl in *.
    + exact He.
    + rewrite IH. exact He.
Qed.

Lemma schema_EnsureMetricDbnameTime : forall bounds force s,
  schemaOf (fst (EnsureMetricDbnameTime env bounds force s)) = schemaOf s.
Proof.
  induction bounds as [| [m i] rest IH]; intros force s; simpl.
  - reflexivity.
  - match goal with
    | |- context [ensureDbnames env m i force ?s0] =>
        assert (H0 : schemaOf s0 = schemaOf s)
          by (destruct (mapGet (partitionMapMetricDbname (vars s)) m);
              reflexivity);
        pose proof (schema_ensureDbnames m i force s0) as He;
        destruct (ensureDbnames env m i force s0) as [s1 [e |]]
    end; simpl in *.
    + rewrite He. exact H0.
    + rewrite IH, He. exact H0.
Qed.

Lemma schema_ensureTimeEntry : forall metric pb force s,
  schemaOf (fst (ensureTimeEntry env metric pb force s)) = schemaOf s.
Proof.
  intros. unfold ensureTimeEntry. schema_unfold.
  repeat (break_step; simpl); reflexivity.
Qed.

Lemma schema_EnsureMetricTime : forall bounds force s,
  schemaOf (fst (EnsureMetricTime env bounds force s)) = schemaOf s.
Proof.
  induction bounds as [| [m p] rest IH]; intros force s; simpl.
  - reflexivity.
  - pose proof (schema_ensureTimeEntry m p force s) as He.
    destruct (ensureTimeEntry env m p force s) as [s1 [e |]]; simpl in *.
    + exact He.
    + rewrite IH. exact He.
Qed.

Lemma schema_ensureTimescaleTables : forall bounds s,
  schemaOf (fst (ensureTimescaleTables env bounds s)) = schemaOf s.
Proof.
  induction bounds as [| [m p] rest IH]; intros s; simpl.
  - reflexivity.
  - destruct (strings_HasSuffix m "_realtime"); [apply IH |].
    destruct (mapGet (partitionMapMetric (vars s)) m); [apply IH |].
    unfold sink_Exec, conn_Exec.
    destruct (Exec (pool env) sqlEnsureTimescale [ArgString m]
                (world (SinkDb (pgw s)))) as [w [msg |]]; simpl.
    + reflexivity.
    + rewrite IH. reflexivity.
Qed.

Lemma schema_ensureStep : forall b s,
  schemaOf (fst (ensureStep env b s)) = schemaOf s.
Proof.
  intros b s. unfold ensureStep. destruct (MetricSchema (pgw s)).
  - apply schema_EnsureMetricDbnameTime.
  - unfold EnsureMetricTimescale.
    pose proof (schema_ensureTimescaleTables (pgPartBounds b) s) as Ht.
    destruct (ensureTimescaleTables env (pgPartBounds b) s) as [s1 [e |]];
      simpl in *.
    + exact Ht.
    + rewrite schema_EnsureMetricTime. exact Ht.
Qed.

Lemma schema_afterEnsure : forall err (s : State W),
  schemaOf (afterEnsure err s) = schemaOf s.
Proof.
  intros err s. unfold afterEnsure.
  destruct (forceRecreatePGMetricPartitions (vars s)); destruct err; reflexivity.
Qed.

Lemma schema_copyOne : forall metricName m s,
  schemaOf (copyOne env metricName m s) = schemaOf s.
Proof.
  intros. unfold copyOne, getTagData. schema_unfold.
  repeat (break_step; simpl); reflexivity.
Qed.

Lemma schema_copyRows : forall metricName ms s,
  schemaOf (copyRows env metricName ms s) = schemaOf s.
Proof.
  induction ms as [| m rest IH]; intros s; simpl.
  - reflexivity.
  - rewrite IH. apply schema_copyOne.
Qed.

Lemma schema_copyMetrics : forall store s,
  schemaOf (copyMetrics env store s) = schemaOf s.
Proof.
  induction store as [| [name ms] rest IH]; intros s; simpl.
  - reflexivity.
  - rewrite IH. apply schema_copyRows.
Qed.

Lemma schema_flush : forall b s,
  ResAll (fun s' => schemaOf s' = schemaOf s) (flush env b s).
Proof.
  intros b s. unfold flush.
  pose proof (schema_ensureStep b s) as Hs.
  destruct (ensureStep env b s) as [s1 err]. simpl in Hs.
  pose proof (schema_afterEnsure err s1) as Ha.
  destruct err as [e |].
  - unfold send. apply ResAll_Parked.
    + change (schemaOf (afterEnsure (Some e) s1) = schemaOf s). congruence.
    + intros s3 H3. apply ResAll_Parked.
      * change (schemaOf (copyMetrics env (metricsToStorePerMetric b) s3)
                = schemaOf s).
        rewrite schema_copyMetrics. exact H3.
      * intros s4 H4. apply ResAll_Done. exact H4.
  - apply ResAll_Done. rewrite schema_copyMetrics. congruence.
Qed.

Lemma schema_write : forall msgs s,
  ResAll (fun s' => schemaOf s' = schemaOf s) (write env msgs s).
Proof.
  intros msgs s. unfold write. destruct msgs as [| m rest].
  - apply ResAll_Done. reflexivity.
  - destruct (processMsgs env (m :: rest) (s, emptyBatch)) as [[s1 b] | why] eqn:Hp.
    + pose proof (schema_processMsgs _ _ _ _ _ Hp) as H1.
      rewrite <- H1. apply schema_flush.
    + apply ResAll_Panicked.
Qed.

Lemma schema_Write : forall batcherReceives msgs (s : State W),
  schemaOf (fst (Write batcherReceives msgs s)) = schemaOf s.
Proof.
  intros br msgs s. unfold Write, enqueue.
  destruct (Ctx_Err (pgw s)); [reflexivity |].
  destruct (len (input (pgw s)) <? cacheLimit); [| destruct br];
    simpl; destruct (lastError (pgw s)); reflexivity.
Qed.

(** C4 (as amended): when the settings-table query of the schema-type probe
  fails or finds no row, the probe leaves the storage mode at plain
  (Postgres) and returns the error; [NewPostgresWriter] then closes the pool
  and returns that error, so construction fails and no goroutine is started.
  The mode is written by the probe only: neither a pass of [write] nor
  [Write] changes it. *)
Theorem probe_error_fails_construction :
  forall (ctxErr : option error) (connstr : string) (g : Globals) (w : W)
         (c c1 : Conn W) (msg : string),
    db.InitAndTestMetricStoreConnection (pool env) (acquire env)
      (metricSchemaSQLs env) connstr w = inr (c, None) ->
    conn_QueryRow_bool (pool env) sqlSchemaType [] c = (c1, Err msg) ->
    let s0 := mkState (mkWriter ctxErr c DbStorageSchemaPostgres [] None) g in
    (MetricSchema (pgw (fst (ReadMetricSchemaType env s0)))
       = DbStorageSchemaPostgres /\
     snd (ReadMetricSchemaType env s0) = Some (DriverError msg)) /\
    NewPostgresWriter env ctxErr connstr g w
      = Failed
          (mkState (mkWriter ctxErr (conn_Close (pool env) c1)
                      DbStorageSchemaPostgres [] None) g)
          (DriverError msg) /\
    (forall msgs (s : State W),
       ResAll (fun s' => MetricSchema (pgw s') = MetricSchema (pgw s))
         (write env msgs s)) /\
    (forall batcherReceives msgs (s : State W),
       MetricSchema (pgw (fst (Write batcherReceives msgs s)))
         = MetricSchema (pgw s)).
Proof.
  intros ctxErr connstr g w c c1 msg Hinit Hq s0.
  assert (Hprobe : ReadMetricSchemaType env s0
                   = (mkState (mkWriter ctxErr c1 DbStorageSchemaPostgres [] None) g,
                      Some (DriverError msg))).
  { unfold ReadMetricSchemaType, sink_QueryRow_bool. simpl. rewrite Hq.
    reflexivity. }
  split; [rewrite Hprobe; split; reflexivity |].
  split.
  - unfold NewPostgresWriter. rewrite Hinit. fold s0. rewrite Hprobe.
    reflexivity.
  - split.
    + intros msgs s. apply schema_write.
    + intros br msgs s. apply schema_Write.
Qed.

End SchemaFacts.

Lemma probe_error_fails_construction_witness :
  let w := pgxmock.mkWorld
             [pgxmock.ExpectQueryRow_bool (Ok true);
              pgxmock.ExpectQueryRow_bool (Err "no rows in result set");
              pgxmock.ExpectClose] 1700000000000000000 in
  sinks.constructionError
    (sinks.NewPostgresWriter Examples.E None "postgresql://metrics" Examples.g0 w)
  = Some (DriverError "no rows in result set").
Proof.
  intro w.
  destruct (probe_error_fails_construction Examples.E None
              "postgresql://metrics" Examples.g0 w _ _ "no rows in result set"
              eq_refl eq_refl) as (_ & Hnew & _).
  rewrite Hnew. reflexivity.
Defined.

(** C4, the claim as stated fails: the schema is in place, the probe finds
  no row in the settings table, and [NewPostgresWriter] returns the error of
  the probe instead of a writer. *)
Lemma probe_error_is_returned :
  let w := pgxmock.mkWorld
             [pgxmock.ExpectQueryRow_bool (Ok true);
              pgxmock.ExpectQueryRow_bool (Err "no rows in result set");
              pgxmock.ExpectClose] 1700000000000000000 in
  let r := sinks.NewPostgresWriter Examples.E None "postgresql://metrics"
             Examples.g0 w in
  sinks.constructionError r = Some (DriverError "no rows in result set") /\
  match r with
  | sinks.Failed s _ =>
      sinks.MetricSchema (sinks.pgw s) = sinks.DbStorageSchemaPostgres /\
      sinks.callsOf s
        = [CallQueryRow db.sqlSchemaExists [ArgString "admin"];
           CallQueryRow sinks.sqlSchemaType []; CallClose]
  | _ => False
  end.
Proof.
  split; vm_compute; [reflexivity | split; reflexivity].
Qed.

(* ------------------------------------------------------------------ *)
(** ** The happy path, replayed *)

(** One row of [db_stats] for tenant [t1] in plain mode: the partition
  manager is called once, with the time of the row, and the row is copied
  with its payload and its tag. *)
Example happy_path_plain_mode :
  sinks.outcome
    (sinks.write Examples.E Examples.batch1
       (Examples.writer None sinks.DbStorageSchemaPostgres
          [pgxmock.ExpectQuery (Ok Examples.covering);
           pgxmock.ExpectCopyFrom None]))
  = Some (false, 0,
          [CallQuery sinks.sqlEnsureDbnameTime
             [ArgString "db_stats"; ArgString "t1"; ArgTime 1700000000000000000];
           CallCopyFrom ["db_stats"] sinks.targetColumns
             [mkCopyRow 1700000000000000000 "t1"
                ("{" ++ pgxmock.quoted "numbackends" ++ ":10}")%string
                (Some ("{" ++ pgxmock.quoted "host" ++ ":" ++ pgxmock.quoted "h"
                         ++ "}")%string)]]).
Proof. vm_compute. reflexivity. Qed.

Example realtime_suffix :
  strings_HasSuffix "wal_realtime" "_realtime" = true /\
  strings_HasSuffix "realtime" "_realtime" = false /\
  strings_HasPrefix "tag_host" sinks.tagPrefix = true /\
  sliceFrom 4 "tag_host" = "host".
Proof. repeat split. Qed.

(* ------------------------------------------------------------------ *)
(** ** More on the first loop of [write] *)

Lemma mapGet_mapSet_other : forall (V : Type) (m : gomap V) k k' v,
  k <> k' -> mapGet (mapSet m k v) k' = mapGet m k'.
Proof.
  induction m as [| [k0 v0] m IH]; intros k k' v Hne; simpl.
  - destruct (String.eqb k k') eqn:He; [| reflexivity].
    apply String.eqb_eq in He. contradiction.
  - destruct (String.eqb k0 k) eqn:Hk; simpl.
    + apply String.eqb_eq in Hk. subst k0.
      destruct (String.eqb k k') eqn:He; [| reflexivity].
      apply String.eqb_eq in He. contradiction.
    + destruct (String.eqb k0 k'); [reflexivity | apply IH; exact Hne].
Qed.

Lemma In_mapSet : forall (V : Type) (m : gomap V) k v kv,
  In kv (mapSet m k v) -> kv = (k, v) \/ In kv m.
Proof.
  induction m as [| [k0 v0] m IH]; intros k v kv Hin; simpl in Hin.
  - destruct Hin as [H | []]. left. symmetry. exact H.
  - destruct (String.eqb k0 k).
    + destruct Hin as [H | H]; [left; symmetry; exact H | right; right; exact H].
    + destruct Hin as [H | H]; [right; left; exact H |].
      destruct (IH k v kv H) as [He | Hi]; [left; exact He | right; right; exact Hi].
Qed.

Lemma mapSet_keeps : forall (V : Type) (m : gomap V) k v kv,
  In kv m -> fst kv <> k -> In kv (mapSet m k v).
Proof.
  induction m as [| [k0 v0] m IH]; intros k v kv Hin Hne; simpl.
  - destruct Hin.
  - destruct (String.eqb k0 k) eqn:Hk.
    + destruct Hin as [H | H].
      * apply String.eqb_eq in Hk. subst kv. simpl in Hne. contradiction.
      * right. exact H.
    + destruct Hin as [H | H]; [left; exact H | right; apply IH; assumption].
Qed.

Lemma mapSet_In : forall (V : Type) (m : gomap V) k v, In (k, v) (mapSet m k v).
Proof.
  induction m as [| [k0 v0] m IH]; intros k v; simpl.
  - left. reflexivity.
  - destruct (String.eqb k0 k); [left; reflexivity | right; apply IH].
Qed.

Lemma mapSet_keys : forall (V : Type) (m : gomap V) k v x,
  In x (map fst (mapSet m k v)) -> x = k \/ In x (map fst m).
Proof.
  induction m as [| [k0 v0] m IH]; intros k v x Hin; simpl in Hin.
  - destruct Hin as [H | []]. left. symmetry. exact H.
  - destruct (String.eqb k0 k) eqn:Hk; simpl in Hin.
    + destruct Hin as [H | H]; [left; symmetry; exact H | right; right; exact H].
    + destruct Hin as [H | H]; [right; left; exact H |].
      destruct (IH k v x H) as [He | Hi]; [left; exact He | right; right; exact Hi].
Qed.

Lemma mapSet_NoDup : forall (V : Type) (m : gomap V) k v,
  NoDup (map fst m) -> NoDup (map fst (mapSet m k v)).
Proof.
  induction m as [| [k0 v0] m IH]; intros k v Hnd; simpl.
  - constructor; [intros [] | constructor].
  - inversion Hnd as [| x l Hnotin Hnd']; subst.
    destruct (String.eqb k0 k) eqn:Hk; simpl.
    + apply String.eqb_eq in Hk. subst k0. constructor; assumption.
    + constructor; [| apply IH; exact Hnd'].
      intro Hin. destruct (mapSet_keys _ m k v k0 Hin) as [He | Hi].
      * apply String.eqb_neq in Hk. apply Hk. exact He.
      * contradiction.
Qed.

Lemma forallb_false_exists : forall (A : Type) (f : A -> bool) (l : list A),
  forallb f l = false -> exists x, In x l /\ f x = false.
Proof.
  induction l as [| a l IH]; intro H; simpl in H.
  - discriminate H.
  - destruct (f a) eqn:Hfa.
    + destruct (IH H) as [x [Hin Hx]]. exists x. split; [right; exact Hin | exact Hx].
    + exists a. split; [left; reflexivity | exact Hfa].
Qed.

Lemma len_app_one : forall (A : Type) (l : list A) (a : A),
  len (l ++ [a]) = len l + 1.
Proof.
  intros A l a. unfold len. rewrite List.length_app, Nat2Z.inj_add. simpl. lia.
Qed.

Lemma len_cons : forall (A : Type) (a : A) (l : list A), len (a :: l) = 1 + len l.
Proof.
  intros A a l. unfold len. change (List.length (a :: l)) with (S (List.length l)).
  rewrite Nat2Z.inj_succ. lia.
Qed.

Section MoreParseFacts.
Import sinks.
Context {W : Type} (env : Env W).

(** *** No panic without a bad [epoch_ns] *)

Lemma scanRow_ok : forall dataRow r,
  forallb epochFieldOk dataRow = true ->
  exists r', scanRow env dataRow r = Normal r'.
Proof.
  induction dataRow as [| [k v] rest IH]; intros r H; simpl in H |- *.
  - exists r. reflexivity.
  - apply andb_true_iff in H. destruct H as [Hkv Hrest].
    destruct (isNil v || isEmptyString v) eqn:Hskip; [apply IH; exact Hrest |].
    destruct (String.eqb k epochColumnName) eqn:Hk.
    + unfold epochFieldOk in Hkv. simpl in Hkv. rewrite Hk in Hkv. simpl in Hkv.
      destruct v; simpl in *; try discriminate; try (apply IH; exact Hrest).
      rewrite Hkv in Hskip. discriminate Hskip.
    + destruct (strings_HasPrefix k tagPrefix); apply IH; exact Hrest.
Qed.

Lemma processRow_ok : forall msg dataRow sb,
  forallb epochFieldOk dataRow = true ->
  exists sb', processRow env msg dataRow sb = Normal sb'.
Proof.
  intros msg dataRow [s b] H. unfold processRow.
  destruct (scanRow_ok dataRow
              (mkRowScan 0 (copyCustomTags env (metrics.CustomTags msg) []) []) H)
    as [r Hr].
  rewrite Hr. destruct (epochNs r =? 0).
  - destruct (now env s) as [s1 t].
    destruct (MetricSchema (pgw s)); eexists; reflexivity.
  - destruct (MetricSchema (pgw s)); eexists; reflexivity.
Qed.

Lemma processRows_ok : forall msg rows sb,
  forallb (forallb epochFieldOk) rows = true ->
  exists sb', processRows env msg rows sb = Normal sb'.
Proof.
  induction rows as [| row rest IH]; intros sb H; simpl in H.
  - exists sb. reflexivity.
  - apply andb_true_iff in H. destruct H as [Hrow Hrest].
    cbn [processRows].
    destruct (processRow_ok msg row sb Hrow) as [sb1 H1]. rewrite H1.
    apply IH. exact Hrest.
Qed.

Lemma processMsgs_ok : forall msgs sb,
  epochsOk msgs = true ->
  exists sb', processMsgs env msgs sb = Normal sb'.
Proof.
  induction msgs as [| m rest IH]; intros sb H; unfold epochsOk in H; simpl in H.
  - exists sb. reflexivity.
  - apply andb_true_iff in H. destruct H as [Hm Hrest].
    rewrite processMsgs_cons.
    destruct (processRows_ok m (metrics.Data m) sb Hm) as [sb1 H1]. rewrite H1.
    destruct (metrics.Data m); apply IH; exact Hrest.
Qed.

Lemma epochFieldOk_false : forall k v,
  epochFieldOk (k, v) = false ->
  k = epochColumnName /\ isNil v = false /\ isEmptyString v = false /\
  (forall n, v <> AInt64 n).
Proof.
  intros k v H. unfold epochFieldOk in H. simpl in H.
  apply orb_false_iff in H. destruct H as [Hk Hv].
  apply negb_false_iff in Hk. apply String.eqb_eq in Hk.
  split; [exact Hk |].
  destruct v; simpl in *; try discriminate Hv;
    repeat split; try reflexivity; try exact Hv; intros n0 Hn; discriminate Hn.
Qed.

Lemma flush_not_panicked : forall b (s : State W) why,
  flush env b s <> Panicked why.
Proof.
  intros b s why. unfold flush.
  destruct (ensureStep env b s) as [s1 [e |]]; simpl; discriminate.
Qed.

(** *** Every row is batched *)

Lemma entryCount_mapSet : forall store name (e : MeasurementMessagePostgres),
  entryCount
    (mapSet store name
       (match mapGet store name with Some a => a | None => [] end ++ [e]))
  = entryCount store + 1.
Proof.
  induction store as [| [k ms] rest IH]; intros name e; simpl.
  - rewrite len_cons. unfold len. simpl. lia.
  - destruct (String.eqb k name) eqn:Hk; simpl.
    + rewrite len_app_one. lia.
    + rewrite IH. lia.
Qed.

Lemma processRow_counts : forall msg dataRow s b s1 b1,
  processRow env msg dataRow (s, b) = Normal (s1, b1) ->
  rowsBatched b1 = rowsBatched b + 1 /\
  totalRows b1 = totalRows b + 1 /\
  entryCount (metricsToStorePerMetric b1)
    = entryCount (metricsToStorePerMetric b) + 1.
Proof.
  intros msg dataRow s b s1 b1 H. unfold processRow in H.
  destruct (scanRow env dataRow _) as [r | why]; [| discriminate H].
  destruct (if epochNs r =? 0 then now env s else (s, time_Unix0 (epochNs r)))
    as [s' t].
  destruct (MetricSchema (pgw s)); inversion H; subst; simpl;
    rewrite entryCount_mapSet; repeat split; reflexivity.
Qed.

Lemma processRows_counts : forall msg rows s b s1 b1,
  processRows env msg rows (s, b) = Normal (s1, b1) ->
  rowsBatched b1 = rowsBatched b + len rows /\
  totalRows b1 = totalRows b + len rows /\
  entryCount (metricsToStorePerMetric b1)
    = entryCount (metricsToStorePerMetric b) + len rows.
Proof.
  induction rows as [| row rest IH]; intros s b s1 b1 H.
  - inversion H; subst. unfold len. simpl. repeat split; lia.
  - cbn [processRows] in H.
    destruct (processRow env msg row (s, b)) as [[s' b'] | why] eqn:Hr;
      [| discriminate H].
    destruct (processRow_counts _ _ _ _ _ _ Hr) as (H1 & H2 & H3).
    destruct (IH _ _ _ _ H) as (I1 & I2 & I3).
    rewrite len_cons. repeat split; lia.
Qed.

(** X2: The first loop of [write] drops no row: when it ends without a panic,
  the rows it counted as batched, the rows it counted in total and the
  entries it holds for the copy loop are each as many as the rows of the
  batch. *)
Theorem first_loop_batches_every_row :
  forall (msgs : list metrics.MeasurementMessage) (s s1 : State W) (b : Batch),
    processMsgs env msgs (s, emptyBatch) = Normal (s1, b) ->
    rowsBatched b = rowCount msgs /\
    totalRows b = rowCount msgs /\
    entryCount (metricsToStorePerMetric b) = rowCount msgs.
Proof.
  intros msgs s s1 b H.
  assert (G : forall msgs s b0 s1 b,
             processMsgs env msgs (s, b0) = Normal (s1, b) ->
             rowsBatched b = rowsBatched b0 + rowCount msgs /\
             totalRows b = totalRows b0 + rowCount msgs /\
             entryCount (metricsToStorePerMetric b)
               = entryCount (metricsToStorePerMetric b0) + rowCount msgs).
  { clear. induction msgs as [| m rest IH]; intros s b0 s1 b H.
    - inversion H; subst. simpl. repeat split; lia.
    - rewrite processMsgs_cons in H. cbn [rowCount].
      destruct (metrics.Data m) as [| row rows] eqn:Hd.
      + destruct (IH _ _ _ _ H) as (I1 & I2 & I3).
        replace (len (@nil (gomap any))) with 0 by reflexivity.
        repeat split; lia.
      + destruct (processRows env m (row :: rows) (s, b0)) as [[s' b'] | why] eqn:Hr;
          [| discriminate H].
        destruct (processRows_counts _ _ _ _ _ _ Hr) as (H1 & H2 & H3).
        destruct (IH _ _ _ _ H) as (I1 & I2 & I3).
        repeat split; lia. }
  destruct (G msgs s emptyBatch s1 b H) as (G1 & G2 & G3).
  simpl in G1, G2, G3. repeat split; lia.
Qed.

End MoreParseFacts.

Section BoundsFacts.
Import sinks.
Context {W : Type} (env : Env W).

(** *** The bounds cover the rows *)









End BoundsFacts.

Section PayloadFacts.
Import sinks.
Context {W : Type} (env : Env W).

(** *** What goes into the payload and into the tags *)

Lemma scanRow_fields_sound : forall dataRow r r' kv,
  scanRow env dataRow r = Normal r' ->
  In kv (fields r') ->
  In kv (fields r) \/ (In kv dataRow /\ payloadField kv = true).
Proof.
  induction dataRow as [| [k v] rest IH]; intros r r' kv H Hin; simpl in H.
  - inversion H; subst. left. exact Hin.
  - destruct (isNil v || isEmptyString v) eqn:Hskip.
    + destruct (IH _ _ _ H Hin) as [Hl | [Hr Hp]];
        [left; exact Hl | right; split; [right; exact Hr | exact Hp]].
    + destruct (String.eqb k epochColumnName) eqn:Hk.
      * destruct (assertInt64 v) as [n | why]; [| discriminate H].
        destruct (IH _ _ _ H Hin) as [Hl | [Hr Hp]];
          [left; exact Hl | right; split; [right; exact Hr | exact Hp]].
      * destruct (strings_HasPrefix k tagPrefix) eqn:Ht.
        -- destruct (IH _ _ _ H Hin) as [Hl | [Hr Hp]];
             [left; exact Hl | right; split; [right; exact Hr | exact Hp]].
        -- destruct (IH _ _ _ H Hin) as [Hl | [Hr Hp]].
           ++ simpl in Hl. destruct (In_mapSet _ _ _ _ _ Hl) as [He | Hold].
              ** subst kv. right. split; [left; reflexivity |].
                 unfold payloadField, nullOrEmpty. simpl.
                 rewrite Hskip, Hk, Ht. reflexivity.
              ** left. exact Hold.
           ++ right. split; [right; exact Hr | exact Hp].
Qed.

Lemma scanRow_fields_keep : forall dataRow r r' kv,
  scanRow env dataRow r = Normal r' ->
  In kv (fields r) ->
  ~ In (fst kv) (map fst dataRow) ->
  In kv (fields r').
Proof.
  induction dataRow as [| [k v] rest IH]; intros r r' kv H Hin Hnot; simpl in H.
  - inversion H; subst. exact Hin.
  - simpl in Hnot.
    assert (Hk : fst kv <> k) by (intro He; apply Hnot; left; symmetry; exact He).
    assert (Hrest : ~ In (fst kv) (map fst rest))
      by (intro Hi; apply Hnot; right; exact Hi).
    destruct (isNil v || isEmptyString v); [eapply IH; eassumption |].
    destruct (String.eqb k epochColumnName).
    + destruct (assertInt64 v) as [n | why]; [| discriminate H].
      eapply IH; [exact H | exact Hin | exact Hrest].
    + destruct (strings_HasPrefix k tagPrefix).
      * eapply IH; [exact H | exact Hin | exact Hrest].
      * eapply IH; [exact H | | exact Hrest]. simpl.
        apply mapSet_keeps; assumption.
Qed.

Lemma scanRow_fields_complete : forall dataRow r r' kv,
  NoDup (map fst dataRow) ->
  scanRow env dataRow r = Normal r' ->
  In kv dataRow ->
  payloadField kv = true ->
  In kv (fields r').
Proof.
  induction dataRow as [| [k v] rest IH]; intros r r' kv Hnd H Hin Hp.
  - destruct Hin.
  - inversion Hnd as [| x l Hnotin Hnd']; subst. simpl in H.
    destruct Hin as [Hhd | Htl].
    + subst kv. unfold payloadField, nullOrEmpty in Hp. simpl in Hp.
      apply andb_true_iff in Hp. destruct Hp as [Hp Htag].
      apply andb_true_iff in Hp. destruct Hp as [Hskip Hepoch].
      apply negb_true_iff in Hskip, Hepoch, Htag.
      rewrite Hskip, Hepoch, Htag in H.
      eapply scanRow_fields_keep; [exact H | | exact Hnotin].
      simpl. apply mapSet_In.
    + destruct (isNil v || isEmptyString v); [eapply IH; eassumption |].
      destruct (String.eqb k epochColumnName).
      * destruct (assertInt64 v) as [n | why]; [| discriminate H].
        eapply IH; eassumption.
      * destruct (strings_HasPrefix k tagPrefix); eapply IH; eassumption.
Qed.

Lemma copyCustomTags_strings : forall customTags tags,
  Forall (fun kv => isStringValue kv = true) tags ->
  Forall (fun kv => isStringValue kv = true) (copyCustomTags env customTags tags).
Proof.
  induction customTags as [| [k v] rest IH]; intros tags H; simpl.
  - exact H.
  - apply IH. apply Forall_forall. intros kv Hin.
    destruct (In_mapSet _ _ _ _ _ Hin) as [He | Hold].
    + subst kv. reflexivity.
    + rewrite Forall_forall in H. apply H. exact Hold.
Qed.

Lemma scanRow_tags_strings : forall dataRow r r',
  Forall (fun kv => isStringValue kv = true) (tags r) ->
  scanRow env dataRow r = Normal r' ->
  Forall (fun kv => isStringValue kv = true) (tags r').
Proof.
  induction dataRow as [| [k v] rest IH]; intros r r' Ht H; simpl in H.
  - inversion H; subst. exact Ht.
  - destruct (isNil v || isEmptyString v); [eapply IH; eassumption |].
    destruct (String.eqb k epochColumnName).
    + destruct (assertInt64 v) as [n | why]; [| discriminate H].
      eapply IH; [| exact H]. exact Ht.
    + destruct (strings_HasPrefix k tagPrefix).
      * eapply IH; [| exact H]. simpl. apply Forall_forall. intros kv Hin.
        destruct (In_mapSet _ _ _ _ _ Hin) as [He | Hold].
        -- subst kv. reflexivity.
        -- rewrite Forall_forall in Ht. apply Ht. exact Hold.
      * eapply IH; [| exact H]. exact Ht.
Qed.

(** X4: For a row as a Go map gives it (each field name once), the payload of
  the stored entry holds exactly the fields of the row that have a value
  (not nil, not the empty string) and are neither the epoch column nor a
  tag column, unchanged; and every tag of the entry, custom or from the
  row, is a string. *)
Theorem payload_and_tags_of_a_row :
  forall (msg : metrics.MeasurementMessage) (dataRow : gomap any) (r : RowScan),
    NoDup (map fst dataRow) ->
    scanRow env dataRow
      (mkRowScan 0 (copyCustomTags env (metrics.CustomTags msg) []) [])
      = Normal r ->
    (forall kv, In kv (fields r) <-> In kv dataRow /\ payloadField kv = true) /\
    Forall (fun kv => isStringValue kv = true) (tags r).
Proof.
  intros msg dataRow r Hnd H. split.
  - intro kv. split.
    + intro Hin. destruct (scanRow_fields_sound _ _ _ _ H Hin) as [[] | Hr].
      exact Hr.
    + intros [Hin Hp]. eapply scanRow_fields_complete; eassumption.
  - eapply scanRow_tags_strings; [| exact H]. simpl.
    apply copyCustomTags_strings. constructor.
Qed.

End PayloadFacts.

Lemma first_loop_batches_every_row_witness :
  exists s1 b,
    sinks.processMsgs Examples.E Examples.batchTwoRows
      (Examples.writer None sinks.DbStorageSchemaPostgres [], sinks.emptyBatch)
      = sinks.Normal (s1, b) /\
    sinks.rowsBatched b = 2 /\
    sinks.totalRows b = 2 /\
    sinks.entryCount (sinks.metricsToStorePerMetric b) = 2.
Proof.
  eexists. eexists. split; [reflexivity |].
  eapply (first_loop_batches_every_row Examples.E Examples.batchTwoRows
            (Examples.writer None sinks.DbStorageSchemaPostgres [])).
  reflexivity.
Defined.


Lemma payload_and_tags_of_a_row_witness :
  let dataRow :=
    [("epoch_ns", AInt64 1700000000000000000); ("numbackends", AInt64 10);
     ("tag_host", AString "h"); ("note", AString ""); ("lag", ANil)] in
  exists r,
    sinks.scanRow Examples.E dataRow (sinks.mkRowScan 0 [] []) = sinks.Normal r /\
    sinks.fields r = [("numbackends", AInt64 10)] /\
    (forall kv,
       In kv (sinks.fields r) <->
       In kv dataRow /\ sinks.payloadField kv = true) /\
    Forall (fun kv => sinks.isStringValue kv = true) (sinks.tags r).
Proof.
  intro dataRow. eexists. split; [reflexivity |]. split; [reflexivity |].
  apply (payload_and_tags_of_a_row Examples.E
           (metrics.mkMessage "t1" "db_stats" [dataRow] []) dataRow).
  - repeat constructor; simpl; intuition discriminate.
  - reflexivity.
Defined.

(* ------------------------------------------------------------------ *)
(** ** What each part of a pass leaves alone *)

(** Split on an innermost scrutinee of the goal. *)
Ltac split_innermost :=
  match goal with
  | |- context [match ?x with _ => _ end] =>
      lazymatch x with
      | context [match _ with _ => _ end] => fail
      | _ => destruct x
      end
  end.

Ltac unfold_sink_calls :=
  unfold sinks.sink_Exec, sinks.sink_QueryRow_bool, sinks.sink_QueryRow_partInfo,
    sinks.sink_QueryRow_time, sinks.sink_Query_CollectOneRow, sinks.sink_CopyFrom,
    conn_Exec, conn_QueryRow_bool, conn_QueryRow_partInfo, conn_QueryRow_time,
    conn_Query_CollectOneRow, conn_CopyFrom, sinks.now.

Ltac by_cases := unfold_sink_calls; repeat (split_innermost; simpl); reflexivity.

Section FrameFacts.
Import sinks.
Context {W : Type} (env : Env W).

(** The loops that build on a per-entry step keep what the step keeps. *)
Lemma ensureDbnames_keeps : forall (A : Type) (f : State W -> A),
  (forall metric dbname pb force s,
     f (fst (ensureDbnameEntry env metric dbname pb force s)) = f s) ->
  forall metric l force s, f (fst (ensureDbnames env metric l force s)) = f s.
Proof.
  intros A f Hstep metric. induction l as [| [d p] rest IH]; intros force s; simpl.
  - reflexivity.
  - pose proof (Hstep metric d p force s) as He.
    destruct (ensureDbnameEntry env metric d p force s) as [s1 [e |]]; simpl in *.
    + exact He.
    + rewrite IH. exact He.
Qed.

Lemma EnsureMetricTime_keeps : forall (A : Type) (f : State W -> A),
  (forall metric pb force s, f (fst (ensureTimeEntry env metric pb force s)) = f s) ->
  forall bounds force s, f (fst (EnsureMetricTime env bounds force s)) = f s.
Proof.
  intros A f Hstep. induction bounds as [| [m p] rest IH]; intros force s; simpl.
  - reflexivity.
  - pose proof (Hstep m p force s) as He.
    destruct (ensureTimeEntry env m p force s) as [s1 [e |]]; simpl in *.
    + exact He.
    + rewrite IH. exact He.
Qed.

Lemma copyMetrics_keeps : forall (A : Type) (f : State W -> A),
  (forall metricName m s, f (copyOne env metricName m s) = f s) ->
  forall store s, f (copyMetrics env store s) = f s.
Proof.
  intros A f Hstep.
  assert (Hrows : forall metricName ms s, f (copyRows env metricName ms s) = f s).
  { intros metricName. induction ms as [| m rest IH]; intros s; simpl.
    - reflexivity.
    - rewrite IH. apply Hstep. }
  induction store as [| [name ms] rest IH]; intros s; simpl.
  - reflexivity.
  - rewrite IH. apply Hrows.
Qed.

(** *** The partition manager and the flag, the counters, the channel *)

Lemma ensureDbnameEntry_frame : forall metric dbname pb force s,
  (frameOf (fst (ensureDbnameEntry env metric dbname pb force s)),
   gaugesOf (fst (ensureDbnameEntry env metric dbname pb force s)))
  = (frameOf s, gaugesOf s).
Proof.
  intros. unfold frameOf, gaugesOf, ensureDbnameEntry, ensureDbnameStart,
    ensureDbnameEnd.
  by_cases.
Qed.

Lemma ensureTimeEntry_frame : forall metric pb force s,
  (frameOf (fst (ensureTimeEntry env metric pb force s)),
   gaugesOf (fst (ensureTimeEntry env metric pb force s)))
  = (frameOf s, gaugesOf s).
Proof.
  intros. unfold frameOf, gaugesOf, ensureTimeEntry. by_cases.
Qed.

Lemma EnsureMetricDbnameTime_frame : forall bounds force s,
  (frameOf (fst (EnsureMetricDbnameTime env bounds force s)),
   gaugesOf (fst (EnsureMetricDbnameTime env bounds force s)))
  = (frameOf s, gaugesOf s).
Proof.
  induction bounds as [| [m i] rest IH]; intros force s; simpl.
  - reflexivity.
  - match goal with
    | |- context [ensureDbnames env m i force ?s0] =>
        assert (H0 : (frameOf s0, gaugesOf s0) = (frameOf s, gaugesOf s))
          by (destruct (mapGet (partitionMapMetricDbname (vars s)) m);
              reflexivity);
        pose proof (ensureDbnames_keeps _ (fun x => (frameOf x, gaugesOf x))
                      ensureDbnameEntry_frame m i force s0) as He;
        destruct (ensureDbnames env m i force s0) as [s1 [e |]]
    end; simpl in *.
    + rewrite He. exact H0.
    + rewrite IH, He. exact H0.
Qed.

Lemma ensureTimescaleTables_frame : forall bounds s,
  (frameOf (fst (ensureTimescaleTables env bounds s)),
   gaugesOf (fst (ensureTimescaleTables env bounds s)))
  = (frameOf s, gaugesOf s).
Proof.
  induction bounds as [| [m p] rest IH]; intros s; simpl.
  - reflexivity.
  - destruct (strings_HasSuffix m "_realtime"); [apply IH |].
    destruct (mapGet (partitionMapMetric (vars s)) m); [apply IH |].
    unfold sink_Exec, conn_Exec.
    destruct (Exec (pool env) sqlEnsureTimescale [ArgString m]
                (world (SinkDb (pgw s)))) as [w [msg |]]; simpl.
    + reflexivity.
    + rewrite IH. reflexivity.
Qed.

Lemma ensureStep_frame : forall b s,
  (frameOf (fst (ensureStep env b s)), gaugesOf (fst (ensureStep env b s)))
  = (frameOf s, gaugesOf s).
Proof.
  intros b s. unfold ensureStep. destruct (MetricSchema (pgw s)).
  - apply EnsureMetricDbnameTime_frame.
  - unfold EnsureMetricTimescale.
    pose proof (ensureTimescaleTables_frame (pgPartBounds b) s) as Ht.
    destruct (ensureTimescaleTables env (pgPartBounds b) s) as [s1 [e |]];
      simpl in *.
    + exact Ht.
    + rewrite (EnsureMetricTime_keeps _ (fun x => (frameOf x, gaugesOf x))
                 ensureTimeEntry_frame).
      exact Ht.
Qed.

(** *** The copy loop and the caches, the channel *)

Lemma copyOne_frame : forall metricName m s,
  (frameOf (copyOne env metricName m s), cachesOf (copyOne env metricName m s))
  = (frameOf s, cachesOf s).
Proof.
  intros. unfold frameOf, cachesOf, copyOne, getTagData. by_cases.
Qed.

Lemma copyMetrics_frame : forall store s,
  (frameOf (copyMetrics env store s), cachesOf (copyMetrics env store s))
  = (frameOf s, cachesOf s).
Proof.
  apply (copyMetrics_keeps _ (fun x => (frameOf x, cachesOf x))).
  apply copyOne_frame.
Qed.

(** *** The error on offer *)

Lemma ensureDbnameEntry_offer : forall metric dbname pb force s,
  lastError (pgw (fst (ensureDbnameEntry env metric dbname pb force s)))
  = lastError (pgw s).
Proof.
  intros. unfold ensureDbnameEntry, ensureDbnameStart, ensureDbnameEnd.
  by_cases.
Qed.

Lemma ensureTimeEntry_offer : forall metric pb force s,
  lastError (pgw (fst (ensureTimeEntry env metric pb force s)))
  = lastError (pgw s).
Proof.
  intros. unfold ensureTimeEntry. by_cases.
Qed.

Lemma EnsureMetricDbnameTime_offer : forall bounds force s,
  lastError (pgw (fst (EnsureMetricDbnameTime env bounds force s)))
  = lastError (pgw s).
Proof.
  induction bounds as [| [m i] rest IH]; intros force s; simpl.
  - reflexivity.
  - match goal with
    | |- context [ensureDbnames env m i force ?s0] =>
        assert (H0 : lastError (pgw s0) = lastError (pgw s))
          by (destruct (mapGet (partitionMapMetricDbname (vars s)) m);
              reflexivity);
        pose proof (ensureDbnames_keeps _ (fun x => lastError (pgw x))
                      ensureDbnameEntry_offer m i force s0) as He;
        destruct (ensureDbnames env m i force s0) as [s1 [e |]]
    end; simpl in *.
    + rewrite He. exact H0.
    + rewrite IH, He. exact H0.
Qed.

Lemma ensureTimescaleTables_offer : forall bounds s,
  lastError (pgw (fst (ensureTimescaleTables env bounds s))) = lastError (pgw s).
Proof.
  induction bounds as [| [m p] rest IH]; intros s; simpl.
  - reflexivity.
  - destruct (strings_HasSuffix m "_realtime"); [apply IH |].
    destruct (mapGet (partitionMapMetric (vars s)) m); [apply IH |].
    unfold sink_Exec, conn_Exec.
    destruct (Exec (pool env) sqlEnsureTimescale [ArgString m]
                (world (SinkDb (pgw s)))) as [w [msg |]]; simpl.
    + reflexivity.
    + rewrite IH. reflexivity.
Qed.

Lemma ensureStep_offer : forall b s,
  lastError (pgw (fst (ensureStep env b s))) = lastError (pgw s).
Proof.
  intros b s. unfold ensureStep. destruct (MetricSchema (pgw s)).
  - apply EnsureMetricDbnameTime_offer.
  - unfold EnsureMetricTimescale.
    pose proof (ensureTimescaleTables_offer (pgPartBounds b) s) as Ht.
    destruct (ensureTimescaleTables env (pgPartBounds b) s) as [s1 [e |]];
      simpl in *.
    + exact Ht.
    + rewrite (EnsureMetricTime_keeps _ (fun x => lastError (pgw x))
                 ensureTimeEntry_offer).
      exact Ht.
Qed.

Lemma copyOne_offer : forall metricName m s,
  lastError (pgw (copyOne env metricName m s)) = lastError (pgw s).
Proof.
  intros. unfold copyOne, getTagData. by_cases.
Qed.

Lemma copyMetrics_offer : forall store s,
  lastError (pgw (copyMetrics env store s)) = lastError (pgw s).
Proof.
  apply (copyMetrics_keeps _ (fun x => lastError (pgw x))).
  apply copyOne_offer.
Qed.

(** X5: The partition manager changes neither the force-recreate flag nor the
  counters, and the copy loop changes neither of the partition caches,
  whatever the store answers; neither touches the context, the storage
  mode, the ingestion channel or the error on offer on [lastError]. *)
Theorem ensure_and_copy_keep_apart :
  forall (b : Batch) (s : State W),
    gaugesOf (fst (ensureStep env b s)) = gaugesOf s /\
    frameOf (fst (ensureStep env b s)) = frameOf s /\
    lastError (pgw (fst (ensureStep env b s))) = lastError (pgw s) /\
    cachesOf (copyMetrics env (metricsToStorePerMetric b) s) = cachesOf s /\
    frameOf (copyMetrics env (metricsToStorePerMetric b) s) = frameOf s /\
    lastError (pgw (copyMetrics env (metricsToStorePerMetric b) s))
      = lastError (pgw s).
Proof.
  intros b s.
  pose proof (ensureStep_frame b s) as He.
  pose proof (copyMetrics_frame (metricsToStorePerMetric b) s) as Hc.
  pose proof (f_equal fst He) as He1. pose proof (f_equal snd He) as He2.
  pose proof (f_equal fst Hc) as Hc1. pose proof (f_equal snd Hc) as Hc2.
  cbn [fst snd] in He1, He2, Hc1, Hc2.
  split; [exact He2 |]. split; [exact He1 |].
  split; [apply ensureStep_offer |].
  split; [exact Hc2 |]. split; [exact Hc1 |].
  apply copyMetrics_offer.
Qed.

End FrameFacts.

(* ------------------------------------------------------------------ *)
(** ** The copy loop, call by call *)

Section CopyListFacts.
Import sinks.
Context {W : Type} (env : Env W).

Lemma getTagData_column : forall m (s : State W),
  snd (getTagData env m s) = tagColumn env m.
Proof.
  intros m s. unfold getTagData, tagColumn.
  destruct (0 <? len (TagData m)); [| reflexivity].
  destruct (json_Marshal env (TagData m)); reflexivity.
Qed.

Lemma copyOne_calls : forall metricName m (s : State W),
  callsOf (copyOne env metricName m s) = callsOf s ++ copyCalls env metricName [m].
Proof.
  intros metricName m s. simpl.
  destruct (json_Marshal env (Data m)) as [jsonBytes | msg] eqn:Hj.
  - rewrite (copyOne_calls_ok env metricName m s jsonBytes Hj), getTagData_column.
    reflexivity.
  - unfold copyOne. rewrite Hj. rewrite app_nil_r. reflexivity.
Qed.

Lemma copyCalls_cons : forall metricName m rest,
  copyCalls env metricName (m :: rest)
  = copyCalls env metricName [m] ++ copyCalls env metricName rest.
Proof.
  intros metricName m rest. simpl.
  destruct (json_Marshal env (Data m)); reflexivity.
Qed.

Lemma copyOne_dropped : forall metricName m (s : State W),
  totalMetricsDroppedCounter (vars (copyOne env metricName m s))
  = match json_Marshal env (Data m) with
    | Ok _ => totalMetricsDroppedCounter (vars s)
    | Err _ => AddUint64 (totalMetricsDroppedCounter (vars s)) 1
    end.
Proof.
  intros metricName m s. unfold copyOne, getTagData.
  destruct (json_Marshal env (Data m)); [| reflexivity].
  by_cases.
Qed.

Lemma copyRows_calls : forall metricName ms (s : State W),
  callsOf (copyRows env metricName ms s) = callsOf s ++ copyCalls env metricName ms.
Proof.
  intros metricName. induction ms as [| m rest IH]; intros s.
  - simpl. rewrite app_nil_r. reflexivity.
  - cbn [copyRows]. rewrite IH, copyOne_calls.
    rewrite (copyCalls_cons metricName m rest), app_assoc. reflexivity.
Qed.

Lemma copyRows_dropped : forall metricName ms (s : State W),
  totalMetricsDroppedCounter (vars (copyRows env metricName ms s)) mod uint64_max
  = (totalMetricsDroppedCounter (vars s) + unmarshalable env ms) mod uint64_max.
Proof.
  intros metricName. induction ms as [| m rest IH]; intros s.
  - simpl. rewrite Z.add_0_r. reflexivity.
  - cbn [copyRows unmarshalable]. rewrite IH, copyOne_dropped.
    destruct (json_Marshal env (Data m)); [reflexivity |].
    unfold AddUint64. rewrite Zplus_mod_idemp_l. f_equal. lia.
Qed.

(** X6: The copy loop issues one copy call for each row whose payload marshals,
  and no other call: in the order of the rows, with the four fixed columns,
  one row per call, the metric's name as the table and the marshalled tags
  (or null) as [tag_data].  The drop counter advances, modulo 2^64, by the
  number of rows whose payload does not marshal.  Failing copies do not
  change which calls follow. *)
Theorem copy_loop_calls :
  forall (store : gomap (list MeasurementMessagePostgres))
         (metricName : string) (ms : list MeasurementMessagePostgres)
         (s : State W),
    callsOf (copyMetrics env store s)
      = callsOf s ++ flat_map (fun p => copyCalls env (fst p) (snd p)) store /\
    callsOf (copyRows env metricName ms s)
      = callsOf s ++ copyCalls env metricName ms /\
    totalMetricsDroppedCounter (vars (copyRows env metricName ms s))
      mod uint64_max
      = (totalMetricsDroppedCounter (vars s) + unmarshalable env ms)
        mod uint64_max.
Proof.
  intros store metricName ms s. split; [| split].
  - revert s. induction store as [| [name rows] rest IH]; intros s.
    + simpl. rewrite app_nil_r. reflexivity.
    + cbn [copyMetrics flat_map fst snd]. rewrite IH, copyRows_calls, app_assoc.
      reflexivity.
  - apply copyRows_calls.
  - apply copyRows_dropped.
Qed.

(** *** A batch of messages without rows *)

Lemma processMsgs_no_rows : forall msgs (sb : State W * Batch),
  (forall msg, In msg msgs -> metrics.Data msg = []) ->
  processMsgs env msgs sb = Normal sb.
Proof.
  induction msgs as [| m rest IH]; intros sb H.
  - reflexivity.
  - rewrite processMsgs_cons. rewrite (H m (or_introl eq_refl)).
    apply IH. intros msg Hin. apply H. right. exact Hin.
Qed.

(** X7: A batch whose messages carry no rows reaches the partition manager with
  empty bounds: the pass returns without a single call on the store and
  leaves the caches and the counters as they were, and yet it resets the
  force-recreate flag.  A flag raised by the flush before is used up by
  such a batch without any partition being ensured again. *)
Theorem rowless_batch_uses_up_the_flag :
  forall (msgs : list metrics.MeasurementMessage) (s : State W),
    msgs <> [] ->
    (forall msg, In msg msgs -> metrics.Data msg = []) ->
    exists s',
      write env msgs s = Done s' /\
      callsOf s' = callsOf s /\
      forceRecreatePGMetricPartitions (vars s') = false /\
      cachesOf s' = cachesOf s /\
      datastoreWriteFailuresCounter (vars s')
        = datastoreWriteFailuresCounter (vars s) /\
      totalMetricsDroppedCounter (vars s') = totalMetricsDroppedCounter (vars s).
Proof.
  intros msgs s Hne Hrows. exists (afterEnsure None s).
  split.
  - unfold write. destruct msgs as [| m rest]; [contradiction |].
    rewrite (processMsgs_no_rows (m :: rest) (s, emptyBatch) Hrows).
    unfold flush, ensureStep. simpl.
    destruct (MetricSchema (pgw s)); reflexivity.
  - unfold afterEnsure.
    destruct (forceRecreatePGMetricPartitions (vars s)) eqn:Hf; simpl;
      repeat split; try reflexivity; exact Hf.
Qed.

End CopyListFacts.

Lemma rowless_batch_uses_up_the_flag_witness :
  let s := sinks.with_force true
             (Examples.writer None sinks.DbStorageSchemaPostgres
                [pgxmock.ExpectQuery (Ok Examples.covering)]) in
  let msgs := [metrics.mkMessage "t1" "wal" [] []] in
  exists s',
    sinks.write Examples.E msgs s = sinks.Done s' /\
    sinks.callsOf s' = [] /\
    sinks.forceRecreatePGMetricPartitions (sinks.vars s') = false.
Proof.
  intros s msgs.
  destruct (rowless_batch_uses_up_the_flag Examples.E msgs s) as (s' & Hw & Hc & Hf & _).
  - discriminate.
  - intros msg [Hm | []]. subst msg. reflexivity.
  - exists s'. split; [exact Hw |]. split; [exact Hc | exact Hf].
Defined.

(* ------------------------------------------------------------------ *)
(** ** The channel: [Write] on one side, [poll] on the other *)

Section ChannelFacts.
Import sinks.
Context {W : Type} (env : Env W).

Lemma Write_enqueues : forall batcherReceives msgs (s : State W),
  Ctx_Err (pgw s) = None ->
  input (pgw (fst (Write batcherReceives msgs s)))
    = input (pgw (enqueue batcherReceives msgs s)) /\
  vars (fst (Write batcherReceives msgs s)) = vars s /\
  SinkDb (pgw (fst (Write batcherReceives msgs s))) = SinkDb (pgw s).
Proof.
  intros br msgs s Hctx. unfold Write. rewrite Hctx.
  assert (He : vars (enqueue br msgs s) = vars s /\
               SinkDb (pgw (enqueue br msgs s)) = SinkDb (pgw s)).
  { unfold enqueue. destruct (len (input (pgw s)) <? cacheLimit);
      [| destruct br]; split; reflexivity. }
  destruct He as [Hv Hd].
  destruct (lastError (pgw (enqueue br msgs s))); simpl;
    repeat split; assumption.
Qed.

(** X8: With room on the channel the batch goes to its end; with a full channel
  that the batcher does not drain in time the batch is dropped and the
  channel is as it was; in no case does the channel grow beyond
  [cacheLimit] batches.  [Write] touches neither the package variables nor
  the pool. *)
Theorem Write_queue_discipline :
  forall (batcherReceives : bool) (msgs : list metrics.MeasurementMessage)
         (s : State W),
    Ctx_Err (pgw s) = None ->
    let s' := fst (Write batcherReceives msgs s) in
    (len (input (pgw s)) < cacheLimit ->
       input (pgw s') = input (pgw s) ++ [msgs]) /\
    (cacheLimit <= len (input (pgw s)) -> batcherReceives = false ->
       input (pgw s') = input (pgw s)) /\
    (len (input (pgw s)) <= cacheLimit -> len (input (pgw s')) <= cacheLimit) /\
    vars s' = vars s /\
    SinkDb (pgw s') = SinkDb (pgw s).
Proof.
  intros br msgs s Hctx s'. subst s'.
  destruct (Write_enqueues br msgs s Hctx) as (Hi & Hv & Hd).
  rewrite Hi. split; [| split; [| split; [| split; assumption]]].
  - intro Hroom. unfold enqueue. apply Z.ltb_lt in Hroom. rewrite Hroom.
    reflexivity.
  - intros Hfull Hbr. unfold enqueue. apply Z.ltb_ge in Hfull.
    rewrite Hfull, Hbr. reflexivity.
  - intro Hbound. unfold enqueue.
    destruct (len (input (pgw s)) <? cacheLimit) eqn:Hroom.
    + apply Z.ltb_lt in Hroom. simpl. rewrite len_app_one. lia.
    + destruct br; [| exact Hbound].
      destruct (input (pgw s)) as [| q0 q].
      * simpl. unfold len, cacheLimit. simpl. lia.
      * simpl. rewrite len_app_one. rewrite len_cons in Hbound. lia.
Qed.

(** X9: [Write] hands back the error a suspended send is offering, if any, and
  in doing so takes it off the channel: a second [Write] right after
  returns nil.  Dropping the batch on overload raises no error of its
  own. *)
Theorem Write_takes_the_pending_error :
  forall (r1 r2 : bool) (msgs msgs' : list metrics.MeasurementMessage)
         (s : State W),
    Ctx_Err (pgw s) = None ->
    snd (Write r1 msgs s) = lastError (pgw s) /\
    lastError (pgw (fst (Write r1 msgs s))) = None /\
    snd (Write r2 msgs' (fst (Write r1 msgs s))) = None.
Proof.
  intros r1 r2 msgs msgs' s Hctx.
  assert (H1 : snd (Write r1 msgs s) = lastError (pgw s) /\
               lastError (pgw (fst (Write r1 msgs s))) = None /\
               Ctx_Err (pgw (fst (Write r1 msgs s))) = None).
  { unfold Write, enqueue. rewrite Hctx.
    destruct (len (input (pgw s)) <? cacheLimit); [| destruct r1];
      simpl; destruct (lastError (pgw s)) eqn:Hl; simpl;
      repeat split; try reflexivity; try exact Hl; exact Hctx. }
  destruct H1 as (Ha & Hb & Hc). split; [exact Ha |]. split; [exact Hb |].
  remember (fst (Write r1 msgs s)) as s1.
  unfold Write, enqueue. rewrite Hc.
  destruct (len (input (pgw s1)) <? cacheLimit); [| destruct r2];
    simpl; rewrite Hb; reflexivity.
Qed.

(** *** A pass that returns leaves the channel alone *)

Lemma now_frame : forall s, frameOf (fst (now env s)) = frameOf s.
Proof.
  intros s. unfold frameOf, now.
  destruct (time_Now env (world (SinkDb (pgw s)))) as [w t]. reflexivity.
Qed.

Lemma processRow_frame : forall msg dataRow s b s1 b1,
  processRow env msg dataRow (s, b) = Normal (s1, b1) -> frameOf s1 = frameOf s.
Proof.
  intros msg dataRow s b s1 b1 H. unfold processRow in H.
  destruct (scanRow env dataRow _) as [r | why]; [| discriminate H].
  pose proof (now_frame s) as Hn.
  destruct (epochNs r =? 0).
  - destruct (now env s) as [s' t]. simpl in Hn.
    destruct (MetricSchema (pgw s)); inversion H; subst; exact Hn.
  - destruct (MetricSchema (pgw s)); inversion H; subst; reflexivity.
Qed.

Lemma processRows_frame : forall msg rows s b s1 b1,
  processRows env msg rows (s, b) = Normal (s1, b1) -> frameOf s1 = frameOf s.
Proof.
  induction rows as [| row rest IH]; intros s b s1 b1 H.
  - inversion H; subst. reflexivity.
  - cbn [processRows] in H.
    destruct (processRow env msg row (s, b)) as [[s' b'] | why] eqn:Hr;
      [| discriminate H].
    rewrite (IH _ _ _ _ H). eapply processRow_frame. exact Hr.
Qed.

Lemma processMsgs_frame : forall msgs s b s1 b1,
  processMsgs env msgs (s, b) = Normal (s1, b1) -> frameOf s1 = frameOf s.
Proof.
  induction msgs as [| m rest IH]; intros s b s1 b1 H.
  - inversion H; subst. reflexivity.
  - rewrite processMsgs_cons in H. destruct (metrics.Data m) as [| row rows].
    + eapply IH. exact H.
    + destruct (processRows env m (row :: rows) (s, b)) as [[s' b'] | why] eqn:Hr;
        [| discriminate H].
      rewrite (IH _ _ _ _ H). eapply processRows_frame. exact Hr.
Qed.

Lemma afterEnsure_frame : forall err (s : State W),
  frameOf (afterEnsure err s) = frameOf s.
Proof.
  intros err s. unfold afterEnsure.
  destruct (forceRecreatePGMetricPartitions (vars s)); destruct err; reflexivity.
Qed.

Lemma write_Done_frame : forall msgs s s',
  write env msgs s = Done s' -> frameOf s' = frameOf s.
Proof.
  intros msgs s s' H. unfold write in H. destruct msgs as [| m rest].
  - inversion H; subst. reflexivity.
  - destruct (processMsgs env (m :: rest) (s, emptyBatch)) as [[s1 b] | why] eqn:Hp;
      [| discriminate H].
    unfold flush in H.
    pose proof (f_equal fst (ensureStep_frame env b s1)) as He.
    destruct (ensureStep env b s1) as [s2 [e |]]; [discriminate H |].
    cbn [fst] in He. inversion H; subst s'.
    pose proof (f_equal fst (copyMetrics_frame env (metricsToStorePerMetric b)
                               (afterEnsure None s2))) as Hc.
    cbn [fst] in Hc.
    change (frameOf (copyMetrics env (metricsToStorePerMetric b)
                       (afterEnsure None s2)) = frameOf s).
    rewrite Hc, afterEnsure_frame, He.
    eapply processMsgs_frame. exact Hp.
Qed.

End ChannelFacts.

Section PollFacts.
Import sinks.
Context {W : Type} (env : Env W).

Lemma write_Done_input : forall msgs s s',
  write env msgs s = Done s' -> input (pgw s') = input (pgw s).
Proof.
  intros msgs s s' H.
  pose proof (f_equal snd (write_Done_frame env msgs s s' H)) as Hf.
  exact Hf.
Qed.

Lemma concat_noteHanded : forall buffer written,
  List.concat (noteHanded (Some buffer) written) = List.concat written ++ buffer.
Proof.
  intros buffer written. simpl. rewrite concat_app. simpl.
  rewrite app_nil_r. reflexivity.
Qed.

Lemma pollTurn_conserves : forall ready cache s handed s1 cache' written,
  pollTurn env ready cache s = Continues handed (Done s1) cache' ->
  List.concat (noteHanded handed written) ++ inFlight cache' s1
    = List.concat written ++ inFlight cache s /\
  (len cache < cacheLimit -> len cache' < cacheLimit).
Proof.
  intros ready cache s handed s1 cache' written H. unfold pollTurn in H.
  destruct (Ctx_Err (pgw s)); [discriminate H |].
  destruct ready; [| | discriminate H].
  - destruct (input (pgw s)) as [| entry q] eqn:Hq.
    + inversion H; subst. split; [reflexivity | intro Hb; exact Hb].
    + destruct (len (cache ++ entry) <? cacheLimit) eqn:Hroom.
      * inversion H; subst. split.
        -- unfold inFlight. simpl. rewrite Hq. simpl.
           rewrite <- !app_assoc. reflexivity.
        -- intros _. apply Z.ltb_lt. exact Hroom.
      * inversion H as [[Hh Hw Hc]]. subst handed cache'.
        pose proof (write_Done_input _ _ _ Hw) as Hi. simpl in Hi.
        split.
        -- rewrite concat_noteHanded. unfold inFlight. rewrite Hi, Hq. simpl.
           rewrite <- !app_assoc. reflexivity.
        -- intros _. unfold len, cacheLimit. simpl. lia.
  - inversion H as [[Hh Hw Hc]]. subst handed cache'.
    pose proof (write_Done_input _ _ _ Hw) as Hi.
    split.
    + rewrite concat_noteHanded. unfold inFlight. rewrite Hi. simpl.
      rewrite <- !app_assoc. reflexivity.
    + intros _. unfold len, cacheLimit. simpl. lia.
Qed.

(** X10: Between the channel and [write] no message is lost, duplicated or
  reordered: over any run of [poll] in which the passes of [write] return,
  the buffers handed to [write], then the buffer, then the batches still on
  the channel make up, in this order, the same sequence of messages as at
  the start.  The buffer carried from one turn to the next stays shorter
  than [cacheLimit].  When [poll] returns on a done context, what is in the
  buffer has not been handed to [write]. *)
Theorem poll_conserves_messages :
  forall (readys : list Ready) (cache : list metrics.MeasurementMessage)
         (s : State W) (written written' : list (list metrics.MeasurementMessage))
         (e : RunEnd) (cache' : list metrics.MeasurementMessage) (s' : State W),
    pollRun env readys cache s written = (e, written') ->
    e = Waiting cache' s' \/ e = Returned cache' s' ->
    List.concat written' ++ inFlight cache' s'
      = List.concat written ++ inFlight cache s /\
    (len cache < cacheLimit -> len cache' < cacheLimit).
Proof.
  induction readys as [| ready rest IH];
    intros cache s written written' e cache' s' Hrun Hend.
  - simpl in Hrun. inversion Hrun; subst.
    destruct Hend as [He | He]; inversion He; subst.
    split; [reflexivity | intro Hb; exact Hb].
  - cbn [pollRun] in Hrun.
    destruct (pollTurn env ready cache s) as [| handed r c1] eqn:Ht.
    + inversion Hrun; subst.
      destruct Hend as [He | He]; inversion He; subst.
      split; [reflexivity | intro Hb; exact Hb].
    + destruct r as [s1 | why | sp ep k].
      * destruct (pollTurn_conserves _ _ _ _ _ _ written Ht) as [Hc Hb].
        destruct (IH _ _ _ _ _ _ _ Hrun Hend) as [Hc' Hb'].
        split; [rewrite Hc', Hc; reflexivity | intro H0; apply Hb', Hb, H0].
      * inversion Hrun; subst. destruct Hend as [He | He]; discriminate He.
      * inversion Hrun; subst. destruct Hend as [He | He]; discriminate He.
Qed.

End PollFacts.

Lemma Write_queue_discipline_witness :
  let s := Examples.writer None sinks.DbStorageSchemaPostgres [] in
  sinks.input (sinks.pgw (fst (sinks.Write false Examples.batch1 s)))
    = [Examples.batch1] /\
  sinks.vars (fst (sinks.Write false Examples.batch1 s)) = sinks.vars s.
Proof.
  intro s.
  destruct (Write_queue_discipline false Examples.batch1 s eq_refl)
    as (Hroom & _ & _ & Hv & _).
  split; [| exact Hv]. apply Hroom. vm_compute. reflexivity.
Defined.

Lemma Write_takes_the_pending_error_witness :
  let s := sinks.with_lastError (Some (DriverError "connection refused"))
             (Examples.writer None sinks.DbStorageSchemaPostgres []) in
  snd (sinks.Write false Examples.batch1 s)
    = Some (DriverError "connection refused") /\
  snd (sinks.Write false Examples.batchNulls
         (fst (sinks.Write false Examples.batch1 s))) = None.
Proof.
  intro s.
  destruct (Write_takes_the_pending_error false false Examples.batch1
              Examples.batchNulls s eq_refl) as (Ha & _ & Hc).
  split; [exact Ha | exact Hc].
Defined.

Lemma poll_conserves_messages_witness :
  let s := sinks.with_input [Examples.batch1; Examples.batchNulls]
             (Examples.writer None sinks.DbStorageSchemaPostgres
                [pgxmock.ExpectQuery (Ok Examples.covering);
                 pgxmock.ExpectCopyFrom None]) in
  exists s' written',
    sinks.pollRun Examples.E [sinks.InputReady; sinks.TickReady; sinks.InputReady]
      [] s [] = (sinks.Waiting Examples.batchNulls s', written') /\
    written' = [Examples.batch1] /\
    List.concat written' ++ sinks.inFlight Examples.batchNulls s'
      = Examples.batch1 ++ Examples.batchNulls.
Proof.
  intro s. eexists. eexists. split; [vm_compute; reflexivity |].
  split; [reflexivity |].
  eapply (poll_conserves_messages Examples.E
            [sinks.InputReady; sinks.TickReady; sinks.InputReady] [] s []).
  - vm_compute. reflexivity.
  - left. reflexivity.
Defined.

(* ------------------------------------------------------------------ *)
(** ** More on the partition manager *)

Section CacheFacts.
Import sinks.
Context {W : Type} (env : Env W).

(** *** Plain mode: a covered batch costs no call *)

Lemma ensureDbnameEntry_hit : forall metric dbname pb c (s : State W),
  hasZeroBound pb = false ->
  cachedDbname s metric dbname = Some c ->
  StartTime c <= StartTime pb ->
  EndTime pb < EndTime c ->
  ensureDbnameEntry env metric dbname pb false s = (s, None).
Proof.
  intros metric dbname pb c s Hz Hc Hs He.
  unfold ensureDbnameEntry. unfold hasZeroBound in Hz. rewrite Hz.
  unfold ensureDbnameStart. rewrite Hc. unfold Before. simpl.
  assert (H1 : (StartTime pb <? StartTime c) = false) by (apply Z.ltb_ge; lia).
  rewrite H1. simpl. unfold ensureDbnameEnd, After, Equal.
  assert (H2 : (EndTime c <? EndTime pb) = false) by (apply Z.ltb_ge; lia).
  assert (H3 : (EndTime pb =? EndTime c) = false) by (apply Z.eqb_neq; lia).
  rewrite H2, H3. reflexivity.
Qed.

(** X11: In plain mode, when the cache holds for every (metric, tenant) pair of
  the bounds a partition that starts no later than the incoming start and
  ends after the incoming end, and the flag is not set, the partition
  manager makes no call and changes nothing. *)
Theorem covered_bounds_cost_no_call :
  forall (bounds : gomap (gomap ExistingPartitionInfo)) (s : State W),
    (forall metric dbnameTimestampMap,
       In (metric, dbnameTimestampMap) bounds ->
       exists cached,
         mapGet (partitionMapMetricDbname (vars s)) metric = Some cached /\
         forall dbname pb,
           In (dbname, pb) dbnameTimestampMap ->
           hasZeroBound pb = false /\
           exists c,
             mapGet cached dbname = Some c /\
             StartTime c <= StartTime pb /\ EndTime pb < EndTime c) ->
    EnsureMetricDbnameTime env bounds false s = (s, None).
Proof.
  induction bounds as [| [metric inner] rest IH]; intros s H.
  - reflexivity.
  - cbn [EnsureMetricDbnameTime].
    destruct (H metric inner (or_introl eq_refl)) as (cached & Hm & Hin).
    rewrite Hm.
    assert (Hinner : forall l,
              (forall dbname pb, In (dbname, pb) l -> In (dbname, pb) inner) ->
              ensureDbnames env metric l false s = (s, None)).
    { induction l as [| [d p] l' IHl]; intro Hsub.
      - reflexivity.
      - cbn [ensureDbnames].
        destruct (Hin d p (Hsub d p (or_introl eq_refl)))
          as (Hz & c & Hc & Hs & He).
        rewrite (ensureDbnameEntry_hit metric d p c s Hz).
        + apply IHl. intros d' p' Hi. apply Hsub. right. exact Hi.
        + unfold cachedDbname. rewrite Hm. exact Hc.
        + exact Hs.
        + exact He. }
    rewrite (Hinner inner (fun _ _ Hi => Hi)).
    apply IH. intros m i Hi. apply H. right. exact Hi.
Qed.

(** *** Time-series mode: the tables of the ordinary metrics *)

Lemma mapGet_mapSet_stays : forall (V : Type) (m : gomap V) k k' v,
  mapGet m k' <> None -> mapGet (mapSet m k v) k' <> None.
Proof.
  intros V m k k' v H. destruct (string_dec k k') as [He | Hne].
  - subst k'. rewrite mapGet_mapSet_same. discriminate.
  - rewrite (mapGet_mapSet_other _ m k k' v Hne). exact H.
Qed.

Lemma sink_Exec_vars : forall sql args (s : State W),
  vars (fst (sink_Exec env sql args s)) = vars s /\
  callsOf (fst (sink_Exec env sql args s)) = callsOf s ++ [CallExec sql args].
Proof.
  intros sql args s. unfold sink_Exec, conn_Exec, callsOf.
  destruct (Exec (pool env) sql args (world (SinkDb (pgw s)))) as [w r].
  simpl. split; reflexivity.
Qed.

Lemma ensureTimescaleTables_grows : forall bounds (s s1 : State W) r k,
  ensureTimescaleTables env bounds s = (s1, r) ->
  mapGet (partitionMapMetric (vars s)) k <> None ->
  mapGet (partitionMapMetric (vars s1)) k <> None.
Proof.
  induction bounds as [| [m p] rest IH]; intros s s1 r k H Hk; simpl in H.
  - inversion H; subst. exact Hk.
  - destruct (strings_HasSuffix m "_realtime"); [eapply IH; eassumption |].
    destruct (mapGet (partitionMapMetric (vars s)) m); [eapply IH; eassumption |].
    pose proof (sink_Exec_vars sqlEnsureTimescale [ArgString m] s) as [Hv _].
    destruct (sink_Exec env sqlEnsureTimescale [ArgString m] s) as [s' [e |]];
      simpl in Hv.
    + inversion H; subst. rewrite Hv. exact Hk.
    + eapply IH; [exact H |]. simpl. rewrite Hv.
      apply mapGet_mapSet_stays. exact Hk.
Qed.

Lemma ensureTimescaleTables_caches : forall bounds (s s1 : State W) metric pb,
  ensureTimescaleTables env bounds s = (s1, None) ->
  In (metric, pb) bounds ->
  strings_HasSuffix metric "_realtime" = false ->
  mapGet (partitionMapMetric (vars s1)) metric <> None.
Proof.
  induction bounds as [| [m p] rest IH]; intros s s1 metric pb H Hin Hs.
  - destruct Hin.
  - simpl in H. destruct Hin as [Hhd | Htl].
    + inversion Hhd; subst m p. rewrite Hs in H.
      destruct (mapGet (partitionMapMetric (vars s)) metric) eqn:Hg.
      * eapply ensureTimescaleTables_grows; [exact H |]. rewrite Hg. discriminate.
      * pose proof (sink_Exec_vars sqlEnsureTimescale [ArgString metric] s)
          as [Hv _].
        destruct (sink_Exec env sqlEnsureTimescale [ArgString metric] s)
          as [s' [e |]]; [discriminate H |].
        eapply ensureTimescaleTables_grows; [exact H |]. simpl.
        rewrite mapGet_mapSet_same. discriminate.
    + destruct (strings_HasSuffix m "_realtime"); [eapply IH; eassumption |].
      destruct (mapGet (partitionMapMetric (vars s)) m); [eapply IH; eassumption |].
      destruct (sink_Exec env sqlEnsureTimescale [ArgString m] s) as [s' [e |]];
        [discriminate H |].
      eapply IH; eassumption.
Qed.

Lemma ensureTimescaleTables_cached : forall bounds (s : State W),
  (forall metric pb, In (metric, pb) bounds ->
     strings_HasSuffix metric "_realtime" = false ->
     mapGet (partitionMapMetric (vars s)) metric <> None) ->
  ensureTimescaleTables env bounds s = (s, None).
Proof.
  induction bounds as [| [m p] rest IH]; intros s H.
  - reflexivity.
  - simpl. assert (Hrest : ensureTimescaleTables env rest s = (s, None))
      by (apply IH; intros metric pb Hi Hs;
          apply (H metric pb); [right; exact Hi | exact Hs]).
    destruct (strings_HasSuffix m "_realtime") eqn:Hs; [exact Hrest |].
    destruct (mapGet (partitionMapMetric (vars s)) m) eqn:Hg; [exact Hrest |].
    exfalso. apply (H m p (or_introl eq_refl) Hs). exact Hg.
Qed.

(** X12: In time-series mode the table of an ordinary (not [_realtime]) metric is
  ensured once: after a pass of the first step that went through, every such
  metric of the bounds is in the cache, and a second pass over the same
  bounds makes no call and changes nothing.  The force flag does not reach
  this step: with it set, the manager still goes straight to the
  [_realtime] metrics. *)
Theorem timescale_tables_ensured_once :
  forall (bounds : gomap ExistingPartitionInfo) (s s1 : State W),
    ensureTimescaleTables env bounds s = (s1, None) ->
    (forall metric pb,
       In (metric, pb) bounds ->
       strings_HasSuffix metric "_realtime" = false ->
       mapGet (partitionMapMetric (vars s1)) metric <> None) /\
    ensureTimescaleTables env bounds s1 = (s1, None) /\
    EnsureMetricTimescale env bounds true s1 = EnsureMetricTime env bounds true s1.
Proof.
  intros bounds s s1 H.
  assert (Hc : forall metric pb,
             In (metric, pb) bounds ->
             strings_HasSuffix metric "_realtime" = false ->
             mapGet (partitionMapMetric (vars s1)) metric <> None).
  { intros metric pb Hin Hs. eapply ensureTimescaleTables_caches; eassumption. }
  split; [exact Hc |].
  pose proof (ensureTimescaleTables_cached bounds s1 Hc) as H2.
  split; [exact H2 |].
  unfold EnsureMetricTimescale. rewrite H2. reflexivity.
Qed.

(** *** Time-series mode: the partitions of a [_realtime] metric *)

Lemma sink_QueryRow_time_effect : forall sql args (s : State W),
  callsOf (fst (sink_QueryRow_time env sql args s))
    = callsOf s ++ [CallQueryRow sql args] /\
  vars (fst (sink_QueryRow_time env sql args s)) = vars s /\
  snd (sink_QueryRow_time env sql args s)
    = snd (QueryRow_Scan_time (pool env) sql args (world (SinkDb (pgw s)))).
Proof.
  intros sql args s. unfold sink_QueryRow_time, conn_QueryRow_time, callsOf.
  destruct (QueryRow_Scan_time (pool env) sql args (world (SinkDb (pgw s))))
    as [w r].
  simpl. repeat split.
Qed.

(** X13: For a [_realtime] metric whose cached partition starts no later than the
  incoming start, without force: an incoming end that does not exceed the
  cached end (equal included) makes no call and changes nothing; an incoming
  end beyond it makes one call of [ensure_partition_metric_time], given the
  incoming end, and on success only the end of the cached partition is
  replaced by the time returned, the cached start stays. *)
Theorem realtime_end_extends_the_cached_partition :
  forall (metric : string) (pb c : ExistingPartitionInfo) (s : State W),
    strings_HasSuffix metric "_realtime" = true ->
    hasZeroBound pb = false ->
    mapGet (partitionMapMetric (vars s)) metric = Some c ->
    StartTime c <= StartTime pb ->
    let out := ensureTimeEntry env metric pb false s in
    let args := [ArgString metric; ArgTime (EndTime pb)] in
    (EndTime pb <= EndTime c -> out = (s, None)) /\
    (EndTime c < EndTime pb ->
       callsOf (fst out) = callsOf s ++ [CallQueryRow sqlEnsureMetricTime args] /\
       match snd (QueryRow_Scan_time (pool env) sqlEnsureMetricTime args
                    (world (SinkDb (pgw s)))) with
       | Ok t =>
           snd out = None /\
           mapGet (partitionMapMetric (vars (fst out))) metric
             = Some (mkPartInfo (StartTime c) t)
       | Err msg =>
           snd out = Some (DriverError msg) /\ cachesOf (fst out) = cachesOf s
       end).
Proof.
  intros metric pb c s Hsuf Hz Hc Hs out args. subst out.
  unfold ensureTimeEntry. unfold hasZeroBound in Hz. rewrite Hsuf, Hz, Hc.
  unfold Before, After. simpl.
  assert (H1 : (StartTime pb <? StartTime c) = false) by (apply Z.ltb_ge; lia).
  rewrite H1. simpl. split.
  - intro Hle. assert (H2 : (EndTime c <? EndTime pb) = false)
      by (apply Z.ltb_ge; lia).
    rewrite H2. reflexivity.
  - intro Hlt. apply Z.ltb_lt in Hlt. rewrite Hlt. simpl. fold args.
    pose proof (sink_QueryRow_time_effect sqlEnsureMetricTime args s)
      as (Hcalls & Hv & Hr).
    rewrite <- Hr.
    destruct (sink_QueryRow_time env sqlEnsureMetricTime args s)
      as [s2 [t | msg]]; simpl in *.
    + split; [exact Hcalls |]. split; [reflexivity |].
      apply mapGet_mapSet_same.
    + split; [exact Hcalls |]. split; [reflexivity |].
      unfold cachesOf. rewrite Hv. reflexivity.
Qed.

End CacheFacts.

Lemma covered_bounds_cost_no_call_witness :
  let s := Examples.writerWith sinks.DbStorageSchemaPostgres
             Examples.coveredGlobals [] in
  sinks.EnsureMetricDbnameTime Examples.E [("wal", [("t1", Examples.instant)])]
    false s = (s, None).
Proof.
  intro s. apply covered_bounds_cost_no_call.
  intros metric inner [Hm | []]. inversion Hm; subst metric inner.
  exists [("t1", Examples.covering)]. split; [reflexivity |].
  intros dbname pb [Hd | []]. inversion Hd; subst dbname pb.
  split; [reflexivity |].
  exists Examples.covering. split; [reflexivity |]. simpl. lia.
Defined.

Lemma timescale_tables_ensured_once_witness :
  let bounds := [("db_stats", Examples.instant); ("wal_realtime", Examples.instant)] in
  let s := Examples.writer None sinks.DbStorageSchemaTimescale
             [pgxmock.ExpectExec None] in
  exists s1,
    sinks.ensureTimescaleTables Examples.E bounds s = (s1, None) /\
    sinks.callsOf s1 = [CallExec sinks.sqlEnsureTimescale [ArgString "db_stats"]] /\
    sinks.ensureTimescaleTables Examples.E bounds s1 = (s1, None).
Proof.
  intros bounds s. eexists. split; [reflexivity |]. split; [reflexivity |].
  eapply (timescale_tables_ensured_once Examples.E bounds s). reflexivity.
Defined.

Lemma realtime_end_extends_the_cached_partition_witness :
  let pb := mkPartInfo 1700000000000000000 1700600000000000000 in
  let s := Examples.writerWith sinks.DbStorageSchemaTimescale
             Examples.realtimeGlobals
             [pgxmock.ExpectQueryRow_time (Ok 1701129600000000000)] in
  let out := sinks.ensureTimeEntry Examples.E "wal_realtime" pb false s in
  sinks.callsOf (fst out)
    = [CallQueryRow sinks.sqlEnsureMetricTime
         [ArgString "wal_realtime"; ArgTime 1700600000000000000]] /\
  snd out = None /\
  mapGet (sinks.partitionMapMetric (sinks.vars (fst out))) "wal_realtime"
    = Some (mkPartInfo 1699920000000000000 1701129600000000000).
Proof.
  intros pb s out.
  destruct (realtime_end_extends_the_cached_partition Examples.E "wal_realtime"
              pb Examples.covering s eq_refl eq_refl eq_refl)
    as [_ Hext].
  - simpl. lia.
  - destruct Hext as (Hcalls & Hres & Hcache).
    + simpl. lia.
    + split; [exact Hcalls |]. split; [exact Hres | exact Hcache].
Defined.

Section LegacyEnsureFacts.
Import sinks.
Context {W : Type} (env : Env W).

(** *** [EnsureMetric] *)

Lemma mapGet_mapSet_zero : forall (m : gomap ExistingPartitionInfo) k k',
  mapGet m k' = Some zeroPartInfo ->
  mapGet (mapSet m k zeroPartInfo) k' = Some zeroPartInfo.
Proof.
  intros m k k' H. destruct (string_dec k k') as [He | Hne].
  - subst k'. apply mapGet_mapSet_same.
  - rewrite (mapGet_mapSet_other _ m k k' _ Hne). exact H.
Qed.

Lemma EnsureMetric_keeps : forall (P : option ExistingPartitionInfo -> Prop),
  (forall (m : gomap ExistingPartitionInfo) k k',
     P (mapGet m k') -> P (mapGet (mapSet m k zeroPartInfo) k')) ->
  forall bounds force (s s1 : State W) r k,
    EnsureMetric env bounds force s = (s1, r) ->
    P (mapGet (partitionMapMetric (vars s)) k) ->
    P (mapGet (partitionMapMetric (vars s1)) k).
Proof.
  intros P HP. induction bounds as [| [m p] rest IH];
    intros force s s1 r k H Hk; simpl in H.
  - inversion H; subst. exact Hk.
  - match type of H with
    | (if ?c then _ else _) = _ => destruct c
    end; [| eapply IH; eassumption].
    pose proof (sink_Exec_vars env sqlEnsureMetric [ArgString m] s) as [Hv _].
    destruct (sink_Exec env sqlEnsureMetric [ArgString m] s) as [s' [e |]];
      simpl in Hv.
    + inversion H; subst. rewrite Hv. exact Hk.
    + eapply IH; [exact H |]. simpl. rewrite Hv. apply HP. exact Hk.
Qed.

(** X14: When [EnsureMetric] goes through, every metric of the bounds is in the
  cache.  With force it has called [ensure_partition_metric] once for each
  metric of the bounds, in their order, cached or not, and the cache entry
  of each of them is the zero partition: bounds cached before for such a
  metric are gone. *)
Theorem EnsureMetric_caches_or_resets :
  forall (bounds : gomap ExistingPartitionInfo) (force : bool) (s s1 : State W),
    EnsureMetric env bounds force s = (s1, None) ->
    (forall metric pb,
       In (metric, pb) bounds ->
       mapGet (partitionMapMetric (vars s1)) metric <> None) /\
    (force = true ->
       callsOf s1 = callsOf s ++ map ensureMetricCall bounds /\
       forall metric pb,
         In (metric, pb) bounds ->
         mapGet (partitionMapMetric (vars s1)) metric = Some zeroPartInfo).
Proof.
  induction bounds as [| [m p] rest IH]; intros force s s1 H.
  - inversion H; subst. split.
    + intros metric pb [].
    + intros _. split; [simpl; rewrite app_nil_r; reflexivity |].
      intros metric pb [].
  - cbn [EnsureMetric] in H.
    destruct (mapGet (partitionMapMetric (vars s)) m) as [c |] eqn:Hg;
      destruct force; simpl in H.
    + (* cached, forced *)
      pose proof (sink_Exec_vars env sqlEnsureMetric [ArgString m] s) as [Hv Hc].
      destruct (sink_Exec env sqlEnsureMetric [ArgString m] s) as [s' [e |]];
        [discriminate H |].
      simpl in Hv, Hc. destruct (IH true _ s1 H) as [Hall Hforced].
      destruct (Hforced eq_refl) as [Hcalls Hzero].
      assert (Hm : mapGet (partitionMapMetric (vars s1)) m = Some zeroPartInfo).
      { eapply (EnsureMetric_keeps (fun o => o = Some zeroPartInfo)
                  mapGet_mapSet_zero); [exact H |].
        simpl. apply mapGet_mapSet_same. }
      split.
      * intros metric pb [Hhd | Htl].
        -- inversion Hhd; subst. rewrite Hm. discriminate.
        -- eapply Hall. exact Htl.
      * intros _. split.
        -- rewrite Hcalls. unfold callsOf at 1. simpl.
           change (calls (SinkDb (pgw s'))) with (callsOf s').
           rewrite Hc, <- app_assoc. reflexivity.
        -- intros metric pb [Hhd | Htl].
           ++ inversion Hhd; subst. exact Hm.
           ++ eapply Hzero. exact Htl.
    + (* cached, not forced *)
      destruct (IH false s s1 H) as [Hall _]. split.
      * intros metric pb [Hhd | Htl].
        -- inversion Hhd; subst.
           eapply (EnsureMetric_keeps (fun o => o <> None)
                     (fun m0 k k' => mapGet_mapSet_stays _ m0 k k' zeroPartInfo));
             [exact H |]. rewrite Hg. discriminate.
        -- eapply Hall. exact Htl.
      * intro Hf. discriminate Hf.
    + (* not cached, forced *)
      pose proof (sink_Exec_vars env sqlEnsureMetric [ArgString m] s) as [Hv Hc].
      destruct (sink_Exec env sqlEnsureMetric [ArgString m] s) as [s' [e |]];
        [discriminate H |].
      simpl in Hv, Hc. destruct (IH true _ s1 H) as [Hall Hforced].
      destruct (Hforced eq_refl) as [Hcalls Hzero].
      assert (Hm : mapGet (partitionMapMetric (vars s1)) m = Some zeroPartInfo).
      { eapply (EnsureMetric_keeps (fun o => o = Some zeroPartInfo)
                  mapGet_mapSet_zero); [exact H |].
        simpl. apply mapGet_mapSet_same. }
      split.
      * intros metric pb [Hhd | Htl].
        -- inversion Hhd; subst. rewrite Hm. discriminate.
        -- eapply Hall. exact Htl.
      * intros _. split.
        -- rewrite Hcalls. unfold callsOf at 1. simpl.
           change (calls (SinkDb (pgw s'))) with (callsOf s').
           rewrite Hc, <- app_assoc. reflexivity.
        -- intros metric pb [Hhd | Htl].
           ++ inversion Hhd; subst. exact Hm.
           ++ eapply Hzero. exact Htl.
    + (* not cached, not forced *)
      destruct (sink_Exec env sqlEnsureMetric [ArgString m] s) as [s' [e |]];
        [discriminate H |].
      destruct (IH false _ s1 H) as [Hall _]. split.
      * intros metric pb [Hhd | Htl].
        -- inversion Hhd; subst.
           eapply (EnsureMetric_keeps (fun o => o <> None)
                     (fun m0 k k' => mapGet_mapSet_stays _ m0 k k' zeroPartInfo));
             [exact H |]. simpl. rewrite mapGet_mapSet_same. discriminate.
        -- eapply Hall. exact Htl.
      * intro Hf. discriminate Hf.
Qed.

End LegacyEnsureFacts.

Lemma EnsureMetric_caches_or_resets_witness :
  let bounds := [("wal_realtime", Examples.instant); ("db_stats", Examples.instant)] in
  let s := Examples.writerWith sinks.DbStorageSchemaPostgres
             Examples.realtimeGlobals
             [pgxmock.ExpectExec None; pgxmock.ExpectExec None] in
  exists s1,
    sinks.EnsureMetric Examples.E bounds true s = (s1, None) /\
    sinks.callsOf s1
      = [CallExec sinks.sqlEnsureMetric [ArgString "wal_realtime"];
         CallExec sinks.sqlEnsureMetric [ArgString "db_stats"]] /\
    mapGet (sinks.partitionMapMetric (sinks.vars s1)) "wal_realtime"
      = Some sinks.zeroPartInfo.
Proof.
  intros bounds s. eexists. split; [reflexivity |].
  edestruct (EnsureMetric_caches_or_resets Examples.E bounds true s)
    as [_ Hforced]; [reflexivity |].
  destruct (Hforced eq_refl) as [Hcalls Hzero].
  split; [exact Hcalls |].
  apply (Hzero "wal_realtime" Examples.instant). left. reflexivity.
Defined.

(* ------------------------------------------------------------------ *)
(** ** Seeding, [SyncMetric] and construction *)

Section SeedingFacts.
Import sinks.
Context {W : Type} (env : Env W).

Lemma EnsureMetricDummy_effect : forall metric (s : State W),
  callsOf (fst (EnsureMetricDummy env metric s)) = callsOf s ++ [dummyCall metric] /\
  vars (fst (EnsureMetricDummy env metric s)) = vars s /\
  frameOf (fst (EnsureMetricDummy env metric s)) = frameOf s /\
  lastError (pgw (fst (EnsureMetricDummy env metric s))) = lastError (pgw s).
Proof.
  intros metric s. unfold EnsureMetricDummy, sink_Exec, conn_Exec, callsOf,
    dummyCall, frameOf.
  destruct (Exec (pool env) _ _ (world (SinkDb (pgw s)))) as [w r].
  simpl. repeat split.
Qed.

Lemma ensureDummies_effect : forall names err (s : State W),
  callsOf (fst (ensureDummies env names err s))
    = callsOf s ++ map dummyCall names /\
  vars (fst (ensureDummies env names err s)) = vars s /\
  frameOf (fst (ensureDummies env names err s)) = frameOf s /\
  lastError (pgw (fst (ensureDummies env names err s))) = lastError (pgw s).
Proof.
  induction names as [| name rest IH]; intros err s; simpl.
  - rewrite app_nil_r. repeat split.
  - destruct (EnsureMetricDummy_effect name s) as (Hc & Hv & Hf & Hl).
    destruct (EnsureMetricDummy env name s) as [s1 e]. simpl in *.
    destruct (IH (errors_Join [err; e]) s1) as (Ic & Iv & If & Il).
    rewrite Ic, Iv, If, Il, Hc, Hv, Hf, Hl, <- app_assoc. repeat split.
Qed.

Lemma errors_Join_keeps : forall err e,
  err <> None -> errors_Join [err; e] <> None.
Proof.
  intros [x |] e H; [| contradiction].
  unfold errors_Join. simpl. destruct e; discriminate.
Qed.

Lemma errors_Join_None : forall e1 e2,
  errors_Join [e1; e2] = None <-> e1 = None /\ e2 = None.
Proof.
  intros [x |] [y |]; unfold errors_Join; simpl; split;
    try (intro H; discriminate H); try (intros [H1 H2]; discriminate);
    try (intros _; split; reflexivity); try reflexivity.
Qed.

Lemma ensureDummies_keeps_error : forall names err (s : State W),
  err <> None -> snd (ensureDummies env names err s) <> None.
Proof.
  induction names as [| name rest IH]; intros err s H; simpl.
  - exact H.
  - destruct (EnsureMetricDummy env name s) as [s1 e].
    apply IH. apply errors_Join_keeps. exact H.
Qed.

Lemma ensureDummies_app : forall pre post err (s : State W),
  ensureDummies env (pre ++ post) err s
  = ensureDummies env post (snd (ensureDummies env pre err s))
      (fst (ensureDummies env pre err s)).
Proof.
  induction pre as [| name rest IH]; intros post err s; simpl.
  - reflexivity.
  - destruct (EnsureMetricDummy env name s) as [s1 e]. apply IH.
Qed.

(** X15: [EnsureBuiltinMetricDummies] does not stop at a failure: whatever the
  store answers it calls [ensure_dummy_metrics_table] for each of the six
  built-in names, in their order, and for nothing else; and the failure of
  any one of the calls makes the result an error. *)
Theorem builtin_dummies_all_called :
  forall (s : State W),
    callsOf (fst (EnsureBuiltinMetricDummies env s))
      = callsOf s ++ map dummyCall builtinMetricNames /\
    (forall pre name post,
       builtinMetricNames = pre ++ name :: post ->
       snd (EnsureMetricDummy env name (fst (ensureDummies env pre None s)))
         <> None ->
       snd (EnsureBuiltinMetricDummies env s) <> None).
Proof.
  intros s. split.
  - apply ensureDummies_effect.
  - intros pre name post Hsplit Hfail. unfold EnsureBuiltinMetricDummies.
    rewrite Hsplit, ensureDummies_app. cbn [ensureDummies].
    destruct (EnsureMetricDummy env name (fst (ensureDummies env pre None s)))
      as [s1 e].
    simpl in Hfail. apply ensureDummies_keeps_error.
    destruct e as [x |]; [| contradiction].
    destruct (snd (ensureDummies env pre None s)); unfold errors_Join; simpl;
      discriminate.
Qed.

(** X16: [SyncMetric] with an operation other than "add" returns nil without a
  call.  With "add" it makes two calls whatever the first one answers: the
  insert into the listing table for the pair, then
  [ensure_dummy_metrics_table] for the metric; it returns nil exactly when
  both went through. *)
Theorem SyncMetric_add_or_nothing :
  forall (dbUnique metricName op : string) (s : State W),
    (op <> "add" -> SyncMetric env dbUnique metricName op s = (s, None)) /\
    (op = "add" ->
       let out := SyncMetric env dbUnique metricName op s in
       let listed := AddDBUniqueMetricToListingTable env dbUnique metricName s in
       callsOf (fst out)
         = callsOf s ++
           [CallExec sqlAddDBUniqueMetric [ArgString dbUnique; ArgString metricName];
            dummyCall metricName] /\
       (snd out = None <->
        snd listed = None /\
        snd (EnsureMetricDummy env metricName (fst listed)) = None)).
Proof.
  intros dbUnique metricName op s. split.
  - intro Hne. unfold SyncMetric. apply String.eqb_neq in Hne. rewrite Hne.
    reflexivity.
  - intros -> out listed. subst out listed. unfold SyncMetric. simpl.
    pose proof (sink_Exec_vars env sqlAddDBUniqueMetric
                  [ArgString dbUnique; ArgString metricName] s) as [_ Hc].
    unfold AddDBUniqueMetricToListingTable.
    destruct (sink_Exec env sqlAddDBUniqueMetric
                [ArgString dbUnique; ArgString metricName] s) as [s1 e1].
    cbn [fst snd] in *.
    destruct (EnsureMetricDummy_effect metricName s1) as (Hd & _).
    destruct (EnsureMetricDummy env metricName s1) as [s2 e2].
    cbn [fst snd] in *. split.
    + rewrite Hd, Hc, <- app_assoc. reflexivity.
    + apply errors_Join_None.
Qed.

End SeedingFacts.

Lemma SyncMetric_add_or_nothing_witness :
  let s := Examples.writer None sinks.DbStorageSchemaPostgres
             [pgxmock.ExpectExec (Some "permission denied");
              pgxmock.ExpectExec None] in
  sinks.SyncMetric Examples.E "t1" "wal" "remove" s = (s, None) /\
  sinks.callsOf (fst (sinks.SyncMetric Examples.E "t1" "wal" "add" s))
    = [CallExec sinks.sqlAddDBUniqueMetric [ArgString "t1"; ArgString "wal"];
       sinks.dummyCall "wal"] /\
  snd (sinks.SyncMetric Examples.E "t1" "wal" "add" s) <> None.
Proof.
  intro s. split; [| split].
  - apply (SyncMetric_add_or_nothing Examples.E "t1" "wal" "remove" s).
    discriminate.
  - apply (SyncMetric_add_or_nothing Examples.E "t1" "wal" "add" s).
    reflexivity.
  - destruct (SyncMetric_add_or_nothing Examples.E "t1" "wal" "add" s)
      as [_ Hadd].
    destruct (Hadd eq_refl) as [_ Hiff]. intro Hnil.
    destruct (proj1 Hiff Hnil) as [Hlisted _]. discriminate Hlisted.
Defined.

Lemma builtin_dummies_all_called_witness :
  let s := Examples.writer None sinks.DbStorageSchemaPostgres
             [pgxmock.ExpectExec None; pgxmock.ExpectExec (Some "out of memory");
              pgxmock.ExpectExec None; pgxmock.ExpectExec None;
              pgxmock.ExpectExec None; pgxmock.ExpectExec None] in
  sinks.callsOf (fst (sinks.EnsureBuiltinMetricDummies Examples.E s))
    = map sinks.dummyCall sinks.builtinMetricNames /\
  snd (sinks.EnsureBuiltinMetricDummies Examples.E s) <> None.
Proof.
  intro s.
  destruct (builtin_dummies_all_called Examples.E s) as [Hcalls Hfail].
  split; [exact Hcalls |].
  apply (Hfail ["sproc_changes"] "table_changes"
           ["index_changes"; "privilege_changes"; "object_changes";
            "configuration_changes"]).
  - reflexivity.
  - vm_compute. discriminate.
Defined.

Section BootstrapCallFacts.
Context {W : Type} (pool : PgxPoolIface W).

Lemma execScripts_prefix : forall sqls (c : Conn W),
  exists n,
    (n <= List.length sqls)%nat /\
    calls (fst (db.execScripts pool sqls c))
      = calls c ++ map scriptCall (firstn n sqls) /\
    (snd (db.execScripts pool sqls c) = None -> n = List.length sqls).
Proof.
  induction sqls as [| sql rest IH]; intros c.
  - exists 0%nat. simpl. rewrite app_nil_r. repeat split. lia.
  - cbn [db.execScripts].
    destruct (conn_Exec pool sql [] c) as [c1 [e |]] eqn:Hx.
    + exists 1%nat. simpl. split; [lia |]. split.
      * apply (conn_Exec_calls pool _ _ _ _ _ Hx).
      * intro H. discriminate H.
    + destruct (IH c1) as (n & Hn & Hc & Hnone).
      exists (S n). simpl. split; [lia |]. split.
      * rewrite Hc, (conn_Exec_calls pool _ _ _ _ _ Hx), <- app_assoc.
        reflexivity.
      * intro H. rewrite (Hnone H). reflexivity.
Qed.

Lemma bootstrap_calls_lookup_then_prefix_aux :
  forall (schema : string) (sqls : list string) (c : Conn W),
    exists n,
      calls (fst (db.executeSchemaScripts pool schema sqls c))
        = calls c ++
          CallQueryRow db.sqlSchemaExists [ArgString schema]
          :: map scriptCall (firstn n sqls).
Proof.
  intros schema sqls c. unfold db.executeSchemaScripts.
  assert (Hq : calls (fst (conn_QueryRow_bool pool db.sqlSchemaExists
                             [ArgString schema] c))
               = calls c ++ [CallQueryRow db.sqlSchemaExists [ArgString schema]]).
  { unfold conn_QueryRow_bool.
    destruct (QueryRow_Scan_bool pool _ _ (world c)) as [w r]. reflexivity. }
  destruct (conn_QueryRow_bool pool db.sqlSchemaExists [ArgString schema] c)
    as [c1 [[|] | msg]]; simpl in Hq |- *.
  - exists 0%nat. exact Hq.
  - destruct (execScripts_prefix sqls c1) as (n & _ & Hc & _).
    exists n. rewrite Hc, Hq, <- app_assoc. reflexivity.
  - exists 0%nat. exact Hq.
Qed.

(** X17: Whatever the store answers, [executeSchemaScripts] makes the catalog
  lookup and then executes a prefix of the script list, each script as one
  statement without arguments, in the order of the list, and nothing else.
  The prefix is empty unless the lookup said that the schema is absent, and
  the result is nil only when the schema is there or every script ran. *)
Theorem bootstrap_calls_lookup_then_prefix :
  forall (schema : string) (sqls : list string) (c : Conn W),
    exists n,
      (n <= List.length sqls)%nat /\
      calls (fst (db.executeSchemaScripts pool schema sqls c))
        = calls c ++
          CallQueryRow db.sqlSchemaExists [ArgString schema]
          :: map scriptCall (firstn n sqls) /\
      (snd (conn_QueryRow_bool pool db.sqlSchemaExists [ArgString schema] c)
         <> Ok false -> n = 0%nat) /\
      (snd (db.executeSchemaScripts pool schema sqls c) = None ->
       snd (conn_QueryRow_bool pool db.sqlSchemaExists [ArgString schema] c)
         = Ok true \/ n = List.length sqls).
Proof.
  intros schema sqls c. unfold db.executeSchemaScripts.
  assert (Hq : calls (fst (conn_QueryRow_bool pool db.sqlSchemaExists
                             [ArgString schema] c))
               = calls c ++ [CallQueryRow db.sqlSchemaExists [ArgString schema]]).
  { unfold conn_QueryRow_bool.
    destruct (QueryRow_Scan_bool pool _ _ (world c)) as [w r]. reflexivity. }
  destruct (conn_QueryRow_bool pool db.sqlSchemaExists [ArgString schema] c)
    as [c1 [[|] | msg]]; simpl in Hq |- *.
  - exists 0%nat. simpl. split; [lia |]. split; [exact Hq |].
    split; [reflexivity | intros _; left; reflexivity].
  - destruct (execScripts_prefix sqls c1) as (n & Hn & Hc & Hnone).
    exists n. split; [exact Hn |]. split.
    + rewrite Hc, Hq, <- app_assoc. reflexivity.
    + split; [intro H; exfalso; apply H; reflexivity |].
      intro H. right. apply Hnone. exact H.
  - exists 0%nat. simpl. split; [lia |]. split; [exact Hq |].
    split; [reflexivity | intro H; discriminate H].
Qed.

Lemma no_close_in_scripts : forall sqls,
  existsb sinks.isClose (map scriptCall sqls) = false.
Proof.
  induction sqls as [| sql rest IH]; simpl; [reflexivity | exact IH].
Qed.

Lemma no_close_in_bootstrap : forall schema sqls (c : Conn W),
  existsb sinks.isClose (calls c) = false ->
  existsb sinks.isClose (calls (fst (db.executeSchemaScripts pool schema sqls c)))
    = false.
Proof.
  intros schema sqls c Hc.
  destruct (bootstrap_calls_lookup_then_prefix_aux schema sqls c) as (n & H).
  rewrite H, existsb_app, Hc. simpl. apply no_close_in_scripts.
Qed.

End BootstrapCallFacts.

Section ConstructionFacts.
Import sinks.
Context {W : Type} (env : Env W).

Lemma ReadMetricSchemaType_effect : forall (s : State W),
  callsOf (fst (ReadMetricSchemaType env s))
    = callsOf s ++ [CallQueryRow sqlSchemaType []] /\
  vars (fst (ReadMetricSchemaType env s)) = vars s /\
  Ctx_Err (pgw (fst (ReadMetricSchemaType env s))) = Ctx_Err (pgw s) /\
  input (pgw (fst (ReadMetricSchemaType env s))) = input (pgw s) /\
  lastError (pgw (fst (ReadMetricSchemaType env s))) = lastError (pgw s).
Proof.
  intros s. unfold ReadMetricSchemaType, sink_QueryRow_bool, conn_QueryRow_bool,
    callsOf.
  simpl.
  destruct (QueryRow_Scan_bool (pool env) sqlSchemaType [] (world (SinkDb (pgw s))))
    as [w [[|] | msg]]; simpl; repeat split.
Qed.

Lemma InitAndTest_no_close : forall connstr (w : W) c r,
  db.InitAndTestMetricStoreConnection (pool env) (acquire env)
    (metricSchemaSQLs env) connstr w = inr (c, r) ->
  existsb isClose (calls c) = false.
Proof.
  intros connstr w c r H. unfold db.InitAndTestMetricStoreConnection in H.
  destruct (acquire env connstr w) as [w1 [msg |]]; [discriminate H |].
  unfold db.ExecuteMetricSchemaScripts in H.
  pose proof (no_close_in_bootstrap (pool env) "admin" (metricSchemaSQLs env)
                (mkConn w1 []) eq_refl) as Hn.
  destruct (db.executeSchemaScripts (pool env) "admin" (metricSchemaSQLs env)
              (mkConn w1 [])) as [c' r'].
  inversion H; subst. exact Hn.
Qed.

(** X18: When [NewPostgresWriter] hands back a running writer, it has started the
  three goroutines; the writer has an empty channel, no error on offer and
  the package variables untouched; the probe and then the six
  dummy-table calls are the last calls made on the pool, and the pool has
  not been closed. *)
Theorem started_writer_is_seeded :
  forall (ctxErr : option error) (connstr : string) (g : Globals) (w : W)
         (s : State W) (tasks : list Task),
    NewPostgresWriter env ctxErr connstr g w = Started s tasks ->
    tasks = [OldPostgresMetricsDeleter; UniqueDbnamesListingMaintainer; poll] /\
    vars s = g /\
    Ctx_Err (pgw s) = ctxErr /\
    input (pgw s) = [] /\
    lastError (pgw s) = None /\
    existsb isClose (callsOf s) = false /\
    exists pre,
      callsOf s
        = pre ++ CallQueryRow sqlSchemaType [] :: map dummyCall builtinMetricNames.
Proof.
  intros ctxErr connstr g w s tasks H. unfold NewPostgresWriter in H.
  destruct (db.InitAndTestMetricStoreConnection (pool env) (acquire env)
              (metricSchemaSQLs env) connstr w) as [[w1 e] | [c [e |]]] eqn:Hinit;
    try discriminate H.
  pose proof (InitAndTest_no_close _ _ _ _ Hinit) as Hnc.
  set (s0 := mkState (mkWriter ctxErr c DbStorageSchemaPostgres [] None) g) in *.
  destruct (ReadMetricSchemaType_effect s0) as (Rc & Rv & Rx & Ri & Rl).
  destruct (ReadMetricSchemaType env s0) as [s1 [e |]]; [discriminate H |].
  cbn [fst] in *.
  destruct (ensureDummies_effect env builtinMetricNames None s1)
    as (Dc & Dv & Df & Dl).
  unfold EnsureBuiltinMetricDummies in H.
  destruct (ensureDummies env builtinMetricNames None s1) as [s2 [e |]];
    [discriminate H |].
  cbn [fst] in *. inversion H; subst s tasks.
  pose proof (f_equal (fun t => fst (fst t)) Df) as Dx.
  pose proof (f_equal snd Df) as Di. cbn [fst snd frameOf] in Dx, Di.
  split; [reflexivity |].
  split; [rewrite Dv, Rv; reflexivity |].
  split; [rewrite Dx, Rx; reflexivity |].
  split; [rewrite Di, Ri; reflexivity |].
  split; [rewrite Dl, Rl; reflexivity |].
  split.
  - rewrite Dc, Rc, !existsb_app. unfold callsOf. simpl. rewrite Hnc. reflexivity.
  - exists (calls c). rewrite Dc, Rc, <- app_assoc. reflexivity.
Qed.

(** X19: [NewPostgresWriter] closes the pool in one case only, right after a
  failed probe: when it returns an error together with a pool on which
  [Close] was called, the probe and the [Close] are the last two calls.  A
  failure of the schema bootstrap or of the dummy-table seeding hands the
  pool back open. *)
Theorem pool_closed_only_after_failed_probe :
  forall (ctxErr : option error) (connstr : string) (g : Globals) (w : W)
         (s : State W) (err : error),
    NewPostgresWriter env ctxErr connstr g w = Failed s err ->
    existsb isClose (callsOf s) = true ->
    exists pre,
      callsOf s = pre ++ [CallQueryRow sqlSchemaType []; CallClose] /\
      existsb isClose pre = false.
Proof.
  intros ctxErr connstr g w s err H Hclosed. unfold NewPostgresWriter in H.
  destruct (db.InitAndTestMetricStoreConnection (pool env) (acquire env)
              (metricSchemaSQLs env) connstr w) as [[w1 e] | [c [e |]]] eqn:Hinit;
    try discriminate H.
  - pose proof (InitAndTest_no_close _ _ _ _ Hinit) as Hnc.
    inversion H; subst. unfold callsOf in Hclosed. simpl in Hclosed.
    rewrite Hnc in Hclosed. discriminate Hclosed.
  - pose proof (InitAndTest_no_close _ _ _ _ Hinit) as Hnc.
    set (s0 := mkState (mkWriter ctxErr c DbStorageSchemaPostgres [] None) g) in *.
    destruct (ReadMetricSchemaType_effect s0) as (Rc & _).
    destruct (ReadMetricSchemaType env s0) as [s1 [e |]]; cbn [fst] in *.
    + inversion H; subst s err. exists (calls c). split; [| exact Hnc].
      unfold callsOf, conn_Close. simpl.
      change (calls (SinkDb (pgw s1))) with (callsOf s1).
      rewrite Rc, <- app_assoc. reflexivity.
    + destruct (ensureDummies_effect env builtinMetricNames None s1) as (Dc & _).
      unfold EnsureBuiltinMetricDummies in H.
      destruct (ensureDummies env builtinMetricNames None s1) as [s2 [e |]];
        [| discriminate H].
      cbn [fst] in *. inversion H; subst s err.
      rewrite Dc, Rc, !existsb_app in Hclosed. unfold callsOf in Hclosed.
      simpl in Hclosed. rewrite Hnc in Hclosed. discriminate Hclosed.
Qed.

End ConstructionFacts.

Lemma started_writer_is_seeded_witness :
  let w := pgxmock.mkWorld
             (pgxmock.ExpectQueryRow_bool (Ok true)
              :: pgxmock.ExpectQueryRow_bool (Ok true)
              :: List.repeat (pgxmock.ExpectExec None) 6) 1700000000000000000 in
  exists s tasks,
    sinks.NewPostgresWriter Examples.E None "postgresql://metrics" Examples.g0 w
      = sinks.Started s tasks /\
    List.length tasks = 3%nat /\
    sinks.MetricSchema (sinks.pgw s) = sinks.DbStorageSchemaTimescale /\
    existsb sinks.isClose (sinks.callsOf s) = false.
Proof.
  intro w. eexists. eexists. split; [vm_compute; reflexivity |].
  split; [reflexivity |]. split; [reflexivity |].
  eapply (started_writer_is_seeded Examples.E None "postgresql://metrics"
            Examples.g0 w).
  vm_compute. reflexivity.
Defined.

Lemma pool_closed_only_after_failed_probe_witness :
  let w := pgxmock.mkWorld
             [pgxmock.ExpectQueryRow_bool (Ok true);
              pgxmock.ExpectQueryRow_bool (Err "no rows in result set");
              pgxmock.ExpectClose] 1700000000000000000 in
  exists s err pre,
    sinks.NewPostgresWriter Examples.E None "postgresql://metrics" Examples.g0 w
      = sinks.Failed s err /\
    sinks.callsOf s = pre ++ [CallQueryRow sinks.sqlSchemaType []; CallClose] /\
    existsb sinks.isClose pre = false.
Proof.
  intro w.
  edestruct (pool_closed_only_after_failed_probe Examples.E None
               "postgresql://metrics" Examples.g0 w) as (pre & Hcalls & Hpre).
  - vm_compute. reflexivity.
  - vm_compute. reflexivity.
  - eexists. eexists. exists pre. split; [vm_compute; reflexivity |].
    split; [exact Hcalls | exact Hpre].
Defined.

(* ------------------------------------------------------------------ *)
(** ** The multi-writer *)

Section MultiFacts.
Import sinks.
Context {W : Type} (new : SinkConstructors W).

Lemma addEach_length : forall make names (mw mw' : MultiWriter W) (w w' : W),
  addEach make names mw w = (w', inl mw') ->
  List.length (writers mw')
    = (List.length (writers mw) + List.length names)%nat.
Proof.
  intros make. induction names as [| name rest IH]; intros mw mw' w w' H.
  - inversion H; subst. simpl. lia.
  - cbn [addEach] in H. destruct (make name w) as [w1 [wr | err]];
      [| discriminate H].
    rewrite (IH _ _ _ _ H). unfold AddWriter. simpl.
    rewrite List.length_app. simpl. lia.
Qed.

Lemma NewMultiWriter_length : forall opts (w w' : W) mw,
  NewMultiWriter new opts w = (w', inl mw) ->
  List.length (writers mw) = sinksConfigured opts /\ writers mw <> [].
Proof.
  intros opts w w' mw H. unfold NewMultiWriter in H.
  destruct (addEach (NewJSONWriter new) (JSONStorageFile opts) (mkMultiWriter []) w)
    as [w1 [mw1 | e]] eqn:H1; [| discriminate H].
  destruct (addEach (NewPostgresWriterAsWriter new) (PGMetricStoreConnStr opts)
              mw1 w1) as [w2 [mw2 | e]] eqn:H2; [| discriminate H].
  pose proof (addEach_length _ _ _ _ _ _ H1) as L1.
  pose proof (addEach_length _ _ _ _ _ _ H2) as L2.
  simpl in L1. unfold sinksConfigured.
  destruct (String.eqb (PrometheusListenAddr opts) ""); simpl in H.
  - destruct (writers mw2) as [| x l] eqn:Hw; [discriminate H |].
    inversion H; subst; rewrite Hw in *. split; [lia | discriminate].
  - destruct (NewPrometheusWriter new w2) as [w3 [promw | e]]; [| discriminate H].
    destruct (writers (AddWriter promw mw2)) as [| x l] eqn:Hw; [discriminate H |].
    inversion H; subst; rewrite Hw. split; [| discriminate].
    unfold AddWriter in Hw. simpl in Hw.
    rewrite <- Hw, List.length_app. simpl. lia.
Qed.

(** X20: A [MultiWriter] that [NewMultiWriter] hands back has one writer for
  each JSON file, one for each metric-store connection string and one more
  when a Prometheus listen address is set: never none.  Without any of the
  three configured it returns the error "no storages specified" and calls
  no constructor; and that error means that nothing was configured. *)
Theorem NewMultiWriter_one_writer_per_sink :
  forall (opts : MetricOptions) (w : W),
    (forall w' mw,
       NewMultiWriter new opts w = (w', inl mw) ->
       List.length (writers mw) = sinksConfigured opts /\ writers mw <> []) /\
    (sinksConfigured opts = 0%nat ->
       NewMultiWriter new opts w = (w, inr NoStoragesSpecified)) /\
    (snd (NewMultiWriter new opts w) = inr NoStoragesSpecified ->
       sinksConfigured opts = 0%nat).
Proof.
  intros opts w. split; [| split].
  - intros w' mw H. eapply NewMultiWriter_length. exact H.
  - unfold sinksConfigured. intro H0.
    destruct (JSONStorageFile opts) as [| f fs] eqn:Hj; [| simpl in H0; lia].
    destruct (PGMetricStoreConnStr opts) as [| p ps] eqn:Hp; [| simpl in H0; lia].
    destruct (String.eqb (PrometheusListenAddr opts) "") eqn:Ha;
      [| simpl in H0; lia].
    unfold NewMultiWriter. rewrite Hj, Hp, Ha. reflexivity.
  - intro H. unfold NewMultiWriter in H.
    destruct (addEach (NewJSONWriter new) (JSONStorageFile opts)
                (mkMultiWriter []) w) as [w1 [mw1 | e]] eqn:H1;
      [| discriminate H].
    destruct (addEach (NewPostgresWriterAsWriter new) (PGMetricStoreConnStr opts)
                mw1 w1) as [w2 [mw2 | e]] eqn:H2; [| discriminate H].
    pose proof (addEach_length _ _ _ _ _ _ H1) as L1.
    pose proof (addEach_length _ _ _ _ _ _ H2) as L2.
    simpl in L1. unfold sinksConfigured.
    destruct (String.eqb (PrometheusListenAddr opts) ""); simpl in H.
    + destruct (writers mw2) as [| x l] eqn:Hw; [| discriminate H].
      simpl in L2. lia.
    + destruct (NewPrometheusWriter new w2) as [w3 [promw | e]];
        [| discriminate H].
      destruct (writers (AddWriter promw mw2)) as [| x l] eqn:Hw;
        [| discriminate H].
      unfold AddWriter in Hw. simpl in Hw.
      destruct (writers mw2); discriminate Hw.
Qed.

Lemma syncEach_world : forall ws dbUnique metricName op err (w : W),
  fst (syncEach ws dbUnique metricName op err w)
  = fold_left (fun w0 wr => fst (Writer_SyncMetric wr dbUnique metricName op w0))
      ws w.
Proof.
  induction ws as [| wr rest IH]; intros dbUnique metricName op err w; simpl.
  - reflexivity.
  - destruct (Writer_SyncMetric wr dbUnique metricName op w) as [w1 e].
    apply IH.
Qed.

Lemma syncEach_keeps_error : forall ws dbUnique metricName op err (w : W),
  err <> None -> snd (syncEach ws dbUnique metricName op err w) <> None.
Proof.
  induction ws as [| wr rest IH]; intros dbUnique metricName op err w H; simpl.
  - exact H.
  - destruct (Writer_SyncMetric wr dbUnique metricName op w) as [w1 e].
    apply IH. apply errors_Join_keeps. exact H.
Qed.

Lemma syncEach_failing : forall ws dbUnique metricName op err (w : W) wr,
  In wr ws ->
  (forall w0, snd (Writer_SyncMetric wr dbUnique metricName op w0) <> None) ->
  snd (syncEach ws dbUnique metricName op err w) <> None.
Proof.
  induction ws as [| wr0 rest IH]; intros dbUnique metricName op err w wr Hin Hf.
  - destruct Hin.
  - simpl. destruct Hin as [Hhd | Htl].
    + subst wr0. pose proof (Hf w) as Hw.
      destruct (Writer_SyncMetric wr dbUnique metricName op w) as [w1 e].
      simpl in Hw. apply syncEach_keeps_error.
      destruct e as [x |]; [| contradiction].
      destruct err; unfold errors_Join; simpl; discriminate.
    + destruct (Writer_SyncMetric wr0 dbUnique metricName op w) as [w1 e].
      eapply IH; eassumption.
Qed.

Lemma syncEach_all_fine : forall ws dbUnique metricName op (w : W),
  (forall wr w0, In wr ws ->
     snd (Writer_SyncMetric wr dbUnique metricName op w0) = None) ->
  snd (syncEach ws dbUnique metricName op None w) = None.
Proof.
  induction ws as [| wr rest IH]; intros dbUnique metricName op w H; simpl.
  - reflexivity.
  - pose proof (H wr w (or_introl eq_refl)) as Hw.
    destruct (Writer_SyncMetric wr dbUnique metricName op w) as [w1 e].
    simpl in Hw. subst e. unfold errors_Join. simpl.
    apply IH. intros wr' w0 Hin. apply H. right. exact Hin.
Qed.

Lemma writeEach_world : forall ws msg (w : W),
  fst (writeEach ws msg w)
  = fold_left (fun w0 wr => fst (Writer_Write wr msg w0)) ws w.
Proof.
  induction ws as [| wr rest IH]; intros msg w; simpl.
  - reflexivity.
  - destruct (Writer_Write wr msg w) as [w1 e]. cbn [fst]. rewrite <- IH.
    destruct (writeEach rest msg w1) as [w2 errs]. reflexivity.
Qed.

(** X21: The multi-writer reaches every sink: both [SyncMetrics] and the
  dispatch of a message call each writer in turn and go on after a failure,
  so what the sinks end up with is the effect of all the writers, one after
  the other.  [SyncMetrics] returns an error when a writer that fails is
  among them and nil when none of them can fail. *)
Theorem multiwriter_reaches_every_sink :
  forall (mw : MultiWriter W) (dbUnique metricName op : string)
         (msg : list metrics.MeasurementMessage) (w : W),
    fst (SyncMetrics mw dbUnique metricName op w)
      = fold_left
          (fun w0 wr => fst (Writer_SyncMetric wr dbUnique metricName op w0))
          (writers mw) w /\
    fst (writeEach (writers mw) msg w)
      = fold_left (fun w0 wr => fst (Writer_Write wr msg w0)) (writers mw) w /\
    (forall wr,
       In wr (writers mw) ->
       (forall w0, snd (Writer_SyncMetric wr dbUnique metricName op w0) <> None) ->
       snd (SyncMetrics mw dbUnique metricName op w) <> None) /\
    ((forall wr w0, In wr (writers mw) ->
        snd (Writer_SyncMetric wr dbUnique metricName op w0) = None) ->
     snd (SyncMetrics mw dbUnique metricName op w) = None).
Proof.
  intros mw dbUnique metricName op msg w. unfold SyncMetrics.
  split; [apply syncEach_world |].
  split; [apply writeEach_world |].
  split.
  - intros wr Hin Hf. eapply syncEach_failing; eassumption.
  - intro H. apply syncEach_all_fine. exact H.
Qed.

End MultiFacts.

Lemma NewMultiWriter_one_writer_per_sink_witness :
  let opts := sinks.mkMetricOptions ["metrics.json"]
                ["postgresql://a"; "postgresql://b"] "" in
  exists w' mw,
    sinks.NewMultiWriter Examples.sinkConstructors opts [] = (w', inl mw) /\
    List.length (sinks.writers mw) = 3%nat /\
    w' = ["metrics.json"; "postgresql://a"; "postgresql://b"] /\
    sinks.NewMultiWriter Examples.sinkConstructors
      (sinks.mkMetricOptions [] [] "") []
      = ([], inr sinks.NoStoragesSpecified).
Proof.
  intro opts. eexists. eexists. split; [reflexivity |].
  destruct (NewMultiWriter_one_writer_per_sink Examples.sinkConstructors opts [])
    as (Hcount & _).
  destruct (NewMultiWriter_one_writer_per_sink Examples.sinkConstructors
              (sinks.mkMetricOptions [] [] "") []) as (_ & Hnone & _).
  split; [apply (Hcount _ _ eq_refl) |]. split; [reflexivity |].
  apply Hnone. reflexivity.
Defined.

Lemma multiwriter_reaches_every_sink_witness :
  let mw := sinks.mkMultiWriter [Examples.failingSink; Examples.healthySink] in
  fst (sinks.writeEach (sinks.writers mw) Examples.batch1 []) = ["json"; "pg"] /\
  fst (sinks.SyncMetrics mw "t1" "wal" "add" []) = ["json:wal"; "pg:wal"] /\
  snd (sinks.SyncMetrics mw "t1" "wal" "add" []) <> None.
Proof.
  intro mw.
  destruct (multiwriter_reaches_every_sink mw "t1" "wal" "add" Examples.batch1 [])
    as (Hsync & Hwrite & Hfail & _).
  split; [exact Hwrite |]. split; [exact Hsync |].
  apply (Hfail Examples.failingSink).
  - left. reflexivity.
  - intros w0. discriminate.
Defined.

(* ------------------------------------------------------------------ *)
(** ** The retention worker *)

Section RetentionFacts.
Context {W : Type} (env : retention.Env W).

Lemma sleep_log : forall d (r : retention.Run (W:=W)),
  snd (retention.sleep env d r) = snd r ++ [retention.EvSleep d].
Proof. intros. reflexivity. Qed.

Lemma selectDone_log : forall d (r : retention.Run (W:=W)),
  snd (fst (retention.selectDone env d r)) = snd r ++ [retention.EvSelect d].
Proof.
  intros. unfold retention.selectDone.
  destruct (retention.ctxDoneWithin env d (fst r)). reflexivity.
Qed.

Lemma GetOldTimePartitions_log : forall days (r : retention.Run (W:=W)),
  snd (fst (retention.GetOldTimePartitions env days r))
  = snd r ++ [retention.EvQuery retention.sqlGetOldParts [retention.ArgInt days]].
Proof.
  intros. unfold retention.GetOldTimePartitions.
  destruct (retention.Query_CollectRows env _ _ (fst r)). reflexivity.
Qed.

Lemma DropOldTimePartitions_log : forall days (r : retention.Run (W:=W)),
  snd (fst (retention.DropOldTimePartitions env days r))
  = snd r ++ [retention.EvQueryRow retention.sqlOldPart
                [retention.ArgInt days; retention.ArgBool false]].
Proof.
  intros. unfold retention.DropOldTimePartitions.
  destruct (retention.QueryRow_Scan_int env _ _ (fst r)). reflexivity.
Qed.

Lemma dropEach_log : forall parts (r : retention.Run (W:=W)),
  exists added,
    snd (retention.dropEach env parts r) = snd r ++ added
    /\ filter retention.isExec added
       = map (fun p => retention.EvExec (retention.sqlDropTable env p)) parts
    /\ filter retention.isSelect added = []
    /\ List.length added = (2 * List.length parts)%nat.
Proof.
  induction parts as [| p rest IH]; intros r.
  - exists []. cbn. rewrite app_nil_r. repeat split; reflexivity.
  - cbn [retention.dropEach].
    destruct (retention.Exec env (retention.sqlDropTable env p) (fst r))
      as [w err].
    destruct err as [msg |].
    + destruct (IH (retention.sleep env 300
                      (w, snd r ++ [retention.EvExec (retention.sqlDropTable env p)])))
        as (added & Hlog & Hexec & Hsel & Hlen).
      exists (retention.EvExec (retention.sqlDropTable env p)
              :: retention.EvSleep 300 :: added).
      rewrite Hlog, sleep_log. cbn [snd].
      repeat rewrite <- app_assoc. cbn [app filter retention.isExec retention.isSelect map].
      rewrite Hexec, Hsel. repeat split; try reflexivity.
      cbn [List.length]. lia.
    + destruct (IH (retention.sleep env 5
                      (w, snd r ++ [retention.EvExec (retention.sqlDropTable env p)])))
        as (added & Hlog & Hexec & Hsel & Hlen).
      exists (retention.EvExec (retention.sqlDropTable env p)
              :: retention.EvSleep 5 :: added).
      rewrite Hlog, sleep_log. cbn [snd].
      repeat rewrite <- app_assoc. cbn [app filter retention.isExec retention.isSelect map].
      rewrite Hexec, Hsel. repeat split; try reflexivity.
      cbn [List.length]. lia.
Qed.

Lemma dropEach_events : forall parts (r : retention.Run (W:=W)),
  exists pauses,
    List.length pauses = List.length parts
    /\ snd (retention.dropEach env parts r)
       = snd r ++ flat_map (retention.dropAndPause env) (combine parts pauses)
    /\ Forall
         (fun p =>
            (snd p = 5 \/ snd p = 300)
            /\ ((forall w, snd (retention.Exec env
                                  (retention.sqlDropTable env (fst p)) w) = None)
                -> snd p = 5)
            /\ ((forall w, snd (retention.Exec env
                                  (retention.sqlDropTable env (fst p)) w) <> None)
                -> snd p = 300))
         (combine parts pauses).
Proof.
  induction parts as [| p rest IH]; intros r.
  - exists []. cbn. rewrite app_nil_r. repeat split. constructor.
  - cbn [retention.dropEach].
    destruct (retention.Exec env (retention.sqlDropTable env p) (fst r))
      as [w err] eqn:Hx.
    destruct err as [msg |].
    + destruct (IH (retention.sleep env 300
                      (w, snd r ++ [retention.EvExec (retention.sqlDropTable env p)])))
        as (pauses & Hlen & Hlog & Hall).
      exists (300 :: pauses). split; [cbn; rewrite Hlen; reflexivity |].
      split.
      * rewrite Hlog, sleep_log. cbn [snd combine flat_map retention.dropAndPause fst].
        repeat rewrite <- app_assoc. reflexivity.
      * cbn [combine]. constructor; [| exact Hall]. cbn [fst snd].
        split; [right; reflexivity |]. split; [| reflexivity].
        intros Hnone. specialize (Hnone (fst r)). rewrite Hx in Hnone.
        discriminate Hnone.
    + destruct (IH (retention.sleep env 5
                      (w, snd r ++ [retention.EvExec (retention.sqlDropTable env p)])))
        as (pauses & Hlen & Hlog & Hall).
      exists (5 :: pauses). split; [cbn; rewrite Hlen; reflexivity |].
      split.
      * rewrite Hlog, sleep_log. cbn [snd combine flat_map retention.dropAndPause fst].
        repeat rewrite <- app_assoc. reflexivity.
      * cbn [combine]. constructor; [| exact Hall]. cbn [fst snd].
        split; [left; reflexivity |]. split; [reflexivity |].
        intros Hsome. specialize (Hsome (fst r)). rewrite Hx in Hsome.
        contradiction Hsome. reflexivity.
Qed.

(** X22: In plain mode a turn that gets the listing of old partitions logs,
  after the listing query, exactly this: for each listed partition, in the
  order of the listing, one [DROP TABLE IF EXISTS] with the sanitized name
  followed by one pause, of 5 or of 300 seconds; and nothing else.  A
  partition whose drop cannot fail is followed by the pause of 5 seconds,
  one whose drop always fails by that of 300 seconds, and a failed drop
  does not keep the later partitions from being dropped.  The turn does not
  end in a [continue]. *)
Theorem plain_turn_drops_every_listed_partition :
  forall days (r r1 : retention.Run (W:=W)) parts,
    retention.GetOldTimePartitions env days r = (r1, Ok parts) ->
    exists pauses,
      List.length pauses = List.length parts
      /\ snd (fst (retention.cycle env sinks.DbStorageSchemaPostgres days r))
         = snd r
           ++ retention.EvQuery retention.sqlGetOldParts [retention.ArgInt days]
           :: flat_map (retention.dropAndPause env) (combine parts pauses)
      /\ Forall
           (fun p =>
              (snd p = 5 \/ snd p = 300)
              /\ ((forall w, snd (retention.Exec env
                                    (retention.sqlDropTable env (fst p)) w) = None)
                  -> snd p = 5)
              /\ ((forall w, snd (retention.Exec env
                                    (retention.sqlDropTable env (fst p)) w) <> None)
                  -> snd p = 300))
           (combine parts pauses)
      /\ snd (retention.cycle env sinks.DbStorageSchemaPostgres days r) = false.
Proof.
  intros days r r1 parts Hget.
  pose proof (GetOldTimePartitions_log days r) as Hq. rewrite Hget in Hq.
  cbn [fst] in Hq.
  unfold retention.cycle. rewrite Hget. cbn [fst snd].
  destruct (dropEach_events parts r1) as (pauses & Hlen & Hlog & Hall).
  exists pauses. split; [exact Hlen |]. split.
  - rewrite Hlog, Hq, <- app_assoc. reflexivity.
  - split; [exact Hall | reflexivity].
Qed.

Lemma concat_repeat_S : forall (A : Type) (l : list A) n,
  l ++ List.concat (repeat l n) = List.concat (repeat l (S n)).
Proof. intros. reflexivity. Qed.

(** X23: While the first call of a turn fails, the worker never comes to
  the [select] on its context: after any number of turns it is still in its
  loop, and its log holds only the failed call of each turn, in timescale
  mode without any pause between two calls. *)
Theorem failing_worker_never_checks_the_context :
  forall schema days turns (r : retention.Run (W:=W)),
    (forall sql args w, exists w' msg,
        retention.QueryRow_Scan_int env sql args w = (w', Err msg)) ->
    (forall sql args w, exists w' msg,
        retention.Query_CollectRows env sql args w = (w', Err msg)) ->
    snd (retention.loop env turns schema days r) = retention.StillLooping
    /\ snd (fst (retention.loop env turns schema days r))
       = snd r ++ List.concat (repeat (retention.failingTurn schema days) turns).
Proof.
  intros schema days turns r Hrow Hquery. revert r.
  induction turns as [| n IH]; intros r.
  - cbn. rewrite app_nil_r. split; reflexivity.
  - cbn [retention.loop].
    destruct schema; unfold retention.cycle.
    + unfold retention.GetOldTimePartitions.
      destruct (Hquery retention.sqlGetOldParts [retention.ArgInt days] (fst r))
        as (w' & msg & Hq).
      rewrite Hq.
      destruct (IH (retention.sleep env 300
                 (w', snd r ++ [retention.EvQuery retention.sqlGetOldParts
                                  [retention.ArgInt days]]))) as [Hs Hl].
      split; [exact Hs |].
      rewrite Hl, sleep_log. cbn [snd repeat List.concat retention.failingTurn].
      repeat rewrite <- app_assoc. reflexivity.
    + unfold retention.DropOldTimePartitions.
      destruct (Hrow retention.sqlOldPart
                  [retention.ArgInt days; retention.ArgBool false] (fst r))
        as (w' & msg & Hq).
      rewrite Hq.
      destruct (IH (w', snd r ++ [retention.EvQueryRow retention.sqlOldPart
                     [retention.ArgInt days; retention.ArgBool false]]))
        as [Hs Hl].
      split; [exact Hs |].
      rewrite Hl. cbn [snd repeat List.concat retention.failingTurn].
      repeat rewrite <- app_assoc. reflexivity.
Qed.

Lemma cycle_log : forall schema days (r : retention.Run (W:=W)),
  exists added,
    snd (fst (retention.cycle env schema days r)) = snd r ++ added.
Proof.
  intros schema days r. unfold retention.cycle. destruct schema.
  - destruct (retention.GetOldTimePartitions env days r) as [r1 res] eqn:Hg.
    pose proof (GetOldTimePartitions_log days r) as Hl. rewrite Hg in Hl.
    cbn [fst] in Hl. destruct res as [parts | msg].
    + destruct (dropEach_log parts r1) as (added & Hlog & _).
      eexists. cbn [fst]. rewrite Hlog, Hl, <- app_assoc. reflexivity.
    + eexists. cbn [fst]. rewrite sleep_log, Hl, <- app_assoc. reflexivity.
  - destruct (retention.DropOldTimePartitions env days r) as [r1 res] eqn:Hg.
    pose proof (DropOldTimePartitions_log days r) as Hl. rewrite Hg in Hl.
    cbn [fst] in Hl. destruct res; eexists; cbn [fst]; exact Hl.
Qed.

Lemma loop_returns_at_select : forall schema days turns (r r' : retention.Run (W:=W)),
  retention.loop env turns schema days r = (r', retention.HasReturned) ->
  exists added,
    snd r' = snd r ++ added ++ [retention.EvSelect (12 * 3600)].
Proof.
  intros schema days turns. induction turns as [| n IH]; intros r r' H.
  - cbn in H. inversion H.
  - cbn [retention.loop] in H.
    destruct (retention.cycle env schema days r) as [r1 again] eqn:Hc.
    destruct (cycle_log schema days r) as (a1 & Ha1). rewrite Hc in Ha1.
    cbn [fst] in Ha1.
    destruct again.
    + destruct (IH _ _ H) as (a2 & Ha2).
      exists (a1 ++ a2). rewrite Ha2, Ha1. repeat rewrite <- app_assoc.
      reflexivity.
    + destruct (retention.selectDone env (12 * 3600) r1) as [r2 done] eqn:Hsel.
      pose proof (selectDone_log (12 * 3600) r1) as Hl. rewrite Hsel in Hl.
      cbn [fst] in Hl. destruct done.
      * inversion H; subst. exists a1. rewrite Hl, Ha1, <- app_assoc.
        reflexivity.
      * destruct (IH _ _ H) as (a2 & Ha2).
        exists (a1 ++ retention.EvSelect (12 * 3600) :: a2).
        rewrite Ha2, Hl, Ha1. repeat rewrite <- app_assoc. reflexivity.
Qed.

Lemma loop_log : forall schema days turns (r : retention.Run (W:=W)),
  exists added,
    snd (fst (retention.loop env turns schema days r)) = snd r ++ added.
Proof.
  intros schema days turns. induction turns as [| n IH]; intros r.
  - exists []. cbn. rewrite app_nil_r. reflexivity.
  - cbn [retention.loop].
    destruct (retention.cycle env schema days r) as [r1 again] eqn:Hc.
    destruct (cycle_log schema days r) as (a1 & Ha1). rewrite Hc in Ha1.
    cbn [fst] in Ha1.
    destruct again.
    + destruct (IH r1) as (a2 & Ha2). exists (a1 ++ a2).
      rewrite Ha2, Ha1, <- app_assoc. reflexivity.
    + destruct (retention.selectDone env (12 * 3600) r1) as [r2 done] eqn:Hsel.
      pose proof (selectDone_log (12 * 3600) r1) as Hl. rewrite Hsel in Hl.
      cbn [fst] in Hl. destruct done.
      * exists (a1 ++ [retention.EvSelect (12 * 3600)]). cbn [fst].
        rewrite Hl, Ha1, <- app_assoc. reflexivity.
      * destruct (IH r2) as (a2 & Ha2).
        exists (a1 ++ retention.EvSelect (12 * 3600) :: a2).
        rewrite Ha2, Hl, Ha1. repeat rewrite <- app_assoc. reflexivity.
Qed.

Lemma selectDone_done : forall d (r : retention.Run (W:=W)),
  snd (retention.selectDone env d r) = snd (retention.ctxDoneWithin env d (fst r)).
Proof.
  intros. unfold retention.selectDone.
  destruct (retention.ctxDoneWithin env d (fst r)). reflexivity.
Qed.

(** X24: With a retention of zero days or less the worker returns at once:
  no call, no pause.  With more, whatever happens later, the first thing it
  does is to wait an hour on its context, before any call to the pool; when
  the context is done within that hour it returns without a call; and when
  it returns at all, it does so from a [select] on its context: the last
  thing it did is the hour-long [select] or a twelve-hour [select]. *)
Theorem worker_returns_only_when_context_is_done :
  forall turns schema days (r : retention.Run (W:=W)),
    let out := retention.OldPostgresMetricsDeleter env turns schema days r in
    (days <= 0 -> out = (r, retention.HasReturned))
    /\ (0 < days ->
        exists added,
          snd (fst out) = snd r ++ retention.EvSelect 3600 :: added
          /\ (snd (retention.ctxDoneWithin env 3600 (fst r)) = true ->
              snd out = retention.HasReturned /\ added = [])
          /\ (snd out = retention.HasReturned ->
              added = []
              \/ exists added',
                   added = added' ++ [retention.EvSelect (12 * 3600)])).
Proof.
  intros turns schema days r out. subst out.
  unfold retention.OldPostgresMetricsDeleter. split.
  - intros Hd. apply Z.leb_le in Hd. rewrite Hd. reflexivity.
  - intros Hd. apply Z.leb_gt in Hd. rewrite Hd.
    pose proof (selectDone_log 3600 r) as Hl.
    pose proof (selectDone_done 3600 r) as Hdone.
    destruct (retention.selectDone env 3600 r) as [r1 done].
    cbn [fst snd] in Hl, Hdone. destruct done.
    + exists []. cbn [fst snd]. split; [exact Hl |].
      split; [intros _; split; reflexivity | intros _; left; reflexivity].
    + destruct (loop_log schema days turns r1) as (added & Ha).
      exists added. split; [rewrite Ha, Hl, <- app_assoc; reflexivity |].
      split.
      * intros Ht. rewrite <- Hdone in Ht. discriminate Ht.
      * intros Hret. right.
        destruct (retention.loop env turns schema days r1) as [r' st] eqn:Hloop.
        cbn [fst snd] in Ha, Hret. subst st.
        destruct (loop_returns_at_select _ _ _ _ _ Hloop) as (added' & Ha').
        exists added'. rewrite Ha in Ha'. apply app_inv_head in Ha'. exact Ha'.
Qed.

End RetentionFacts.

Lemma plain_turn_drops_every_listed_partition_witness :
  let drop := retention.sqlDropTable Examples.retentionEnv in
  snd (fst (retention.cycle Examples.retentionEnv
              sinks.DbStorageSchemaPostgres 14 (1%nat, [])))
    = [retention.EvQuery retention.sqlGetOldParts [retention.ArgInt 14];
       retention.EvExec (drop "metric_a_y2020w01"); retention.EvSleep 300;
       retention.EvExec (drop "metric_b_y2020w01"); retention.EvSleep 5]
  /\ snd (retention.cycle Examples.retentionEnv
            sinks.DbStorageSchemaPostgres 14 (1%nat, [])) = false.
Proof.
  intro drop.
  destruct (plain_turn_drops_every_listed_partition Examples.retentionEnv 14
              (1%nat, [])
              (2%nat, [retention.EvQuery retention.sqlGetOldParts
                         [retention.ArgInt 14]])
              ["metric_a_y2020w01"; "metric_b_y2020w01"] eq_refl)
    as (pauses & Hlen & Hlog & Hall & Hend).
  split; [| exact Hend].
  destruct pauses as [| a [| b [| c rest]]]; try discriminate Hlen.
  cbn [combine] in Hall.
  pose proof (Forall_inv Hall) as (_ & _ & Ha).
  pose proof (Forall_inv (Forall_inv_tail Hall)) as (_ & Hb & _).
  cbn [fst snd] in Ha, Hb.
  rewrite Hlog, Ha, Hb.
  - reflexivity.
  - intros w. reflexivity.
  - intros w. discriminate.
Defined.

Lemma failing_worker_never_checks_the_context_witness :
  snd (retention.loop Examples.brokenEnv 3 sinks.DbStorageSchemaTimescale 14
         (0%nat, []))
    = retention.StillLooping
  /\ snd (fst (retention.loop Examples.brokenEnv 3
                 sinks.DbStorageSchemaTimescale 14 (0%nat, [])))
     = [] ++ List.concat
               (repeat (retention.failingTurn sinks.DbStorageSchemaTimescale 14) 3).
Proof.
  apply (failing_worker_never_checks_the_context Examples.brokenEnv
           sinks.DbStorageSchemaTimescale 14 3 (0%nat, [])).
  - intros sql args w. exists (S w), "function does not exist". reflexivity.
  - intros sql args w. exists (S w), "function does not exist". reflexivity.
Defined.

Lemma worker_returns_only_when_context_is_done_witness :
  let out := retention.OldPostgresMetricsDeleter Examples.retentionEnv 2
               sinks.DbStorageSchemaPostgres 14 (0%nat, []) in
  0 < 14 /\
  exists added,
    snd (fst out) = [] ++ retention.EvSelect 3600 :: added
    /\ (snd (retention.ctxDoneWithin Examples.retentionEnv 3600 0%nat) = true ->
        snd out = retention.HasReturned /\ added = [])
    /\ (snd out = retention.HasReturned ->
        added = []
        \/ exists added', added = added' ++ [retention.EvSelect (12 * 3600)]).
Proof.
  intro out. split; [lia |].
  destruct (worker_returns_only_when_context_is_done Examples.retentionEnv 2
              sinks.DbStorageSchemaPostgres 14 (0%nat, [])) as [_ H].
  apply H. lia.
Defined.

(* ------------------------------------------------------------------ *)
(** ** The maintainer of the listing table *)

Lemma foundDbnames_from : forall (ret : list string) (m : gomap bool),
  NoDup (map fst m) ->
  let m' := fold_left (fun m d => mapSet m d true) ret m in
  NoDup (map fst m')
  /\ (forall d, In d (map fst m') <-> In d (map fst m) \/ In d ret).
Proof.
  induction ret as [| x ret IH]; intros m Hnd; cbn [fold_left].
  - split; [exact Hnd |]. intros d. split; [intro H; left; exact H |].
    intros [H | []]. exact H.
  - destruct (IH (mapSet m x true) (mapSet_NoDup _ m x true Hnd)) as [Hn Hi].
    split; [exact Hn |]. intros d. rewrite Hi. split.
    + intros [H | H].
      * destruct (mapSet_keys _ m x true d H) as [He | Hm].
        -- right. left. symmetry. exact He.
        -- left. exact Hm.
      * right. right. exact H.
    + intros [H | [H | H]].
      * left. apply in_map_iff in H. destruct H as ([k v] & Hk & Hin).
        cbn in Hk. subst k.
        destruct (String.eqb d x) eqn:Hdx.
        -- apply String.eqb_eq in Hdx. subst d.
           apply in_map_iff. exists (x, true). split; [reflexivity |].
           apply mapSet_In.
        -- apply in_map_iff. exists (d, v). split; [reflexivity |].
           apply mapSet_keeps; [exact Hin |]. cbn.
           apply String.eqb_neq. exact Hdx.
      * left. subst d. apply in_map_iff. exists (x, true).
        split; [reflexivity | apply mapSet_In].
      * right. exact H.
Qed.

Lemma foundDbnames_keys : forall ret : list string,
  NoDup (map fst (maintainer.foundDbnames ret))
  /\ (forall d, In d (map fst (maintainer.foundDbnames ret)) <-> In d ret).
Proof.
  intros ret. destruct (foundDbnames_from ret [] (NoDup_nil _)) as [Hn Hi].
  split; [exact Hn |]. intros d. rewrite (Hi d). cbn. tauto.
Qed.

Section MaintainerFacts.
Context {W : Type} (env : maintainer.Env W).

Lemma maintainer_query_log : forall sql (r : maintainer.Run (W:=W)),
  snd (fst (maintainer.query env sql r)) = snd r ++ [maintainer.EvQuery sql].
Proof.
  intros. unfold maintainer.query.
  destruct (maintainer.Query_CollectRows env sql (fst r)). reflexivity.
Qed.

Lemma maintainer_exec_log : forall sql args (r : maintainer.Run (W:=W)),
  snd (fst (maintainer.exec env sql args r))
  = snd r ++ [maintainer.EvExec sql args].
Proof.
  intros. unfold maintainer.exec.
  destruct (maintainer.Exec env sql args (fst r)). reflexivity.
Qed.

(** X25: When the names of a table can be read, the refresh replaces the
  listing of that table: with no name found it deletes all entries of the
  metric and goes on without a pause; otherwise it sends one array to the
  delete and the same array to the insert, whether or not the delete
  failed, and pauses a minute.  The array holds every name found exactly
  once.  The loop over the tables goes on. *)
Theorem refresh_sends_each_found_name_once :
  forall tableName (r r1 : maintainer.Run (W:=W)) ret,
    (forall m, Permutation (maintainer.mapRange env m) (map fst m)) ->
    maintainer.query env (maintainer.sqlDistinct tableName) r = (r1, Ok ret) ->
    exists foundDbnamesArr,
      NoDup foundDbnamesArr
      /\ (forall d, In d foundDbnamesArr <-> In d ret)
      /\ snd (fst (maintainer.refreshTable env tableName r))
         = snd r ++ maintainer.refreshLog tableName ret foundDbnamesArr
      /\ snd (maintainer.refreshTable env tableName r) = false.
Proof.
  intros tableName r r1 ret Hperm Hq.
  pose proof (maintainer_query_log (maintainer.sqlDistinct tableName) r) as Hl.
  rewrite Hq in Hl. cbn [fst] in Hl.
  destruct (foundDbnames_keys ret) as [Hnd Hin].
  pose proof (Hperm (maintainer.foundDbnames ret)) as Hp.
  exists (maintainer.mapRange env (maintainer.foundDbnames ret)).
  split; [| split].
  - apply (Permutation_NoDup (Permutation_sym Hp)). exact Hnd.
  - intros d. rewrite <- (Hin d). split; intro H.
    + apply (Permutation_in _ Hp). exact H.
    + apply (Permutation_in _ (Permutation_sym Hp)). exact H.
  - unfold maintainer.refreshTable. rewrite Hq.
    destruct (maintainer.mapRange env (maintainer.foundDbnames ret))
      as [| a arr] eqn:Harr.
    + assert (ret = []) as ->.
      { destruct ret as [| x ret']; [reflexivity |]. exfalso.
        assert (In x (@nil string)) as [].
        { apply (Permutation_in _ (Permutation_sym Hp)). apply Hin.
          left. reflexivity. } }
      replace (len (@nil string) =? 0) with true by reflexivity.
      cbn [fst snd maintainer.refreshLog].
      rewrite maintainer_exec_log, Hl, <- app_assoc. split; reflexivity.
    + assert (exists x ret', ret = x :: ret') as (x & ret' & ->).
      { destruct ret as [| x ret']; [| exists x, ret'; reflexivity]. exfalso.
        assert (In a (@nil string)) as [].
        { apply Hin. apply (Permutation_in _ Hp). left. reflexivity. } }
      replace (len (a :: arr) =? 0) with false
        by (symmetry; apply Z.eqb_neq; rewrite len_cons;
            unfold len; lia).
      pose proof (maintainer_exec_log maintainer.sqlDelete
        [maintainer.ArgStrings (a :: arr);
         maintainer.ArgString
           (maintainer.strings_Replace1 tableName "public." EmptyString)] r1)
        as Hd.
      destruct (maintainer.exec env maintainer.sqlDelete _ r1) as [r2 e2].
      cbn [fst] in Hd.
      pose proof (maintainer_exec_log maintainer.sqlAdd
        [maintainer.ArgStrings (a :: arr);
         maintainer.ArgString
           (maintainer.strings_Replace1 tableName "public." EmptyString)] r2)
        as Ha.
      destruct (maintainer.exec env maintainer.sqlAdd _ r2) as [r3 e3].
      cbn [fst] in Ha.
      cbn [fst snd maintainer.refreshLog maintainer.sleep].
      rewrite Ha, Hd, Hl. repeat rewrite <- app_assoc. split; reflexivity.
Qed.

(** X26: A table whose names cannot be read ends the refresh of the turn:
  the tables listed after it are neither read nor changed. *)
Theorem unreadable_table_ends_the_refresh :
  forall tableName before after (r : maintainer.Run (W:=W)),
    (forall w, exists w' msg,
        maintainer.Query_CollectRows env (maintainer.sqlDistinct tableName) w
        = (w', Err msg)) ->
    maintainer.refreshTables env (before ++ tableName :: after) r
    = maintainer.refreshTables env (before ++ [tableName]) r.
Proof.
  intros tableName before after r Hfail. revert r.
  induction before as [| t before IH]; intros r.
  - cbn [app maintainer.refreshTables].
    unfold maintainer.refreshTable, maintainer.query.
    destruct (Hfail (fst r)) as (w' & msg & Hq). rewrite Hq. reflexivity.
  - cbn [app maintainer.refreshTables].
    destruct (maintainer.refreshTable env t r) as [r1 broke].
    destruct broke; [reflexivity | apply IH].
Qed.

Lemma turn_without_lock : forall r : maintainer.Run (W:=W),
  (forall w, snd (maintainer.QueryRow_Scan_bool env
                    maintainer.sqlGetAdvisoryLock w) <> Ok true) ->
  exists added,
    snd (fst (maintainer.turn env r)) = snd r ++ added
    /\ filter maintainer.touchesTables added = [].
Proof.
  intros r Hlock. unfold maintainer.turn, maintainer.selectDone.
  destruct (maintainer.ctxDoneWithin env (24 * 3600) (fst r)) as [w0 done].
  destruct done.
  - exists [maintainer.EvSelect (24 * 3600)]. split; reflexivity.
  - unfold maintainer.queryRow. cbn [fst snd].
    pose proof (Hlock w0) as Hn.
    destruct (maintainer.QueryRow_Scan_bool env maintainer.sqlGetAdvisoryLock w0)
      as [w1 lock].
    cbn [snd] in Hn.
    exists [maintainer.EvSelect (24 * 3600);
            maintainer.EvQueryRow maintainer.sqlGetAdvisoryLock].
    destruct lock as [[|] | msg]; [congruence | |];
      cbn [fst snd]; rewrite <- app_assoc; split; reflexivity.
Qed.

(** X27: A maintainer that never gets the advisory lock, because another
  instance holds it or because asking for it fails, neither reads nor
  changes any table, however many turns it makes. *)
Theorem maintainer_without_lock_touches_no_table :
  forall turns (r : maintainer.Run (W:=W)),
    (forall w, snd (maintainer.QueryRow_Scan_bool env
                      maintainer.sqlGetAdvisoryLock w) <> Ok true) ->
    exists added,
      snd (fst (maintainer.UniqueDbnamesListingMaintainer env turns r))
        = snd r ++ added
      /\ filter maintainer.touchesTables added = [].
Proof.
  intros turns r Hlock. revert r.
  induction turns as [| n IH]; intros r.
  - exists []. cbn. rewrite app_nil_r. split; reflexivity.
  - cbn [maintainer.UniqueDbnamesListingMaintainer].
    destruct (turn_without_lock r Hlock) as (a1 & Ha1 & Hf1).
    destruct (maintainer.turn env r) as [r1 returned].
    cbn [fst] in Ha1. destruct returned.
    + exists a1. split; assumption.
    + destruct (IH r1) as (a2 & Ha2 & Hf2).
      exists (a1 ++ a2). rewrite Ha2, Ha1, <- app_assoc.
      split; [reflexivity |]. rewrite filter_app, Hf1, Hf2. reflexivity.
Qed.

End MaintainerFacts.

Lemma refresh_sends_each_found_name_once_witness :
  exists foundDbnamesArr,
    NoDup foundDbnamesArr
    /\ (forall d, In d foundDbnamesArr <-> In d ["db2"; "db1"; "db2"])
    /\ snd (fst (maintainer.refreshTable Examples.maintainerEnv "public.cpu"
                   (0%nat, [])))
       = [] ++ maintainer.refreshLog "public.cpu" ["db2"; "db1"; "db2"]
                 foundDbnamesArr
    /\ snd (maintainer.refreshTable Examples.maintainerEnv "public.cpu"
              (0%nat, [])) = false.
Proof.
  apply (refresh_sends_each_found_name_once Examples.maintainerEnv "public.cpu"
           (0%nat, [])
           (1%nat, [maintainer.EvQuery (maintainer.sqlDistinct "public.cpu")])
           ["db2"; "db1"; "db2"]).
  - intros m. cbn. apply Permutation_sym. apply Permutation_rev.
  - reflexivity.
Defined.

Lemma unreadable_table_ends_the_refresh_witness :
  maintainer.refreshTables Examples.maintainerEnv
    (["public.cpu"] ++ "public.broken" :: ["public.mem"]) (0%nat, [])
  = maintainer.refreshTables Examples.maintainerEnv
      (["public.cpu"] ++ ["public.broken"]) (0%nat, []).
Proof.
  apply (unreadable_table_ends_the_refresh Examples.maintainerEnv
           "public.broken" ["public.cpu"] ["public.mem"] (0%nat, [])).
  intros w. exists (S w), "relation does not exist". reflexivity.
Defined.

Lemma maintainer_without_lock_touches_no_table_witness :
  exists added,
    snd (fst (maintainer.UniqueDbnamesListingMaintainer Examples.lockedOutEnv 3
                (0%nat, [])))
      = [] ++ added
    /\ filter maintainer.touchesTables added = [].
Proof.
  apply (maintainer_without_lock_touches_no_table Examples.lockedOutEnv 3
           (0%nat, [])).
  intros w. cbn. destruct (Nat.even w); discriminate.
Defined.

(* ------------------------------------------------------------------ *)
(** ** A row through the whole pass *)

Section PassFacts.
Import sinks.
Context {W : Type} (env : Env W).

Lemma processRows_app : forall msg rows1 rows2 sb,
  processRows env msg (rows1 ++ rows2) sb
  = match processRows env msg rows1 sb with
    | Panic why => Panic why
    | Normal sb1 => processRows env msg rows2 sb1
    end.
Proof.
  intros msg. induction rows1 as [| row rest IH]; intros rows2 sb.
  - reflexivity.
  - cbn [app processRows].
    destruct (processRow env msg row sb) as [sb1 | why]; [apply IH | reflexivity].
Qed.

Lemma processMsgs_rows : forall m rest sb,
  metrics.Data m <> [] ->
  processMsgs env (m :: rest) sb
  = match processRows env m (metrics.Data m) sb with
    | Panic why => Panic why
    | Normal sb1 => processMsgs env rest sb1
    end.
Proof.
  intros m rest sb Hne. rewrite processMsgs_cons.
  destruct (metrics.Data m); [contradiction | reflexivity].
Qed.

Lemma processMsgs_app : forall pre post sb,
  processMsgs env (pre ++ post) sb
  = match processMsgs env pre sb with
    | Panic why => Panic why
    | Normal sb1 => processMsgs env post sb1
    end.
Proof.
  induction pre as [| m rest IH]; intros post sb.
  - reflexivity.
  - cbn [app]. rewrite !processMsgs_cons.
    destruct (metrics.Data m) as [| row rows]; [apply IH |].
    destruct (processRows env m (row :: rows) sb) as [sb1 | why];
      [apply IH | reflexivity].
Qed.

(** An entry held for the copy loop stays where it is while later rows are
  added. *)
Lemma processRow_keeps_entry : forall msg dataRow s b s1 b1 name entry,
  processRow env msg dataRow (s, b) = Normal (s1, b1) ->
  (exists before after,
     mapGet (metricsToStorePerMetric b) name = Some (before ++ entry :: after)) ->
  exists before after,
    mapGet (metricsToStorePerMetric b1) name = Some (before ++ entry :: after).
Proof.
  intros msg dataRow s b s1 b1 name entry H (before & after & Hget).
  unfold processRow in H.
  destruct (scanRow env dataRow _) as [r | why]; [| discriminate H].
  destruct (if epochNs r =? 0 then now env s else (s, time_Unix0 (epochNs r)))
    as [s' t].
  assert (Hstore :
    exists before' after',
      mapGet
        (mapSet (metricsToStorePerMetric b) (metrics.MetricName msg)
           (match mapGet (metricsToStorePerMetric b) (metrics.MetricName msg) with
            | Some a => a
            | None => []
            end ++ [mkEntry t (metrics.DBName msg) (metrics.MetricName msg)
                      (fields r) (tags r)])) name
      = Some (before' ++ entry :: after')).
  { destruct (String.eqb (metrics.MetricName msg) name) eqn:Hn.
    - apply String.eqb_eq in Hn. rewrite Hn, mapGet_mapSet_same, Hget.
      exists before. eexists. rewrite <- app_assoc. reflexivity.
    - apply String.eqb_neq in Hn. rewrite (mapGet_mapSet_other _ _ _ _ _ Hn).
      exists before, after. exact Hget. }
  destruct (MetricSchema (pgw s)); inversion H; subst; exact Hstore.
Qed.

Lemma processRows_keeps_entry : forall msg rows s b s1 b1 name entry,
  processRows env msg rows (s, b) = Normal (s1, b1) ->
  (exists before after,
     mapGet (metricsToStorePerMetric b) name = Some (before ++ entry :: after)) ->
  exists before after,
    mapGet (metricsToStorePerMetric b1) name = Some (before ++ entry :: after).
Proof.
  intros msg. induction rows as [| row rest IH];
    intros s b s1 b1 name entry H Hheld.
  - inversion H; subst. exact Hheld.
  - cbn [processRows] in H.
    destruct (processRow env msg row (s, b)) as [[s' b'] | why] eqn:Hr;
      [| discriminate H].
    eapply IH; [exact H |]. eapply processRow_keeps_entry; eassumption.
Qed.

Lemma processMsgs_keeps_entry : forall msgs s b s1 b1 name entry,
  processMsgs env msgs (s, b) = Normal (s1, b1) ->
  (exists before after,
     mapGet (metricsToStorePerMetric b) name = Some (before ++ entry :: after)) ->
  exists before after,
    mapGet (metricsToStorePerMetric b1) name = Some (before ++ entry :: after).
Proof.
  induction msgs as [| m rest IH]; intros s b s1 b1 name entry H Hheld.
  - inversion H; subst. exact Hheld.
  - rewrite processMsgs_cons in H.
    destruct (metrics.Data m) as [| row rows]; [eapply IH; eassumption |].
    destruct (processRows env m (row :: rows) (s, b)) as [[s' b'] | why] eqn:Hr;
      [| discriminate H].
    eapply IH; [exact H |]. eapply processRows_keeps_entry; eassumption.
Qed.

(** The row of nulls, on its own. *)
Lemma processRow_nulls : forall msg dataRow (s : State W) b,
  forallb nullOrEmpty dataRow = true ->
  exists b1,
    processRow env msg dataRow (s, b) = Normal (fst (now env s), b1) /\
    mapGet (metricsToStorePerMetric b1) (metrics.MetricName msg)
    = Some (match mapGet (metricsToStorePerMetric b) (metrics.MetricName msg) with
            | Some a => a
            | None => []
            end
            ++ [mkEntry (snd (now env s)) (metrics.DBName msg)
                  (metrics.MetricName msg) []
                  (copyCustomTags env (metrics.CustomTags msg) [])]).
Proof.
  intros msg dataRow s b Hnull. unfold processRow.
  rewrite (scanRow_nulls env dataRow _ Hnull). cbn [epochNs fields tags].
  replace (0 =? 0) with true by reflexivity.
  destruct (now env s) as [s1 t]. cbn [fst snd].
  destruct (MetricSchema (pgw s)); eexists; (split; [reflexivity |]);
    cbn [metricsToStorePerMetric]; apply mapGet_mapSet_same.
Qed.

(** The custom tags of a message, as tags of a row. *)
Lemma copyCustomTags_In : forall customTags acc kv,
  NoDup (map fst customTags) ->
  (forall k, In k (map fst customTags) -> ~ In k (map fst acc)) ->
  (In kv (copyCustomTags env customTags acc)
   <-> In kv acc \/ In kv (map (customTag env) customTags)).
Proof.
  induction customTags as [| [k v] rest IH]; intros acc kv Hnd Hdis.
  - cbn. tauto.
  - cbn [copyCustomTags map]. inversion Hnd as [| x l Hnotin Hnd']; subst.
    rewrite IH; [| exact Hnd' |].
    + split.
      * intros [H | H].
        -- apply In_mapSet in H. destruct H as [H | H].
           ++ right. left. subst kv. reflexivity.
           ++ left. exact H.
        -- right. right. exact H.
      * intros [H | [H | H]].
        -- left. apply mapSet_keeps; [exact H |].
           intro Heq. apply (Hdis k); [left; reflexivity |].
           rewrite <- Heq. apply in_map. exact H.
        -- left. subst kv. unfold customTag. cbn [fst snd]. apply mapSet_In.
        -- right. exact H.
    + intros k' Hin Hin'.
      apply mapSet_keys in Hin'. destruct Hin' as [He | Hacc].
      * subst k'. apply Hnotin. exact Hin.
      * apply (Hdis k'); [right; exact Hin | exact Hacc].
Qed.

Lemma copyCalls_app : forall metricName ms1 ms2,
  copyCalls env metricName (ms1 ++ ms2)
  = copyCalls env metricName ms1 ++ copyCalls env metricName ms2.
Proof.
  intros metricName. induction ms1 as [| m rest IH]; intros ms2.
  - reflexivity.
  - cbn [app copyCalls]. rewrite IH.
    destruct (json_Marshal env (Data m)); reflexivity.
Qed.

Lemma copyRows_app : forall metricName ms1 ms2 (s : State W),
  copyRows env metricName (ms1 ++ ms2) s
  = copyRows env metricName ms2 (copyRows env metricName ms1 s).
Proof.
  intros metricName. induction ms1 as [| m rest IH]; intros ms2 s.
  - reflexivity.
  - cbn [app copyRows]. apply IH.
Qed.

Lemma copyMetrics_app : forall store1 store2 (s : State W),
  copyMetrics env (store1 ++ store2) s
  = copyMetrics env store2 (copyMetrics env store1 s).
Proof.
  induction store1 as [| [name ms] rest IH]; intros store2 s.
  - reflexivity.
  - cbn [app copyMetrics]. apply IH.
Qed.

Lemma copyMetrics_calls : forall store (s : State W),
  callsOf (copyMetrics env store s)
  = callsOf s ++ flat_map (fun p => copyCalls env (fst p) (snd p)) store.
Proof.
  induction store as [| [name rows] rest IH]; intros s.
  - simpl. rewrite app_nil_r. reflexivity.
  - cbn [copyMetrics flat_map fst snd].
    rewrite IH, (copyRows_calls env), app_assoc. reflexivity.
Qed.

Lemma afterEnsure_SinkDb : forall err (s : State W),
  SinkDb (pgw (afterEnsure err s)) = SinkDb (pgw s).
Proof.
  intros err s. unfold afterEnsure.
  destruct (forceRecreatePGMetricPartitions (vars s)); destruct err; reflexivity.
Qed.

(** Where the copy loop of a flush starts and where the pass stands when it
  is over, with or without an error from the ensure step. *)
Lemma flush_afterCopy : forall (b : Batch) (s : State W),
  exists s0 sEnd,
    vars s0 = vars (afterEnsure (snd (ensureStep env b s)) (fst (ensureStep env b s)))
    /\ SinkDb (pgw s0) = SinkDb (pgw (fst (ensureStep env b s)))
    /\ afterCopy (flush env b s) = Some sEnd
    /\ vars sEnd = vars (copyMetrics env (metricsToStorePerMetric b) s0)
    /\ SinkDb (pgw sEnd)
       = SinkDb (pgw (copyMetrics env (metricsToStorePerMetric b) s0)).
Proof.
  intros b s. unfold flush.
  destruct (ensureStep env b s) as [s1 [e |]]; cbn [fst snd].
  - exists (with_lastError None (with_lastError (Some e) (afterEnsure (Some e) s1))).
    eexists. split; [reflexivity |].
    split; [exact (afterEnsure_SinkDb (Some e) s1) |].
    split; [reflexivity |]. split; reflexivity.
  - exists (afterEnsure None s1). eexists. split; [reflexivity |].
    split; [apply afterEnsure_SinkDb |].
    split; [reflexivity |]. split; reflexivity.
Qed.

Lemma mapGet_In : forall (V : Type) (m : gomap V) k v,
  mapGet m k = Some v -> In (k, v) m.
Proof.
  induction m as [| [k0 v0] m IH]; intros k v H; simpl in H.
  - discriminate H.
  - destruct (String.eqb k0 k) eqn:Hk.
    + apply String.eqb_eq in Hk. inversion H; subst. left. reflexivity.
    + right. apply IH. exact H.
Qed.

(** C3 (as amended): a measurement row whose fields are all null or the
  empty string is still stored, in any batch none of whose rows makes the
  pass panic.  The first loop of [write] holds one entry for it, with an
  empty payload, the custom tags of the message (rendered as strings) as
  its tags and a reading of the server clock as its time.  Once the copy
  loop of the pass is over, which is when the pass returns or, after an
  error of the ensure step, when that error has been received and the pass
  is suspended on it again, the calls made after the ensure step are
  exactly the copy calls of the entries held, and among them is the copy
  call of that entry, whose [data] column is the JSON text of the empty
  map. *)
Theorem all_null_row_is_stored_with_empty_data :
  forall (pre post : list metrics.MeasurementMessage)
         (msg : metrics.MeasurementMessage)
         (rows1 rows2 : list (gomap any)) (dataRow : gomap any)
         (s : State W) (jsonBytes : string),
    metrics.Data msg = rows1 ++ dataRow :: rows2 ->
    forallb nullOrEmpty dataRow = true ->
    epochsOk (pre ++ msg :: post) = true ->
    NoDup (map fst (metrics.CustomTags msg)) ->
    json_Marshal env [] = Ok jsonBytes ->
    let msgs := pre ++ msg :: post in
    let name := metrics.MetricName msg in
    exists s1 b entry before after sEnd earlier later,
      processMsgs env msgs (s, emptyBatch) = Normal (s1, b) /\
      mapGet (metricsToStorePerMetric b) name = Some (before ++ entry :: after) /\
      Data entry = [] /\
      DBName entry = metrics.DBName msg /\
      Metric entry = name /\
      (forall kv, In kv (TagData entry)
                  <-> In kv (map (customTag env) (metrics.CustomTags msg))) /\
      (exists s', Time entry = snd (now env s')) /\
      afterCopy (write env msgs s) = Some sEnd /\
      callsOf sEnd
        = callsOf (fst (ensureStep env b s1))
          ++ flat_map (fun p => copyCalls env (fst p) (snd p))
               (metricsToStorePerMetric b) /\
      flat_map (fun p => copyCalls env (fst p) (snd p)) (metricsToStorePerMetric b)
        = earlier
          ++ CallCopyFrom [name] targetColumns
               [mkCopyRow (Time entry) (metrics.DBName msg) jsonBytes
                  (tagColumn env entry)]
          :: later.
Proof.
  intros pre post msg rows1 rows2 dataRow s jsonBytes Hdata Hnull Hok Hnd Hj
    msgs name.
  unfold epochsOk in Hok. rewrite forallb_app in Hok.
  apply andb_true_iff in Hok. destruct Hok as [Hpre Hrest].
  cbn [forallb] in Hrest. apply andb_true_iff in Hrest.
  destruct Hrest as [Hmsg Hpost]. rewrite Hdata, forallb_app in Hmsg.
  apply andb_true_iff in Hmsg. destruct Hmsg as [Hrows1 Hrest].
  cbn [forallb] in Hrest. apply andb_true_iff in Hrest.
  destruct Hrest as [_ Hrows2].
  destruct (processMsgs_ok env pre (s, emptyBatch) Hpre) as [[sa ba] Ha].
  destruct (processRows_ok env msg rows1 (sa, ba) Hrows1) as [[sb bb] Hb].
  destruct (processRow_nulls msg dataRow sb bb Hnull) as (bc & Hc & Hheld).
  destruct (processRows_ok env msg rows2 (fst (now env sb), bc) Hrows2)
    as [[sd bd] Hd].
  destruct (processMsgs_ok env post (sd, bd) Hpost) as [[se be] He].
  set (entry := mkEntry (snd (now env sb)) (metrics.DBName msg)
                  (metrics.MetricName msg) []
                  (copyCustomTags env (metrics.CustomTags msg) [])) in *.
  assert (Hparse : processMsgs env msgs (s, emptyBatch) = Normal (se, be)).
  { subst msgs. rewrite processMsgs_app, Ha, processMsgs_rows.
    - rewrite Hdata, processRows_app, Hb. cbn [processRows].
      rewrite Hc, Hd. exact He.
    - rewrite Hdata. destruct rows1; discriminate. }
  assert (Hkept : exists before after,
            mapGet (metricsToStorePerMetric be) name
            = Some (before ++ entry :: after)).
  { eapply processMsgs_keeps_entry; [exact He |].
    eapply processRows_keeps_entry; [exact Hd |].
    eexists. exists []. exact Hheld. }
  destruct Hkept as (before & after & Hget).
  destruct (flush_afterCopy be se) as (s0 & sEnd & Hv0 & Hc0 & Hend & HvE & HcE).
  destruct (in_split _ _ (mapGet_In _ _ _ _ Hget)) as (store1 & store2 & Hsplit).
  exists se, be, entry, before, after, sEnd.
  exists (flat_map (fun p => copyCalls env (fst p) (snd p)) store1
          ++ copyCalls env name before).
  exists (copyCalls env name after
          ++ flat_map (fun p => copyCalls env (fst p) (snd p)) store2).
  split; [exact Hparse |]. split; [exact Hget |].
  split; [reflexivity |]. split; [reflexivity |]. split; [reflexivity |].
  split.
  { intros kv. subst entry. cbn [TagData].
    rewrite (copyCustomTags_In (metrics.CustomTags msg) [] kv Hnd).
    - cbn. tauto.
    - intros k _ []. }
  split; [exists sb; reflexivity |].
  split.
  { assert (Hw : write env msgs s = flush env be se).
    { unfold write. rewrite Hparse. subst msgs.
      destruct pre; reflexivity. }
    rewrite Hw. exact Hend. }
  split.
  { unfold callsOf. rewrite HcE.
    change (calls (SinkDb (pgw (copyMetrics env (metricsToStorePerMetric be) s0))))
      with (callsOf (copyMetrics env (metricsToStorePerMetric be) s0)).
    rewrite copyMetrics_calls. unfold callsOf. rewrite Hc0. reflexivity. }
  rewrite Hsplit, flat_map_app. cbn [flat_map fst snd].
  rewrite copyCalls_app. cbn [copyCalls]. subst entry. cbn [Data Time DBName].
  rewrite Hj. repeat rewrite <- app_assoc. reflexivity.
Qed.

End PassFacts.

Lemma all_null_row_is_stored_with_empty_data_witness :
  let s := Examples.writer None sinks.DbStorageSchemaPostgres
             [pgxmock.ExpectQuery (Ok Examples.covering);
              pgxmock.ExpectQuery (Ok Examples.covering);
              pgxmock.ExpectCopyFrom None; pgxmock.ExpectCopyFrom None;
              pgxmock.ExpectCopyFrom None] in
  exists s1 b entry before after sEnd earlier later,
    sinks.processMsgs Examples.E Examples.batchNullsTagged (s, sinks.emptyBatch)
      = sinks.Normal (s1, b) /\
    mapGet (sinks.metricsToStorePerMetric b) "wal"
      = Some (before ++ entry :: after) /\
    sinks.Data entry = [] /\
    sinks.DBName entry = "t1" /\
    sinks.Metric entry = "wal" /\
    (forall kv, In kv (sinks.TagData entry) <-> In kv [("env", AString "prod")]) /\
    (exists s', sinks.Time entry = snd (sinks.now Examples.E s')) /\
    sinks.afterCopy (sinks.write Examples.E Examples.batchNullsTagged s)
      = Some sEnd /\
    sinks.callsOf sEnd
      = sinks.callsOf (fst (sinks.ensureStep Examples.E b s1))
        ++ flat_map (fun p => sinks.copyCalls Examples.E (fst p) (snd p))
             (sinks.metricsToStorePerMetric b) /\
    flat_map (fun p => sinks.copyCalls Examples.E (fst p) (snd p))
      (sinks.metricsToStorePerMetric b)
      = earlier
        ++ CallCopyFrom ["wal"] sinks.targetColumns
             [mkCopyRow (sinks.Time entry) "t1" "{}"
                (sinks.tagColumn Examples.E entry)]
        :: later.
Proof.
  intro s.
  apply (all_null_row_is_stored_with_empty_data Examples.E
           [metrics.mkMessage "t1" "db_stats"
              [[("epoch_ns", AInt64 1700000000000000000);
                ("numbackends", AInt64 10)]] []]
           []
           (metrics.mkMessage "t1" "wal"
              [[("epoch_ns", AInt64 1700000000000000000); ("lsn", AInt64 7)];
               [("a", ANil); ("b", AString "")]]
              [("env", AString "prod")])
           [[("epoch_ns", AInt64 1700000000000000000); ("lsn", AInt64 7)]]
           [] [("a", ANil); ("b", AString "")] s "{}").
  - reflexivity.
  - reflexivity.
  - reflexivity.
  - repeat constructor. intros [].
  - reflexivity.
Defined.

(* ------------------------------------------------------------------ *)
(** ** Marshalling failures in the copy loop of a flush *)

Section CopyPhaseFacts.
Import sinks.
Context {W : Type} (env : Env W).

(** C8: in the copy loop of a flush, whatever the ensure step answered, the
  loop comes to each row [m] it holds in the state [sm] left by the rows
  before it, and goes on from the state the row leaves to the rows and the
  metrics after it; the calls of the loop are those of the rows before,
  those of [m], those of the rows after.  A row whose payload fails JSON
  marshalling makes no call, bumps [totalMetricsDroppedCounter] by one and
  changes nothing else.  A row whose tags fail JSON marshalling bumps
  [datastoreWriteFailuresCounter] by one and is copied all the same, with a
  null [tag_data] column (a failing copy then bumps the counter once more,
  as for any row). *)
Theorem copy_marshal_failures :
  forall (b : Batch) (s : State W)
         (pre post : gomap (list MeasurementMessagePostgres)) (name : string)
         (before after : list MeasurementMessagePostgres)
         (m : MeasurementMessagePostgres),
    metricsToStorePerMetric b = pre ++ (name, before ++ m :: after) :: post ->
    exists s0 sEnd thisRow,
      let s1 := fst (ensureStep env b s) in
      let sm := copyRows env name before (copyMetrics env pre s0) in
      let rest :=
        copyMetrics env post (copyRows env name after (copyOne env name m sm)) in
      vars s0 = vars (afterEnsure (snd (ensureStep env b s)) s1) /\
      SinkDb (pgw s0) = SinkDb (pgw s1) /\
      afterCopy (flush env b s) = Some sEnd /\
      vars sEnd = vars rest /\
      SinkDb (pgw sEnd) = SinkDb (pgw rest) /\
      callsOf (copyOne env name m sm) = callsOf sm ++ thisRow /\
      callsOf sEnd
        = callsOf s1
          ++ flat_map (fun p => copyCalls env (fst p) (snd p)) pre
          ++ copyCalls env name before
          ++ thisRow
          ++ copyCalls env name after
          ++ flat_map (fun p => copyCalls env (fst p) (snd p)) post /\
      (forall msg,
         json_Marshal env (Data m) = Err msg ->
         thisRow = [] /\
         copyOne env name m sm = incMetricsDropped sm /\
         totalMetricsDroppedCounter (vars (copyOne env name m sm))
           = AddUint64 (totalMetricsDroppedCounter (vars sm)) 1 /\
         datastoreWriteFailuresCounter (vars (copyOne env name m sm))
           = datastoreWriteFailuresCounter (vars sm)) /\
      (forall jsonBytes msg,
         json_Marshal env (Data m) = Ok jsonBytes ->
         0 < len (TagData m) ->
         json_Marshal env (TagData m) = Err msg ->
         let rows := [mkCopyRow (Time m) (DBName m) jsonBytes None] in
         thisRow = [CallCopyFrom [name] targetColumns rows] /\
         totalMetricsDroppedCounter (vars (copyOne env name m sm))
           = totalMetricsDroppedCounter (vars sm) /\
         datastoreWriteFailuresCounter (vars (copyOne env name m sm))
           = match snd (CopyFrom (pool env) [name] targetColumns rows
                          (world (SinkDb (pgw sm)))) with
             | None => AddUint64 (datastoreWriteFailuresCounter (vars sm)) 1
             | Some _ =>
                 AddUint64 (AddUint64 (datastoreWriteFailuresCounter (vars sm)) 1) 1
             end).
Proof.
  intros b s pre post name before after m Hstore.
  destruct (flush_afterCopy env b s) as (s0 & sEnd & Hv0 & Hc0 & Hend & HvE & HcE).
  exists s0, sEnd, (copyCalls env name [m]).
  cbv zeta.
  set (sm := copyRows env name before (copyMetrics env pre s0)).
  assert (Hrest :
    copyMetrics env (metricsToStorePerMetric b) s0
    = copyMetrics env post (copyRows env name after (copyOne env name m sm))).
  { rewrite Hstore, copyMetrics_app. cbn [copyMetrics].
    rewrite copyRows_app. reflexivity. }
  rewrite Hrest in HvE, HcE.
  split; [exact Hv0 |]. split; [exact Hc0 |]. split; [exact Hend |].
  split; [exact HvE |]. split; [exact HcE |].
  split; [apply copyOne_calls |].
  split.
  { unfold callsOf at 1. rewrite HcE.
    change (calls (SinkDb (pgw (copyMetrics env post
                                  (copyRows env name after
                                     (copyOne env name m sm))))))
      with (callsOf (copyMetrics env post
                       (copyRows env name after (copyOne env name m sm)))).
    rewrite copyMetrics_calls, (copyRows_calls env), (copyOne_calls env).
    subst sm. rewrite (copyRows_calls env), copyMetrics_calls.
    unfold callsOf at 1. rewrite Hc0.
    repeat rewrite <- app_assoc. reflexivity. }
  split.
  - intros msg Hm.
    assert (Hone : copyOne env name m sm = incMetricsDropped sm).
    { unfold copyOne. rewrite Hm. reflexivity. }
    split; [cbn [copyCalls]; rewrite Hm; reflexivity |].
    split; [exact Hone |]. rewrite Hone. split; reflexivity.
  - intros jsonBytes msg Hj Hlen Ht.
    set (rows := [mkCopyRow (Time m) (DBName m) jsonBytes None]).
    split.
    { cbn [copyCalls]. rewrite Hj. unfold tagColumn.
      apply Z.ltb_lt in Hlen. rewrite Hlen, Ht. reflexivity. }
    split.
    { rewrite (copyOne_dropped env), Hj. reflexivity. }
    unfold copyOne. rewrite Hj, (getTagData_failure env m sm msg Hlen Ht).
    fold rows.
    pose proof (sink_CopyFrom_effect env [name] targetColumns rows
                  (incWriteFailures sm)) as (_ & Hv & Hr).
    destruct (sink_CopyFrom env [name] targetColumns rows
                (incWriteFailures sm)) as [s2 r].
    simpl in Hv, Hr.
    change (world (SinkDb (pgw (incWriteFailures sm))))
      with (world (SinkDb (pgw sm))) in Hr.
    rewrite <- Hr. destruct r; simpl; rewrite Hv; reflexivity.
Qed.

End CopyPhaseFacts.

Lemma copy_marshal_failures_witness :
  let s := Examples.writer None sinks.DbStorageSchemaPostgres
             [pgxmock.ExpectQuery (Ok Examples.covering);
              pgxmock.ExpectCopyFrom None] in
  let s' := Examples.writer None sinks.DbStorageSchemaPostgres
              [pgxmock.ExpectCopyFrom None; pgxmock.ExpectCopyFrom None] in
  sinks.processMsgs Examples.E Examples.batchNaN (s, sinks.emptyBatch)
    = sinks.Normal (s, Examples.batchNaNParsed) /\
  (exists s0 sEnd,
     sinks.afterCopy (sinks.write Examples.E Examples.batchNaN s) = Some sEnd /\
     sinks.callsOf sEnd
       = [Examples.ensureOf 1700000000000000000;
          Examples.copyOf 1700000000000000001 (Examples.lsn "8")] /\
     sinks.totalMetricsDroppedCounter
       (sinks.vars (sinks.copyOne Examples.E "wal" Examples.entryRatioNaN s0)) = 1) /\
  (exists s0 sEnd,
     sinks.afterCopy (sinks.flush Examples.E Examples.batchTagNaN s') = Some sEnd /\
     sinks.callsOf sEnd
       = [Examples.copyOf 1700000000000000000 (Examples.lsn "7");
          Examples.copyOf 1700000000000000001 (Examples.lsn "8")] /\
     sinks.datastoreWriteFailuresCounter
       (sinks.vars (sinks.copyOne Examples.E "wal" Examples.entryTagNaN s0)) = 1).
Proof.
  intros s s'. split; [reflexivity |]. split.
  - destruct (copy_marshal_failures Examples.E Examples.batchNaNParsed s
                [] [] "wal" [] [Examples.entryLsn8] Examples.entryRatioNaN
                eq_refl)
      as (s0 & sEnd & thisRow & Hv0 & Hc0 & Hend & _ & _ & _ & Hcalls & Hdata & _).
    destruct (Hdata "json: unsupported value: NaN" eq_refl)
      as (Hrow & _ & Hdropped & _).
    exists s0, sEnd. split; [exact Hend |]. split.
    + rewrite Hcalls, Hrow. reflexivity.
    + cbn [sinks.copyRows sinks.copyMetrics] in Hdropped.
      rewrite Hdropped, Hv0. reflexivity.
  - destruct (copy_marshal_failures Examples.E Examples.batchTagNaN s'
                [] [] "wal" [] [Examples.entryLsn8] Examples.entryTagNaN
                eq_refl)
      as (s0 & sEnd & thisRow & Hv0 & Hc0 & Hend & _ & _ & _ & Hcalls & _ & Htags).
    destruct (Htags (Examples.lsn "7") "json: unsupported value: NaN"
                eq_refl eq_refl eq_refl)
      as (Hrow & _ & Hfail).
    exists s0, sEnd. split; [exact Hend |]. split.
    + rewrite Hcalls, Hrow. reflexivity.
    + cbn [sinks.copyRows sinks.copyMetrics] in Hfail.
      rewrite Hfail, Hc0, Hv0. reflexivity.
Defined.

(* ------------------------------------------------------------------ *)
(** ** The second call of the plain-mode partition manager *)

Section EndBranchFacts.
Import sinks.
Context {W : Type} (env : Env W).








End EndBranchFacts.


